(** * Webhook relay: field normalisation and upsert logic

    A shallow embedding of the relay's JavaScript sources and the
    properties of their normalisers, shared-secret gate and upsert
    handlers.  Both source files hold several revisions of the server, one
    after the other: [src/server.js] has the gated revision (lines 1-323),
    an upsert revision (325-622) and the first, forwarding revision
    (628-747); [src/unnamed/part_000] has the latest revision (1-516) and
    an early one that builds the contact in the route (517-727). *)

From Stdlib Require Import ZArith NArith Lia Bool String Ascii List.
From Stdlib Require DecimalString.
Import ListNotations.

Set Implicit Arguments.
Set Warnings "-register-all".
Open Scope string_scope.
Open Scope list_scope.

(** ** JavaScript values

    Request bodies are produced by [express.json()], so every value met by
    the handlers is a JSON tree.  Strings are sequences of UTF-16 code
    units.  An object is the list of its own enumerable properties in
    enumeration order.

    A number is a double.  The program never computes with the numbers of
    a payload: it tests them for zero, compares them for [Set] and
    [includes], and converts them to strings.  All three are functions of
    the string [Number::toString] gives ([0] for both zeros, [0.5],
    [-3], [1e+21]), which is different for different numbers apart from
    the two zeros, which [Set] and [includes] hold equal.  A number is
    therefore represented by that string. *)
Module Js.

Definition jstring := list N.

(** A source-level ASCII literal as a JavaScript string. *)
Definition lit (s : String.string) : jstring :=
  map Ascii.N_of_ascii (String.list_ascii_of_string s).

Fixpoint jstring_eqb (a b : jstring) : bool :=
  match a, b with
  | [], [] => true
  | x :: a', y :: b' => N.eqb x y && jstring_eqb a' b'
  | _, _ => false
  end.

Inductive value :=
| VUndef
| VNull
| VBool (b : bool)
| VNum (repr : jstring)
| VStr (s : jstring)
| VArr (l : list value)
| VObj (l : list (jstring * value)).

(** Abrupt completion: the only exception the modelled code can raise by
    itself is a [TypeError]; its message is carried along because the
    handlers echo it. *)
Inductive completion (A : Type) :=
| Normal (a : A)
| Throw (message : jstring).
Arguments Normal {A} a.
Arguments Throw {A} message.

Definition bindc {A B} (c : completion A) (k : A -> completion B) : completion B :=
  match c with
  | Normal a => k a
  | Throw m => Throw m
  end.

(** [WhiteSpace] and [LineTerminator] code points, as removed by
    [String.prototype.trim]. *)
Definition is_ws (c : N) : bool :=
  ((9 <=? c) && (c <=? 13) || (c =? 32) || (c =? 160) || (c =? 5760)
   || (8192 <=? c) && (c <=? 8202) || (c =? 8232) || (c =? 8233)
   || (c =? 8239) || (c =? 8287) || (c =? 12288) || (c =? 65279))%N.

Fixpoint drop_ws (s : jstring) : jstring :=
  match s with
  | [] => []
  | c :: r => if is_ws c then drop_ws r else s
  end.

(** [s.trim()] *)
Definition trim (s : jstring) : jstring :=
  rev (drop_ws (rev (drop_ws s))).

(** [s.split(sep)] for a one-character separator. *)
Fixpoint split_on (sep : N) (s : jstring) : list jstring :=
  match s with
  | [] => [[]]
  | c :: r =>
      if N.eqb c sep then [] :: split_on sep r
      else match split_on sep r with
           | [] => [[c]]
           | h :: t => (c :: h) :: t
           end
  end.

Definition comma : N := 44.
Definition dot : N := 46.

(** [String(n)] for a natural number below [1e21], where it is the
    decimal numeral: array indices, lengths and status codes. *)
Definition decimal (n : nat) : jstring :=
  lit (DecimalString.NilZero.string_of_uint (Nat.to_uint n)).

Definition num (n : nat) : value := VNum (decimal n).

(** Truthiness ([Boolean(v)], [!v], [if (v)]). *)
Definition truthy (v : value) : bool :=
  match v with
  | VUndef | VNull => false
  | VBool b => b
  | VNum r => negb (jstring_eqb r (lit "0") || jstring_eqb r (lit "NaN"))
  | VStr s => match s with [] => false | _ => true end
  | VArr _ | VObj _ => true
  end.

Definition nullish (v : value) : bool :=
  match v with
  | VUndef | VNull => true
  | _ => false
  end.

Definition has_own (k : jstring) (l : list (jstring * value)) : bool :=
  existsb (fun kv => jstring_eqb (fst kv) k) l.

(** [String(v)], which is also the conversion of a template literal and,
    for an array, [v.join(',')].  An array is joined with commas, [null]
    and [undefined] elements printing as the empty string.  An object is
    converted by its [toString] method: the inherited one prints
    [[object Object]]; an own property named [toString] shadows it, and
    as no JSON value is callable the conversion then falls back on
    [valueOf], which hands the object back, and throws a [TypeError]. *)
Fixpoint toString (v : value) : completion jstring :=
  match v with
  | VUndef => Normal (lit "undefined")
  | VNull => Normal (lit "null")
  | VBool true => Normal (lit "true")
  | VBool false => Normal (lit "false")
  | VNum r => Normal r
  | VStr s => Normal s
  | VArr l =>
      (fix join (l : list value) : completion jstring :=
         match l with
         | [] => Normal []
         | x :: r =>
             bindc (match x with
                    | VUndef | VNull => Normal []
                    | _ => toString x
                    end) (fun e =>
             match r with
             | [] => Normal e
             | _ :: _ => bindc (join r) (fun rest => Normal (e ++ comma :: rest))
             end)
         end) l
  | VObj l =>
      if has_own (lit "toString") l
      then Throw (lit "Cannot convert object to primitive value")
      else Normal (lit "[object Object]")
  end.

(** Own-property lookup in an object. *)
Fixpoint lookup (k : jstring) (l : list (jstring * value)) : value :=
  match l with
  | [] => VUndef
  | (k', v) :: r => if jstring_eqb k' k then v else lookup k r
  end.

(** Element [k] of an indexed collection, [k] a canonical index string. *)
Fixpoint index_lookup {A} (k : jstring) (i : nat) (l : list A) : option A :=
  match l with
  | [] => None
  | x :: r =>
      if jstring_eqb (decimal i) k then Some x
      else index_lookup k (S i) r
  end.

(** [o[k]] for [o] neither [null] nor [undefined].  Inherited members
    other than [length] (methods such as [map], [trim] or [toString]) are
    functions, which JSON data cannot hold; no key the program reads
    names one. *)
Definition get_prop (o : value) (k : jstring) : value :=
  match o with
  | VObj l => lookup k l
  | VArr l =>
      if jstring_eqb k (lit "length") then num (List.length l)
      else match index_lookup k 0 l with Some v => v | None => VUndef end
  | VStr s =>
      if jstring_eqb k (lit "length") then num (List.length s)
      else match index_lookup k 0 s with Some c => VStr [c] | None => VUndef end
  | _ => VUndef
  end.

(** [o.k], which throws on [null] and [undefined]. *)
Definition member (o : value) (k : jstring) : completion value :=
  match o with
  | VUndef =>
      Throw (lit "Cannot read properties of undefined (reading '" ++ k ++ lit "')")
  | VNull =>
      Throw (lit "Cannot read properties of null (reading '" ++ k ++ lit "')")
  | _ => Normal (get_prop o k)
  end.

(** [o?.k] *)
Definition opt_member (o : value) (k : jstring) : value :=
  if nullish o then VUndef else get_prop o k.

(** [a ?? b], [a || b] and [a && b] *)
Definition coalesce (a b : value) : value := if nullish a then b else a.
Definition or_else (a b : value) : value := if truthy a then a else b.
Definition and_then (a b : value) : value := if truthy a then b else a.

Fixpoint indexed {A} (f : A -> value) (i : nat) (l : list A) : list (jstring * value) :=
  match l with
  | [] => []
  | x :: r => (decimal i, f x) :: indexed f (S i) r
  end.

(** [Object.entries(v)] *)
Definition entries (v : value) : completion (list (jstring * value)) :=
  match v with
  | VUndef | VNull => Throw (lit "Cannot convert undefined or null to object")
  | VObj l => Normal l
  | VArr l => Normal (indexed (fun x => x) 0 l)
  | VStr s => Normal (indexed (fun c => VStr [c]) 0 s)
  | VBool _ | VNum _ => Normal []
  end.

(** [Object.keys(v)] of an object. *)
Definition keys (l : list (jstring * value)) : list value :=
  map (fun kv => VStr (fst kv)) l.

(** SameValueZero, the equality of [Array.prototype.includes] and of
    [Set].  Primitives compare by content.  Objects and arrays compare by
    reference: in a parsed JSON tree two occurrences are never the same
    reference, so two sub-trees met at different places are unequal. *)
Definition same_value_zero (a b : value) : bool :=
  match a, b with
  | VUndef, VUndef => true
  | VNull, VNull => true
  | VBool x, VBool y => Bool.eqb x y
  | VNum x, VNum y => jstring_eqb x y
  | VStr x, VStr y => jstring_eqb x y
  | _, _ => false
  end.

(** [arr.includes(x)] *)
Definition includes (arr : list value) (x : value) : bool :=
  existsb (same_value_zero x) arr.

(** [[...new Set(arr)]]: first occurrences, in order. *)
Fixpoint set_from (seen arr : list value) : list value :=
  match arr with
  | [] => []
  | x :: r =>
      if includes seen x then set_from seen r
      else x :: set_from (x :: seen) r
  end.

Definition set_spread (arr : list value) : list value := set_from [] arr.

Definition is_array (v : value) : bool :=
  match v with VArr _ => true | _ => false end.

(** A value in which no object has a property of its own named
    [toString]: the values [String()] converts whatever their depth. *)
Fixpoint plain (v : value) : bool :=
  match v with
  | VArr l =>
      (fix all (l : list value) : bool :=
         match l with
         | [] => true
         | x :: r => plain x && all r
         end) l
  | VObj l =>
      negb (has_own (lit "toString") l)
      && (fix all (l : list (jstring * value)) : bool :=
            match l with
            | [] => true
            | kv :: r => plain (snd kv) && all r
            end) l
  | _ => true
  end.

(** Induction on a JSON tree. *)
Section ValueInd.

Variable P : value -> Prop.
Hypothesis HUndef : P VUndef.
Hypothesis HNull : P VNull.
Hypothesis HBool : forall b, P (VBool b).
Hypothesis HNum : forall r, P (VNum r).
Hypothesis HStr : forall s, P (VStr s).
Hypothesis HArr : forall l, Forall P l -> P (VArr l).
Hypothesis HObj : forall l, Forall (fun kv => P (snd kv)) l -> P (VObj l).

Fixpoint value_tree_ind (v : value) : P v :=
  match v with
  | VUndef => HUndef
  | VNull => HNull
  | VBool b => HBool b
  | VNum r => HNum r
  | VStr s => HStr s
  | VArr l =>
      HArr ((fix all (l : list value) : Forall P l :=
               match l with
               | [] => Forall_nil P
               | x :: r => Forall_cons x (value_tree_ind x) (all r)
               end) l)
  | VObj l =>
      HObj ((fix all (l : list (jstring * value))
               : Forall (fun kv => P (snd kv)) l :=
               match l with
               | [] => Forall_nil _
               | kv :: r => Forall_cons kv (value_tree_ind (snd kv)) (all r)
               end) l)
  end.

End ValueInd.

End Js.
Import Js.

(** ** The CRM normaliser of [src/server.js] *)
Module Crm.

(** The path walk of [pick]:
    [p.split('.').reduce((o, k) => (o && o[k] !== undefined ? o[k] : undefined), payload)]. *)
Definition path_step (o : value) (k : jstring) : value :=
  if truthy o then get_prop o k else VUndef.

Definition path_value (payload : value) (p : jstring) : value :=
  fold_left path_step (split_on dot p) payload.

(** The test of [pick]:
    [v !== undefined && v !== null && String(v).trim() !== '']. *)
Definition usable (v : value) : completion bool :=
  match v with
  | VUndef | VNull => Normal false
  | _ => bindc (toString v) (fun s => Normal (negb (jstring_eqb (trim s) [])))
  end.

(** [function pick(payload, ...paths)] *)
Fixpoint pick (payload : value) (paths : list jstring) : completion value :=
  match paths with
  | [] => Normal VUndef
  | p :: rest =>
      let v := path_value payload p in
      bindc (usable v) (fun ok => if ok then Normal v else pick payload rest)
  end.

(** [function ensureArrayTags(v)] *)
Definition ensureArrayTags (v : value) : list value :=
  match v with
  | VArr l => l
  | VStr s =>
      map VStr
        (filter (fun t => truthy (VStr t)) (map trim (split_on comma s)))
  | _ => []
  end.

Definition email_paths : list jstring :=
  [lit "email"; lit "contact.email"; lit "contact.email_address"].
Definition phone_paths : list jstring :=
  [lit "phone"; lit "contact.phone"; lit "contact.phone_number"].
Definition firstName_paths : list jstring :=
  [lit "firstName"; lit "firstname"; lit "first_name";
   lit "contact.first_name"; lit "contact.firstname"].
Definition lastName_paths : list jstring :=
  [lit "lastName"; lit "lastname"; lit "last_name";
   lit "contact.last_name"; lit "contact.lastname"].
Definition tags_paths : list jstring := [lit "tags"; lit "contact.tags"].

(** [ensureArrayTags] hands an inbound array back itself, so the local
    [tags] is the very array stored in the payload when [pick] stopped at
    the path ['tags'] on an array; [push] and [unshift] then write
    through to [payload.tags]. *)
Definition tags_aliased (payload : value) : bool :=
  let v := path_value payload (lit "tags") in
  match usable v with
  | Normal true => is_array v
  | _ => false
  end.

(** One turn of [for (const [k, v] of Object.entries(payload))].  The
    entries are taken once, before the loop; an entry that holds the
    aliased array is read in its current state. *)
Definition key_tag_step (test : jstring -> bool) (aliased : bool)
    (tags : list value) (kv : jstring * value) : completion (list value) :=
  let k := fst kv in
  let v := if aliased && jstring_eqb k (lit "tags") then VArr tags else snd kv in
  if negb (truthy v) then Normal tags
  else if test k then bindc (toString v) (fun s => Normal (tags ++ [VStr (trim s)]))
  else Normal tags.

Fixpoint key_tags (test : jstring -> bool) (aliased : bool)
    (tags : list value) (es : list (jstring * value)) : completion (list value) :=
  match es with
  | [] => Normal tags
  | kv :: rest =>
      bindc (key_tag_step test aliased tags kv) (fun tags =>
      key_tags test aliased tags rest)
  end.

(** [for (let i = defaultTags.length - 1; i >= 0; i--)
       if (!tags.includes(defaultTags[i])) tags.unshift(defaultTags[i]);] *)
Definition prepend_defaults (defaultTags : list jstring) (tags : list value) : list value :=
  fold_right
    (fun d tags => if includes tags (VStr d) then tags else VStr d :: tags)
    tags defaultTags.

(** The tags found in the payload: the [tags] value, then the values of
    the keys the pattern selects.  [Object.entries] throws on a payload
    that is [null] or [undefined]. *)
Definition discovered_tags (payload : value) (tagFromKeysRegex : option (jstring -> bool))
  : completion (list value) :=
  bindc (pick payload tags_paths) (fun picked =>
  let tags := ensureArrayTags picked in
  match tagFromKeysRegex with
  | None => Normal tags
  | Some test =>
      bindc (entries payload) (fun es =>
      key_tags test (tags_aliased payload) tags es)
  end).

(** [tags = [...new Set(tags)].filter(Boolean)] after the defaults. *)
Definition final_tags (defaultTags : list jstring) (tags : list value) : list value :=
  filter truthy (set_spread (prepend_defaults defaultTags tags)).

Definition field (k : String.string) (v : value) (present : bool) : list (jstring * value) :=
  if present then [(lit k, v)] else [].

(** [function buildContactPayload(payload, defaultTags = [],
       locationId = undefined, tagFromKeysRegex = undefined)].
    Every caller passes an array of string literals for [defaultTags];
    the pattern, which every caller writes without the [g] flag, is its
    [test] as a predicate on keys. *)
Definition buildContactPayload (payload : value) (defaultTags : list jstring)
    (locationId : value) (tagFromKeysRegex : option (jstring -> bool))
  : completion value :=
  bindc (pick payload email_paths) (fun email =>
  bindc (pick payload phone_paths) (fun phone =>
  bindc (pick payload firstName_paths) (fun firstName =>
  bindc (pick payload lastName_paths) (fun lastName =>
  bindc (discovered_tags payload tagFromKeysRegex) (fun tags =>
  let tags := final_tags defaultTags tags in
  Normal (VObj
    (field "email" email (truthy email)
     ++ field "phone" phone (truthy phone)
     ++ field "firstName" firstName (truthy firstName)
     ++ field "lastName" lastName (truthy lastName)
     ++ field "tags" (VArr tags) (negb (Nat.eqb (List.length tags) 0))
     ++ field "locationId" locationId (truthy locationId)))))))).

End Crm.

Definition obj (l : list (String.string * value)) : value :=
  VObj (map (fun kv => (lit (fst kv), snd kv)) l).
Definition str (s : String.string) : value := VStr (lit s).


(** ** Specification vocabulary for the CRM normaliser *)

(** A resolved value reaches the contact only when it is truthy
    ([if (email) contact.email = email]). *)
Definition emitted (v : value) : value := if truthy v then v else VUndef.


(** The final tag list as the specification words it: the default tags,
    then the discovered ones, de-duplicated keeping first occurrences,
    with the empty entries dropped. *)
Definition tags_as_stated (defaultTags : list jstring) (discovered : list value) : list value :=
  filter truthy (set_spread (map VStr defaultTags ++ discovered)).

(** The entries of a list that do not occur again further on. *)
Fixpoint last_occurrences (l : list jstring) : list jstring :=
  match l with
  | [] => []
  | d :: r =>
      if existsb (jstring_eqb d) r then last_occurrences r
      else d :: last_occurrences r
  end.

(** The default tags that [prepend_defaults] puts in front of [tags]. *)
Definition missing_defaults (defaultTags : list jstring) (tags : list value) : list value :=
  map VStr
    (filter (fun d => negb (includes tags (VStr d))) (last_occurrences defaultTags)).

Definition primitive (v : value) : bool :=
  match v with
  | VArr _ | VObj _ => false
  | _ => true
  end.

(** No two entries of a list are the same value for [Set]. *)
Definition distinct (l : list value) : Prop :=
  ForallOrdPairs (fun a b => same_value_zero a b = false) l.

Definition own_keys (c : value) : list jstring :=
  match c with
  | VObj l => map fst l
  | _ => []
  end.

(** ** The pattern of the callers: [/competency_coach/i]

    Without the [u] flag, ignoring case folds a code unit to its upper
    case except when that would turn a non-ASCII unit into an ASCII one;
    against a pattern of ASCII letters and [_] this is equality up to the
    case of ASCII letters. *)
Definition ascii_lower (c : N) : N :=
  if ((65 <=? c) && (c <=? 90))%N then (c + 32)%N else c.

Fixpoint starts_with (p s : jstring) : bool :=
  match p, s with
  | [], _ => true
  | _ :: _, [] => false
  | x :: p', y :: s' => N.eqb x y && starts_with p' s'
  end.

Fixpoint contains (p s : jstring) : bool :=
  starts_with p s ||
  match s with
  | [] => false
  | _ :: r => contains p r
  end.

Definition competency_coach (k : jstring) : bool :=
  contains (lit "competency_coach") (map ascii_lower k).

(** The object [buildContactPayload] assembles from its resolved parts. *)
Definition contact_of (email phone firstName lastName : value) (tags : list value)
    (locationId : value) : value :=
  VObj
    (Crm.field "email" email (truthy email)
     ++ Crm.field "phone" phone (truthy phone)
     ++ Crm.field "firstName" firstName (truthy firstName)
     ++ Crm.field "lastName" lastName (truthy lastName)
     ++ Crm.field "tags" (VArr tags) (negb (Nat.eqb (List.length tags) 0))
     ++ Crm.field "locationId" locationId (truthy locationId)).

(** The field names of a normalised CRM contact. *)
Definition contact_keys : list jstring :=
  [lit "email"; lit "phone"; lit "firstName"; lit "lastName"; lit "tags";
   lit "locationId"].


(** ** Requests, responses and outbound calls

    The remote platforms are an arbitrary state machine [remote]: a call
    made in a world returns a reply and the next world.  A handler
    threads the world and the list of the calls it has issued.  File
    logging and console output are left out: [JSON.stringify] and
    [console.log] convert no value with [String()]. *)
Module Http.

Inductive verb := POST | PATCH.

(** An [axios] request: method, URL, [Authorization] header, JSON body. *)
Record call := Call {
  call_verb : verb;
  call_url : jstring;
  call_auth : jstring;
  call_body : value
}.

(** [Resolved data] is a 2xx reply with [resp.data]; [Rejected response
    message] is a rejection with [err.response] (its status and data, when
    the remote answered at all) and [err.message]. *)
Inductive reply :=
| Resolved (data : value)
| Rejected (response : option (nat * value)) (message : jstring).

Record response := Response {
  status : Z;
  body : value
}.

(** What a handler makes of a request.  [Responded r]: it sends [r].
    [Escaped message]: an exception leaves the handler before it has sent
    anything, so the promise of the [async] handler rejects; the handler
    makes no further call, and what the client then receives is decided
    by the framework, not by the handler (Express 5 answers 500, Express 4
    leaves the request unanswered). *)
Inductive outcome :=
| Responded (r : response)
| Escaped (message : jstring).

(** [process.env]: a variable is a string or is not set. *)
Definition env := String.string -> option jstring.

Definition var_value (x : option jstring) : value :=
  match x with
  | Some s => VStr s
  | None => VUndef
  end.

(** [process.env.NAME] *)
Definition getenv (e : env) (name : String.string) : value := var_value (e name).

(** [a || b] on two variables. *)
Definition or_var (a b : option jstring) : option jstring :=
  if truthy (var_value a) then a else b.

(** [req.body] is what [express.json()] left: the parsed JSON tree, or,
    for a request without a JSON body, [{}] under Express 4 and
    [undefined] under Express 5. *)
Record request := Request {
  header_shared_secret : value;   (* req.headers['x-shared-secret'] *)
  query_secret : value;           (* req.query.secret *)
  req_body : value                (* req.body *)
}.

(** [err.response?.data || err.message] *)
Definition error_details (response : option (nat * value)) (message : jstring) : value :=
  or_else (match response with Some (_, d) => d | None => VUndef end) (VStr message).

(** [`Bearer ${key}`] for a key read from the environment. *)
Definition bearer (token : option jstring) : jstring :=
  lit "Bearer " ++ match token with Some s => s | None => lit "undefined" end.

Section Remote.

Variable World : Type.
Variable remote : call -> World -> reply * World.

Record state := State {
  world : World;
  issued : list call
}.

Definition io (A : Type) : Type := state -> A * state.

Definition ret {A} (a : A) : io A := fun s => (a, s).

Definition bind {A B} (m : io A) (k : A -> io B) : io B :=
  fun s => let (a, s') := m s in k a s'.

(** [await axios(...)] *)
Definition axios (c : call) : io reply :=
  fun s =>
    let (r, w) := remote c (world s) in
    (r, {| world := w; issued := issued s ++ [c] |}).

End Remote.

Arguments ret {World A} a.
Arguments bind {World A B} m k.

End Http.
Import Http.

Notation "x <- m ;; k" := (Http.bind m (fun x => k))
  (at level 61, m at next level, right associativity).

Definition json (code : Z) (fields : list (String.string * value)) : outcome :=
  Responded (Response code (obj fields)).
Definition send (code : Z) (text : jstring) : outcome :=
  Responded (Response code (VStr text)).

(** ** The gated revision, [src/server.js] lines 1-323 *)
Module Server.

(** [req.headers['x-shared-secret'] || req.query.secret
     || (req.body && req.body.secret)] *)
Definition incoming_secret (req : request) : value :=
  or_else (or_else (header_shared_secret req) (query_secret req))
    (and_then (req_body req) (get_prop (req_body req) (lit "secret"))).

(** [function assertSharedSecret(req, res)].  [Normal true] lets the
    handler go on; with [Normal false] the response [unauthorized] has
    been sent; [String(incoming)] can throw. *)
Definition assertSharedSecret (e : env) (req : request) : completion bool :=
  let configured := getenv e "SHARED_SECRET" in
  if negb (truthy configured) then Normal true
  else
    let incoming := incoming_secret req in
    if truthy incoming
    then bindc (toString incoming) (fun given =>
         bindc (toString configured) (fun expected =>
         Normal (jstring_eqb given expected)))
    else Normal false.

Definition unauthorized : outcome :=
  json 401 [("status", str "error");
            ("message", str "Unauthorized (shared secret missing/invalid)")].

(** [async function upsertToGHL(apiKey, contact)] *)
Definition upsertToGHL (apiKey : option jstring) (contact : value) : call :=
  Call POST (lit "https://rest.gohighlevel.com/v1/contacts/") (bearer apiKey) contact.

Section Routes.

Variable World : Type.
Variable remote : call -> World -> reply * World.

(** The body shared by [/webhook], [/webhook2], [/webhook3] and
    [/webhook/new-ghl-account] once the shared secret is accepted; the
    four differ in the two environment variables they read.
    [buildContactPayload] is called outside the [try]. *)
Definition crm_accepted (api_var location_var : String.string) (e : env) (req : request)
  : io World outcome :=
  let payload := req_body req in
  match Crm.buildContactPayload payload [lit "From Account A"] (getenv e location_var)
          (Some competency_coach) with
  | Throw m => ret (Escaped m)
  | Normal contact =>
      if negb (truthy (get_prop contact (lit "email")))
         && negb (truthy (get_prop contact (lit "phone")))
      then ret (json 400 [("status", str "error");
                          ("message", str "Missing email or phone")])
      else
        resp <- axios remote (upsertToGHL (e api_var) contact) ;;
        match resp with
        | Resolved data => ret (json 200 [("status", str "success"); ("data", data)])
        | Rejected r m =>
            ret (json 500 [("status", str "error"); ("error", error_details r m)])
        end
  end.

(** [if (!assertSharedSecret(req, res)) return;] is the first statement
    of every [POST] handler of this revision, outside any [try]. *)
Definition gated (accepted : env -> request -> io World outcome) (e : env) (req : request)
  : io World outcome :=
  match assertSharedSecret e req with
  | Throw m => ret (Escaped m)
  | Normal false => ret unauthorized
  | Normal true => accepted e req
  end.

Definition crm_route (api_var location_var : String.string) : env -> request -> io World outcome :=
  gated (crm_accepted api_var location_var).

Definition webhook := crm_route "ACCOUNT_A_API" "ACCOUNT_A_LOCATION_ID".
Definition webhook2 := crm_route "ACCOUNT_B_API" "ACCOUNT_B_LOCATION_ID".
Definition webhook3 := crm_route "ACCOUNT_C_API" "ACCOUNT_C_LOCATION_ID".
Definition new_ghl_account := crm_route "NEW_GHL_API" "NEW_GHL_LOCATION_ID".

(** [/webhook/ghl-to-hubspot] of this revision: a plain create.  The
    destructuring of [req.body] and [tags.join(',')] are inside the
    [try]. *)
Definition hubspot_accepted (e : env) (req : request) : io World outcome :=
  let b := req_body req in
  let failed details := json 500 [("status", str "error"); ("error", details)] in
  match b with
  | VUndef =>
      ret (failed (str "Cannot destructure property 'email' of 'req.body' as it is undefined."))
  | VNull =>
      ret (failed (str "Cannot destructure property 'email' of 'req.body' as it is null."))
  | _ =>
    let email := get_prop b (lit "email") in
    let tags := get_prop b (lit "tags") in
    let prop k := or_else (get_prop b (lit k)) (str "") in
    if negb (truthy email)
    then ret (json 400 [("status", str "error");
                        ("message", str "Missing required field: email")])
    else
      match (if is_array tags then bindc (toString tags) (fun s => Normal (VStr s))
             else Normal (or_else tags (str ""))) with
      | Throw m => ret (failed (VStr m))
      | Normal joined =>
          let hubspotData :=
            obj [("properties",
                  obj [("email", or_else email (str ""));
                       ("firstname", prop "firstname");
                       ("lastname", prop "lastname");
                       ("phone", prop "phone");
                       ("source", prop "source");
                       ("tags", joined);
                       ("investor_archetype_ppt_frequency",
                        prop "investor_archetype_ppt_frequency");
                       ("investor_archetype_ppt_profile",
                        prop "investor_archetype_ppt_profile");
                       ("investor_archetype_free_ppt_frequency",
                        prop "investor_archetype_free_ppt_frequency")])] in
          resp <- axios remote
                    (Call POST (lit "https://api.hubapi.com/crm/v3/objects/contacts")
                       (bearer (e "HUBSPOT_ACCESS_TOKEN")) hubspotData) ;;
          match resp with
          | Resolved data => ret (json 200 [("status", str "success"); ("data", data)])
          | Rejected r m => ret (failed (error_details r m))
          end
      end
  end.

Definition ghl_to_hubspot : env -> request -> io World outcome :=
  gated hubspot_accepted.

End Routes.

(** The five [POST] routes of this revision. *)
Inductive route := Webhook | Webhook2 | Webhook3 | NewGhlAccount | GhlToHubspot.

Definition accepted {World} (remote : call -> World -> reply * World) (r : route)
  : env -> request -> io World outcome :=
  match r with
  | Webhook => crm_accepted remote "ACCOUNT_A_API" "ACCOUNT_A_LOCATION_ID"
  | Webhook2 => crm_accepted remote "ACCOUNT_B_API" "ACCOUNT_B_LOCATION_ID"
  | Webhook3 => crm_accepted remote "ACCOUNT_C_API" "ACCOUNT_C_LOCATION_ID"
  | NewGhlAccount => crm_accepted remote "NEW_GHL_API" "NEW_GHL_LOCATION_ID"
  | GhlToHubspot => hubspot_accepted remote
  end.

Definition handle {World} (remote : call -> World -> reply * World) (r : route)
  : env -> request -> io World outcome :=
  match r with
  | Webhook => webhook remote
  | Webhook2 => webhook2 remote
  | Webhook3 => webhook3 remote
  | NewGhlAccount => new_ghl_account remote
  | GhlToHubspot => ghl_to_hubspot remote
  end.

End Server.

(** ** The latest revision, [src/unnamed/part_000] lines 1-516 *)
Module Part000.

(** [function normalizeHubSpotContact(raw = {})] *)
Definition normalizeHubSpotContact (raw : value) : completion value :=
  let raw := match raw with VUndef => VObj [] | _ => raw end in
  bindc (member raw (lit "email")) (fun email =>
  let firstname :=
    coalesce (coalesce (get_prop raw (lit "firstname")) (get_prop raw (lit "firstName")))
      (str "") in
  let lastname :=
    coalesce (coalesce (get_prop raw (lit "lastname")) (get_prop raw (lit "lastName")))
      (str "") in
  let phone := coalesce (get_prop raw (lit "phone")) (str "") in
  let source := coalesce (get_prop raw (lit "source")) (str "") in
  Normal (obj
    [("email", email);
     ("firstname", firstname);
     ("lastname", lastname);
     ("phone", phone);
     ("source", source);
     ("investor_archetype_ppt_frequency",
      coalesce (get_prop raw (lit "investor_archetype_ppt_frequency")) (str ""));
     ("investor_archetype_ppt_profile",
      coalesce (get_prop raw (lit "investor_archetype_ppt_profile")) (str ""));
     ("investor_archetype_free_ppt_frequency",
      coalesce (get_prop raw (lit "investor_archetype_free_ppt_frequency")) (str ""))])).

(** [function normalizeHubSpotContactOperatingFrame(raw = {})] *)
Definition normalizeHubSpotContactOperatingFrame (raw : value) : completion value :=
  let raw := match raw with VUndef => VObj [] | _ => raw end in
  bindc (member raw (lit "contact")) (fun contact =>
  let c := coalesce contact raw in
  let r k := get_prop raw (lit k) in
  let ck k := get_prop c (lit k) in
  let email := coalesce (r "email") (ck "email") in
  let firstname :=
    coalesce (coalesce (coalesce (coalesce (r "firstname") (r "firstName"))
                          (ck "first_name")) (ck "firstname")) (str "") in
  let lastname :=
    coalesce (coalesce (coalesce (coalesce (r "lastname") (r "lastName"))
                          (ck "last_name")) (ck "lastname")) (str "") in
  let phone := coalesce (coalesce (r "phone") (ck "phone")) (str "") in
  let Source := coalesce (coalesce (r "source") (ck "source")) (str "GHL Survey") in
  let FreeOperatingFrameFrequency :=
    coalesce (coalesce (coalesce (coalesce (r "free_operatingframe_frequency")
                                    (ck "free_operatingframe_frequency"))
                          (r "FreeOperatingFrameFrequency"))
                (ck "FreeOperatingFrameFrequency")) (str "") in
  let FreeOperatingFrameTest :=
    coalesce (coalesce (coalesce (coalesce (r "free_operatingframe_test")
                                    (ck "free_operatingframe_test"))
                          (r "FreeOperatingFrameTest"))
                (ck "FreeOperatingFrameTest")) (str "") in
  Normal (obj
    [("email", email);
     ("firstname", firstname);
     ("lastname", lastname);
     ("phone", phone);
     ("Source", Source);
     ("FreeOperatingFrameFrequency", FreeOperatingFrameFrequency);
     ("FreeOperatingFrameTest", FreeOperatingFrameTest)])).

(** The [tags] of [buildGhlContact]:
    [Array.isArray(payload.tags) ? payload.tags
       : payload.tags ? String(payload.tags).split(",").map((t) => t.trim()).filter(Boolean)
       : []] *)
Definition ghl_tags (tags : value) : completion value :=
  if is_array tags then Normal tags
  else if truthy tags
       then bindc (toString tags) (fun s =>
            Normal (VArr (map VStr
                            (filter (fun t => truthy (VStr t))
                               (map trim (split_on comma s))))))
       else Normal (VArr []).

(** [function buildGhlContact(payload)] *)
Definition buildGhlContact (payload : value) : completion value :=
  bindc (member payload (lit "email")) (fun email =>
  let p k := get_prop payload (lit k) in
  let c k := opt_member (get_prop payload (lit "contact")) (lit k) in
  bindc (ghl_tags (p "tags")) (fun tags =>
  Normal (obj
    [("email", or_else email (c "email"));
     ("phone", or_else (p "phone") (c "phone"));
     ("firstName",
      or_else (or_else (or_else (p "firstName") (p "firstname")) (c "first_name"))
        (c "firstname"));
     ("lastName",
      or_else (or_else (or_else (p "lastName") (p "lastname")) (c "last_name"))
        (c "lastname"));
     ("tags", tags)]))).

(** [{ ...contact, k: v }] *)
Fixpoint set_prop (fields : list (jstring * value)) (k : jstring) (v : value)
  : list (jstring * value) :=
  match fields with
  | [] => [(k, v)]
  | (k', v') :: r =>
      if jstring_eqb k' k then (k', v) :: r else (k', v') :: set_prop r k v
  end.

Definition spread_with (o : value) (k : String.string) (v : value) : value :=
  match entries o with
  | Normal fields => VObj (set_prop fields (lit k) v)
  | Throw _ => VObj [(lit k, v)]
  end.

Definition leadconnector (apiKey : option jstring) (body : value) : call :=
  Call POST (lit "https://services.leadconnectorhq.com/contacts/") (bearer apiKey) body.

(** [async function upsertToGhl(apiKey, contact, locationId)] *)
Definition upsertToGhl (apiKey : option jstring) (contact locationId : value) : call :=
  leadconnector apiKey
    (if truthy locationId then spread_with contact "locationId" locationId else contact).

(** A request through [axios.create({ baseURL: "https://api.hubapi.com",
    headers: { Authorization: `Bearer ${token}` } })]. *)
Definition hubspot (v : verb) (token : option jstring) (path : jstring) (body : value) : call :=
  Call v (lit "https://api.hubapi.com" ++ path) (bearer token) body.

Definition server_error (details : value) : outcome :=
  json 500 [("status", str "error"); ("error", details)].

(** [const chunk = (arr, size) =>
       arr.reduce((a, _, i) => (i % size ? a : [...a, arr.slice(i, i + size)]), [])],
    for a positive [size] (it is 100 at every call). *)
Definition slice {A} (i j : nat) (arr : list A) : list A :=
  firstn (j - i) (skipn i arr).

Definition chunk {A} (arr : list A) (size : nat) : list (list A) :=
  fold_left
    (fun a i => if Nat.eqb (i mod size) 0 then a ++ [slice i (i + size) arr] else a)
    (seq 0 (List.length arr)) [].

(** [group.map((c) => ({ idProperty: "email", properties: normalize(c) }))] *)
Fixpoint batch_inputs (normalize : value -> completion value) (group : list value)
  : completion (list value) :=
  match group with
  | [] => Normal []
  | c :: rest =>
      bindc (normalize c) (fun properties =>
      bindc (batch_inputs normalize rest) (fun inputs =>
      Normal (obj [("idProperty", str "email"); ("properties", properties)] :: inputs)))
  end.

Definition search_body (properties : value) : value :=
  obj [("filterGroups",
        VArr [obj [("filters",
                    VArr [obj [("propertyName", str "email");
                               ("operator", str "EQ");
                               ("value", get_prop properties (lit "email"))]])]]);
       ("properties", VArr (match properties with VObj l => keys l | _ => [] end));
       ("limit", num 1)].

Section Routes.

Variable World : Type.
Variable remote : call -> World -> reply * World.

(** [/webhook], [/webhook2], [/webhook3]: [buildGhlContact] is called
    outside the [try]; inside it, [resp.data.id] is read for the log. *)
Definition ghl_route (api_var : String.string) (locationId : value) (account : String.string)
    (e : env) (req : request) : io World outcome :=
  match buildGhlContact (req_body req) with
  | Throw m => ret (Escaped m)
  | Normal contact =>
      if negb (truthy (get_prop contact (lit "email")))
         && negb (truthy (get_prop contact (lit "phone")))
      then ret (send 400 (lit "Missing email or phone"))
      else
        resp <- axios remote (upsertToGhl (e api_var) contact locationId) ;;
        match resp with
        | Resolved data =>
            if nullish data
            then ret (send 500 (lit "Error sending to Account " ++ lit account))
            else ret (send 200 (lit "Sent to Account " ++ lit account))
        | Rejected _ _ => ret (send 500 (lit "Error sending to Account " ++ lit account))
        end
  end.

Definition webhook (e : env) :=
  ghl_route "ACCOUNT_A_API" (getenv e "ACCOUNT_A_LOCATION_ID") "A" e.
Definition webhook2 (e : env) :=
  ghl_route "ACCOUNT_B_API"
    (or_else (getenv e "ACCOUNT_B_LOCATION_ID") (getenv e "NEW_GHL_LOCATION_ID")) "B" e.
Definition webhook3 (e : env) :=
  ghl_route "ACCOUNT_C_API" (getenv e "ACCOUNT_C_LOCATION_ID") "C" e.

(** [/webhook/new-ghl-account]: the contact is built outside the [try];
    the template literal of the 200 response is inside it. *)
Definition new_ghl_account (e : env) (req : request) : io World outcome :=
  let payload := req_body req in
  match member payload (lit "firstName") with
  | Throw m => ret (Escaped m)
  | Normal _ =>
      let p k := get_prop payload (lit k) in
      let c k := opt_member (get_prop payload (lit "contact")) (lit k) in
      let contact :=
        obj [("firstName", coalesce (coalesce (p "firstName") (c "first_name")) (c "firstName"));
             ("lastName", coalesce (coalesce (p "lastName") (c "last_name")) (c "lastName"));
             ("email", coalesce (p "email") (c "email"));
             ("phone", coalesce (p "phone") (c "phone"));
             ("tags", if is_array (p "tags") then p "tags"
                      else if is_array (c "tags") then c "tags" else VArr [])] in
      if negb (truthy (get_prop contact (lit "email")))
         && negb (truthy (get_prop contact (lit "phone")))
      then ret (send 400 (lit "Missing email or phone"))
      else
        let key := or_var (e "ACCOUNT_B_API") (e "NEW_GHL_API") in
        let loc := getenv e "NEW_GHL_LOCATION_ID" in
        if negb (truthy (var_value key)) || negb (truthy loc)
        then ret (send 500 (lit "Server not configured: missing API key or locationId"))
        else
          resp <- axios remote (leadconnector key (spread_with contact "locationId" loc)) ;;
          match resp with
          | Resolved data =>
              match toString (coalesce (opt_member data (lit "id")) (str "unknown")) with
              | Normal id =>
                  ret (send 200 (lit "Sent to Account B (id: " ++ id ++ lit ")"))
              | Throw m =>
                  ret (json 500 [("status", str "error");
                                 ("httpStatus", VNull);
                                 ("details", VStr m)])
              end
          | Rejected r m =>
              ret (json 500
                     [("status", str "error");
                      ("httpStatus",
                       coalesce (match r with Some (s, _) => num s | None => VUndef end) VNull);
                      ("details", error_details r m)])
          end
  end.

(** The search-then-update-or-create sequence of the two single-contact
    routes, from [axios.create] on; all of it is inside the [try]. *)
Definition upsert_one (token : option jstring) (properties : value) : io World outcome :=
  search <- axios remote
              (hubspot POST token (lit "/crm/v3/objects/contacts/search")
                 (search_body properties)) ;;
  match search with
  | Rejected r m => ret (server_error (error_details r m))
  | Resolved data =>
      let existing :=
        or_else (opt_member (opt_member data (lit "results")) (lit "0")) VNull in
      if truthy existing then
        let id := get_prop existing (lit "id") in
        match toString id with
        | Throw m => ret (server_error (VStr m))
        | Normal path_id =>
            update <- axios remote
                        (hubspot PATCH token (lit "/crm/v3/objects/contacts/" ++ path_id)
                           (obj [("properties", properties)])) ;;
            match update with
            | Resolved d =>
                ret (json 200 [("status", str "updated"); ("id", id); ("data", d)])
            | Rejected r m => ret (server_error (error_details r m))
            end
        end
      else
        create <- axios remote
                    (hubspot POST token (lit "/crm/v3/objects/contacts")
                       (obj [("properties", properties)])) ;;
        match create with
        | Resolved d =>
            match member d (lit "id") with
            | Normal id =>
                ret (json 200 [("status", str "created"); ("id", id); ("data", d)])
            | Throw m => ret (server_error (VStr m))
            end
        | Rejected r m => ret (server_error (error_details r m))
        end
  end.

Definition missing_email : outcome :=
  json 400 [("status", str "error"); ("message", str "Missing required field: email")].

(** [/webhook/ghl-to-hubspot] *)
Definition ghl_to_hubspot (e : env) (req : request) : io World outcome :=
  match normalizeHubSpotContact (or_else (req_body req) (VObj [])) with
  | Throw m => ret (server_error (VStr m))
  | Normal properties =>
      if negb (truthy (get_prop properties (lit "email"))) then ret missing_email
      else upsert_one (e "HUBSPOT_ACCESS_TOKEN") properties
  end.

Definition not_configured : outcome :=
  json 500 [("status", str "error");
            ("message",
             str "Server not configured: missing HUBSPOT_ACCESS_TOKEN_OPERATINGFRAME")].

(** [/webhook/ghl-to-hubspot-operatingframe] *)
Definition ghl_to_hubspot_operatingframe (e : env) (req : request) : io World outcome :=
  let token := e "HUBSPOT_ACCESS_TOKEN_OPERATINGFRAME" in
  if negb (truthy (var_value token)) then ret not_configured
  else
    match normalizeHubSpotContactOperatingFrame (or_else (req_body req) (VObj [])) with
    | Throw m => ret (server_error (VStr m))
    | Normal properties =>
        if negb (truthy (get_prop properties (lit "email"))) then ret missing_email
        else upsert_one token properties
    end.

(** [for (const group of chunks) { ... results.push(resp.data); }] inside
    the [try]: [inr] carries the details of the error caught. *)
Fixpoint upsert_groups (normalize : value -> completion value) (token : option jstring)
    (chunks : list (list value)) (results : list value)
  : io World (list value + value) :=
  match chunks with
  | [] => ret (inl results)
  | group :: rest =>
      match batch_inputs normalize group with
      | Throw m => ret (inr (VStr m))
      | Normal inputs =>
          resp <- axios remote
                    (hubspot POST token (lit "/crm/v3/objects/contacts/batch/upsert")
                       (obj [("inputs", VArr inputs)])) ;;
          match resp with
          | Resolved d => upsert_groups normalize token rest (results ++ [d])
          | Rejected r m => ret (inr (error_details r m))
          end
      end
  end.

Definition upsert_batch (normalize : value -> completion value) (token : option jstring)
    (items : list value) (empty_message : String.string) : io World outcome :=
  if Nat.eqb (List.length items) 0
  then ret (json 400 [("status", str "error"); ("message", str empty_message)])
  else
    r <- upsert_groups normalize token (chunk items 100) [] ;;
    match r with
    | inl results =>
        ret (json 200 [("status", str "success");
                       ("chunks", num (List.length results));
                       ("results", VArr results)])
    | inr details => ret (server_error details)
    end.

(** [/webhook/ghl-to-hubspot-batch] *)
Definition ghl_to_hubspot_batch (e : env) (req : request) : io World outcome :=
  match member (req_body req) (lit "contacts") with
  | Throw m => ret (server_error (VStr m))
  | Normal contacts =>
      let items := match contacts with VArr l => l | _ => [] end in
      upsert_batch normalizeHubSpotContact (e "HUBSPOT_ACCESS_TOKEN") items
        "Body must include contacts[]"
  end.

(** [/webhook/ghl-to-hubspot-operatingframe-batch] *)
Definition ghl_to_hubspot_operatingframe_batch (e : env) (req : request)
  : io World outcome :=
  let token := e "HUBSPOT_ACCESS_TOKEN_OPERATINGFRAME" in
  if negb (truthy (var_value token)) then ret not_configured
  else
    let b := req_body req in
    match member b (lit "contacts") with
    | Throw m => ret (server_error (VStr m))
    | Normal contacts =>
        let items :=
          match contacts with
          | VArr l => l
          | _ =>
              if truthy (and_then b
                           (or_else (get_prop b (lit "email"))
                              (opt_member (get_prop b (lit "contact")) (lit "email"))))
              then [b] else []
          end in
        upsert_batch normalizeHubSpotContactOperatingFrame token items
          "Body must include contacts[] (or a single contact payload)"
    end.

End Routes.

End Part000.

(** ** The upsert revision, [src/server.js] lines 325-622 *)
Module Server2.

(** [function buildGhlContact(payload)] (lines 378-389) is, token for
    token, the function of the latest revision. *)
Definition buildGhlContact : value -> completion value := Part000.buildGhlContact.

(** [async function upsertToGhl(apiKey, contact)] *)
Definition upsertToGhl (apiKey : option jstring) (contact : value) : call :=
  Call POST (lit "https://rest.gohighlevel.com/v1/contacts/") (bearer apiKey) contact.

Section Routes.

Variable World : Type.
Variable remote : call -> World -> reply * World.

(** [/webhook], [/webhook2], [/webhook3] *)
Definition ghl_route (api_var account : String.string) (e : env) (req : request)
  : io World outcome :=
  match buildGhlContact (req_body req) with
  | Throw m => ret (Escaped m)
  | Normal contact =>
      if negb (truthy (get_prop contact (lit "email")))
         && negb (truthy (get_prop contact (lit "phone")))
      then ret (send 400 (lit "Missing email or phone"))
      else
        resp <- axios remote (upsertToGhl (e api_var) contact) ;;
        match resp with
        | Resolved data =>
            if nullish data
            then ret (send 500 (lit "Error sending to Account " ++ lit account))
            else ret (send 200 (lit "Sent to Account " ++ lit account))
        | Rejected _ _ => ret (send 500 (lit "Error sending to Account " ++ lit account))
        end
  end.

Definition webhook := ghl_route "ACCOUNT_A_API" "A".
Definition webhook2 := ghl_route "ACCOUNT_B_API" "B".
Definition webhook3 := ghl_route "ACCOUNT_C_API" "C".

(** [/webhook/new-ghl-account] (lines 565-612) *)
Definition new_ghl_account (e : env) (req : request) : io World outcome :=
  let payload := req_body req in
  match member payload (lit "firstName") with
  | Throw m => ret (Escaped m)
  | Normal _ =>
      let p k := get_prop payload (lit k) in
      let c k := opt_member (get_prop payload (lit "contact")) (lit k) in
      let contact :=
        obj [("firstName", coalesce (p "firstName") (c "first_name"));
             ("lastName", coalesce (p "lastName") (c "last_name"));
             ("email", coalesce (p "email") (c "email"));
             ("phone", coalesce (p "phone") (c "phone"));
             ("tags", if is_array (p "tags") then p "tags"
                      else if is_array (c "tags") then c "tags" else VArr []);
             ("locationId", getenv e "NEW_GHL_LOCATION_ID")] in
      if negb (truthy (get_prop contact (lit "email")))
         && negb (truthy (get_prop contact (lit "phone")))
      then ret (send 400 (lit "Missing email or phone"))
      else
        resp <- axios remote (Part000.leadconnector (e "NEW_GHL_API") contact) ;;
        match resp with
        | Resolved data =>
            match toString (coalesce (opt_member data (lit "id")) (str "unknown")) with
            | Normal id =>
                ret (send 200 (lit "Sent to Account B (id: " ++ id ++ lit ")"))
            | Throw _ => ret (send 500 (lit "Error sending to Account B: "))
            end
        | Rejected r _ =>
            ret (send 500
                   (lit "Error sending to Account B: "
                    ++ match r with Some (s, _) => decimal s | None => [] end))
        end
  end.

End Routes.

End Server2.

(** ** The first revision, [src/server.js] lines 628-747

    Its three routes forward the request body as it came. *)
Module Server3.

Section Routes.

Variable World : Type.
Variable remote : call -> World -> reply * World.

Definition forward (api_var account : String.string) (e : env) (req : request)
  : io World outcome :=
  resp <- axios remote
            (Call POST (lit "https://rest.gohighlevel.com/v1/contacts/")
               (bearer (e api_var)) (req_body req)) ;;
  match resp with
  | Resolved _ => ret (send 200 (lit "Sent to Account " ++ lit account))
  | Rejected _ _ => ret (send 500 (lit "Error sending to Account " ++ lit account))
  end.

Definition webhook := forward "ACCOUNT_A_API" "A".
Definition webhook2 := forward "ACCOUNT_B_API" "B".
Definition webhook3 := forward "ACCOUNT_C_API" "C".

End Routes.

End Server3.

(** ** The early revision of [src/unnamed/part_000], lines 517-727 *)
Module Part000b.

Section Routes.

Variable World : Type.
Variable remote : call -> World -> reply * World.

(** [/webhook], [/webhook2], [/webhook3]: the contact is an object
    literal of the route, written outside the [try]. *)
Definition inline_route (api_var account : String.string) (e : env) (req : request)
  : io World outcome :=
  let payload := req_body req in
  match member payload (lit "email") with
  | Throw m => ret (Escaped m)
  | Normal _ =>
      let p k := get_prop payload (lit k) in
      let c k := opt_member (get_prop payload (lit "contact")) (lit k) in
      let contact :=
        obj [("email", or_else (p "email") (c "email"));
             ("phone", or_else (p "phone") (c "phone"));
             ("firstName", or_else (p "firstName") (c "first_name"));
             ("lastName", or_else (p "lastName") (c "last_name"));
             ("tags", or_else (or_else (p "tags") (c "tags")) (VArr []))] in
      if negb (truthy (get_prop contact (lit "email")))
         && negb (truthy (get_prop contact (lit "phone")))
      then ret (send 400 (lit "Missing email or phone"))
      else
        resp <- axios remote
                  (Call POST (lit "https://rest.gohighlevel.com/v1/contacts/")
                     (bearer (e api_var)) contact) ;;
        match resp with
        | Resolved data =>
            if nullish data
            then ret (send 500 (lit "Error sending to Account " ++ lit account))
            else ret (send 200 (lit "Sent to Account " ++ lit account))
        | Rejected _ _ => ret (send 500 (lit "Error sending to Account " ++ lit account))
        end
  end.

Definition webhook := inline_route "ACCOUNT_A_API" "A".
Definition webhook2 := inline_route "ACCOUNT_B_API" "B".
Definition webhook3 := inline_route "ACCOUNT_C_API" "C".

End Routes.

End Part000b.

(** ** Specification vocabulary for the routes *)

(** The CRM routes that build a contact from the payload: those of the
    gated revision, of the upsert revision, of the latest revision and of
    the early revision of [part_000].  The three routes of the first
    revision ([Server3]) build none. *)
Inductive crm_handler :=
| SrvWebhook | SrvWebhook2 | SrvWebhook3 | SrvNewGhlAccount
| UpWebhook | UpWebhook2 | UpWebhook3 | UpNewGhlAccount
| P0Webhook | P0Webhook2 | P0Webhook3 | P0NewGhlAccount
| InWebhook | InWebhook2 | InWebhook3.

Definition run {World} (remote : call -> World -> reply * World) (h : crm_handler)
  : env -> request -> io World outcome :=
  match h with
  | SrvWebhook => Server.webhook remote
  | SrvWebhook2 => Server.webhook2 remote
  | SrvWebhook3 => Server.webhook3 remote
  | SrvNewGhlAccount => Server.new_ghl_account remote
  | UpWebhook => Server2.webhook remote
  | UpWebhook2 => Server2.webhook2 remote
  | UpWebhook3 => Server2.webhook3 remote
  | UpNewGhlAccount => Server2.new_ghl_account remote
  | P0Webhook => Part000.webhook remote
  | P0Webhook2 => Part000.webhook2 remote
  | P0Webhook3 => Part000.webhook3 remote
  | P0NewGhlAccount => Part000.new_ghl_account remote
  | InWebhook => Part000b.webhook remote
  | InWebhook2 => Part000b.webhook2 remote
  | InWebhook3 => Part000b.webhook3 remote
  end.

(** How a route resolves the identity fields. *)
Inductive resolution := ByPick | ByOr | ByCoalesce.

Definition resolution_of (h : crm_handler) : resolution :=
  match h with
  | SrvWebhook | SrvWebhook2 | SrvWebhook3 | SrvNewGhlAccount => ByPick
  | UpNewGhlAccount | P0NewGhlAccount => ByCoalesce
  | _ => ByOr
  end.

Definition location_var (h : crm_handler) : String.string :=
  match h with
  | SrvWebhook => "ACCOUNT_A_LOCATION_ID"
  | SrvWebhook2 => "ACCOUNT_B_LOCATION_ID"
  | SrvWebhook3 => "ACCOUNT_C_LOCATION_ID"
  | _ => "NEW_GHL_LOCATION_ID"
  end.




Definition missing_identity (h : crm_handler) : outcome :=
  match resolution_of h with
  | ByPick => json 400 [("status", str "error"); ("message", str "Missing email or phone")]
  | _ => send 400 (lit "Missing email or phone")
  end.

(** The status of the response the handler sends, when it sends one. *)
Definition status_of (o : outcome) : option Z :=
  match o with
  | Responded r => Some (status r)
  | Escaped _ => None
  end.


(** ** Sample deployments *)

(** A remote that accepts every call and counts them. *)
Definition accepting : call -> nat -> reply * nat :=
  fun _ n => (Resolved (obj [("id", num n)]), S n).

(** A remote that rejects its [k]-th call (counting from 0) with a 429. *)
Definition rejecting_at (k : nat) : call -> nat -> reply * nat :=
  fun _ n =>
    (if Nat.eqb n k
     then Rejected (Some (429, obj [("message", str "rate limited")]))
            (lit "Request failed with status code 429")
     else Resolved (obj [("id", num n)]),
     S n).

Definition env_with (vars : list (String.string * String.string)) : env :=
  fun name =>
    match find (fun kv => String.eqb (fst kv) name) vars with
    | Some kv => Some (lit (snd kv))
    | None => None
    end.

Definition start : state nat := State 0%nat [].

(** ** Specification vocabulary for the marketing-platform normalisers *)

(** The first of [vs] that is neither [null] nor [undefined], else [d]. *)
Fixpoint first_non_nullish (vs : list value) (d : value) : value :=
  match vs with
  | [] => d
  | v :: r => if nullish v then first_non_nullish r d else v
  end.

(** Property name, inbound aliases, default. *)
Definition hubspot_fields : list (String.string * list String.string * String.string) :=
  [("firstname", ["firstname"; "firstName"], "");
   ("lastname", ["lastname"; "lastName"], "");
   ("phone", ["phone"], "");
   ("source", ["source"], "");
   ("investor_archetype_ppt_frequency", ["investor_archetype_ppt_frequency"], "");
   ("investor_archetype_ppt_profile", ["investor_archetype_ppt_profile"], "");
   ("investor_archetype_free_ppt_frequency",
    ["investor_archetype_free_ppt_frequency"], "")].

(** An alias of the OperatingFrame profile is read from the payload
    ([false]) or from [raw.contact ?? raw] ([true]). *)
Definition operatingframe_fields
  : list (String.string * list (bool * String.string) * String.string) :=
  [("firstname",
    [(false, "firstname"); (false, "firstName"); (true, "first_name"); (true, "firstname")],
    "");
   ("lastname",
    [(false, "lastname"); (false, "lastName"); (true, "last_name"); (true, "lastname")],
    "");
   ("phone", [(false, "phone"); (true, "phone")], "");
   ("Source", [(false, "source"); (true, "source")], "GHL Survey");
   ("FreeOperatingFrameFrequency",
    [(false, "free_operatingframe_frequency"); (true, "free_operatingframe_frequency");
     (false, "FreeOperatingFrameFrequency"); (true, "FreeOperatingFrameFrequency")],
    "");
   ("FreeOperatingFrameTest",
    [(false, "free_operatingframe_test"); (true, "free_operatingframe_test");
     (false, "FreeOperatingFrameTest"); (true, "FreeOperatingFrameTest")],
    "")].

Definition hubspot_field_ok (raw props : value)
    (f : String.string * list String.string * String.string) : Prop :=
  let '(name, aliases, default) := f in
  get_prop props (lit name)
  = first_non_nullish
      (map (fun a : String.string => get_prop raw (lit a)) aliases) (str default).

Definition operatingframe_field_ok (raw props : value)
    (f : String.string * list (bool * String.string) * String.string) : Prop :=
  let '(name, aliases, default) := f in
  let c := coalesce (get_prop raw (lit "contact")) raw in
  get_prop props (lit name)
  = first_non_nullish
      (map (fun a : bool * String.string =>
              get_prop (if fst a then c else raw) (lit (snd a))) aliases)
      (str default).

(** A marketing platform that holds one contact, with identifier 42: its
    search finds it, its other endpoints answer with it. *)
Definition one_record : call -> nat -> reply * nat :=
  fun c n =>
    (if jstring_eqb (call_url c) (lit "https://api.hubapi.com/crm/v3/objects/contacts/search")
     then Resolved (obj [("total", num 1); ("results", VArr [obj [("id", str "42")]])])
     else Resolved (obj [("id", str "42")]),
     S n).

(** ** Specification vocabulary for the batch upsert *)

Definition properties_of (normalize : value -> completion value) (c : value) : value :=
  match normalize c with
  | Normal p => p
  | Throw _ => VUndef
  end.

(** The one call issued for a group of contacts. *)
Definition batch_call (normalize : value -> completion value) (token : option jstring)
    (group : list value) : call :=
  Part000.hubspot POST token (lit "/crm/v3/objects/contacts/batch/upsert")
    (obj [("inputs",
           VArr (map (fun c => obj [("idProperty", str "email");
                                    ("properties", properties_of normalize c)])
                   group))]).

Section Sequences.

Variable World : Type.
Variable remote : call -> World -> reply * World.

(** The world once [calls] have all been made, one after the other. *)
Fixpoint world_after (calls : list call) (w : World) : World :=
  match calls with
  | [] => w
  | c :: rest => world_after rest (snd (remote c w))
  end.

(** The reply to call [k] of [calls] when the calls before it have been
    made, in order, and no other. *)
Definition reply_at (calls : list call) (w : World) (k : nat) : option reply :=
  match nth_error calls k with
  | Some c => Some (fst (remote c (world_after (firstn k calls) w)))
  | None => None
  end.

(** Calls made in order up to and including the first rejected one. *)
Fixpoint issue_in_order (calls : list call) (w : World) : list reply * World :=
  match calls with
  | [] => ([], w)
  | c :: rest =>
      match remote c w with
      | (Resolved d, w') =>
          let (rs, w'') := issue_in_order rest w' in (Resolved d :: rs, w'')
      | (Rejected r m, w') => ([Rejected r m], w')
      end
  end.

(** The results gathered from a run of replies, or the details of the
    rejection that ended it. *)
Fixpoint collected (results : list value) (rs : list reply) : list value + value :=
  match rs with
  | [] => inl results
  | Resolved d :: rest => collected (results ++ [d]) rest
  | Rejected r m :: _ => inr (error_details r m)
  end.

End Sequences.

(** [n] contacts with distinct addresses. *)
Definition sample_contacts (n : nat) : list value :=
  map (fun i => obj [("email", VStr (lit "user" ++ decimal i ++ lit "@example.org"))])
    (seq 0 n).

(** ** Vocabulary for further properties *)

(** A tag as [ensureArrayTags] cuts it out of a string: not empty, without
    white space around it, without a comma. *)
Definition clean_tag (t : jstring) : Prop :=
  t <> [] /\ trim t = t /\ ~ In comma t.

(** A string with no white space in front. *)
Definition starts_clean (s : jstring) : Prop :=
  match s with
  | [] => True
  | c :: _ => is_ws c = false
  end.

(** [String(v)] returns. *)
Definition printable (v : value) : Prop := exists s, toString v = Normal s.

(** The strings pushed for a run of entries: [String(value).trim()] of
    each entry whose value is truthy and whose key matches, in order. *)
Definition pushed_for (test : jstring -> bool) (es : list (jstring * value))
    (pushed : list jstring) : Prop :=
  Forall2 (fun kv t => exists s, toString (snd kv) = Normal s /\ t = trim s)
    (filter (fun kv => truthy (snd kv) && test (fst kv)) es) pushed.

(** * Properties *)

Example toString_nested :
  toString (VArr [num 12; VNull; VArr [VStr (lit "a"); VBool true]; VNum (lit "-3")])
  = Normal (lit "12,,a,true,-3").
Proof. reflexivity. Qed.

Example toString_large_number : toString (VNum (lit "1e+21")) = Normal (lit "1e+21").
Proof. reflexivity. Qed.

Example toString_object : toString (obj [("a", str "b")]) = Normal (lit "[object Object]").
Proof. reflexivity. Qed.

(** [String({"toString": 1})] throws, on its own and inside an array. *)
Example toString_shadowed :
  toString (obj [("toString", num 1)])
  = Throw (lit "Cannot convert object to primitive value") /\
  toString (VArr [str "a"; obj [("toString", num 1)]])
  = Throw (lit "Cannot convert object to primitive value").
Proof. split; reflexivity. Qed.

Example trim_spaces : trim (lit "  a b  ") = lit "a b".
Proof. reflexivity. Qed.

Example split_commas : split_on comma (lit "a, b ,a") = [lit "a"; lit " b "; lit "a"].
Proof. reflexivity. Qed.

Example decimal_zero : decimal 0 = lit "0".
Proof. reflexivity. Qed.

Example zero_is_falsy : truthy (num 0) = false /\ truthy (VNum (lit "0.5")) = true.
Proof. split; reflexivity. Qed.

Example build_flat :
  Crm.buildContactPayload
    (obj [("email", str "a@b.c"); ("first_name", str "Ann"); ("tags", str "a, b ,a")])
    [] VUndef None
  = Normal (obj [("email", str "a@b.c"); ("firstName", str "Ann");
                 ("tags", VArr [str "a"; str "b"])]).
Proof. reflexivity. Qed.

Example build_nested :
  Crm.buildContactPayload
    (obj [("contact", obj [("email_address", str "a@b.c"); ("phone", num 5)])])
    [lit "From Account A"] (str "loc1") None
  = Normal (obj [("email", str "a@b.c"); ("phone", num 5);
                 ("tags", VArr [str "From Account A"]); ("locationId", str "loc1")]).
Proof. reflexivity. Qed.

(** A value with a [toString] property of its own under a candidate path
    makes the normaliser throw. *)
Example build_throws :
  Crm.buildContactPayload
    (obj [("email", str "a@b.c"); ("tags", obj [("toString", num 1)])])
    [] VUndef None
  = Throw (lit "Cannot convert object to primitive value").
Proof. reflexivity. Qed.

(** ** Strings *)

Lemma jstring_eqb_eq (a b : jstring) : jstring_eqb a b = true <-> a = b.
Proof.
  revert b; induction a as [|x a IH]; intros [|y b]; simpl; split;
    try congruence; try reflexivity.
  - intros H. apply andb_prop in H as [Hx Hab].
    apply N.eqb_eq in Hx. apply IH in Hab. congruence.
  - intros H. injection H as -> ->. rewrite N.eqb_refl. simpl. now apply IH.
Qed.

Lemma jstring_eqb_refl (a : jstring) : jstring_eqb a a = true.
Proof. now apply jstring_eqb_eq. Qed.

Lemma jstring_eqb_neq (a b : jstring) : jstring_eqb a b = false <-> a <> b.
Proof.
  split.
  - intros H E. apply jstring_eqb_eq in E. congruence.
  - intros H. destruct (jstring_eqb a b) eqn:E; [|reflexivity].
    apply jstring_eqb_eq in E. contradiction.
Qed.





(** ** Abrupt completions *)

Lemma bindc_normal {A B} (c : completion A) (k : A -> completion B) (b : B) :
  bindc c k = Normal b -> exists a, c = Normal a /\ k a = Normal b.
Proof. destruct c as [a|m]; simpl; [eauto|discriminate]. Qed.

Lemma bindc_throw {A B} (c : completion A) (k : A -> completion B) (m : jstring) :
  bindc c k = Throw m ->
  c = Throw m \/ exists a, c = Normal a /\ k a = Throw m.
Proof. destruct c as [a|m']; simpl; [eauto|intros [= ->]; now left]. Qed.

(** ** Values that [String()] converts *)

Lemma plain_arr (l : list value) : plain (VArr l) = forallb plain l.
Proof. reflexivity. Qed.

Lemma plain_obj (l : list (jstring * value)) :
  plain (VObj l)
  = negb (has_own (lit "toString") l) && forallb (fun kv => plain (snd kv)) l.
Proof. reflexivity. Qed.

(** The elements of an array are converted from left to right. *)
Lemma toString_cons (x : value) (r : list value) :
  toString (VArr (x :: r))
  = bindc (match x with VUndef | VNull => Normal [] | _ => toString x end) (fun e =>
    match r with
    | [] => Normal e
    | _ :: _ => bindc (toString (VArr r)) (fun rest => Normal (e ++ comma :: rest))
    end).
Proof. reflexivity. Qed.

(** [String()] returns on a value in which no object has a [toString]
    property of its own. *)
Lemma plain_printable (v : value) : plain v = true -> printable v.
Proof.
  unfold printable. induction v as [| |b|r|s|l IH|l IH] using value_tree_ind; intros Hp;
    try (eexists; reflexivity).
  - destruct b; eexists; reflexivity.
  - rewrite plain_arr in Hp. induction l as [|x l IHl]; [now exists []|].
    simpl in Hp. apply andb_prop in Hp as [Hx Hl].
    inversion IH as [|? ? Px Pl]; subst.
    destruct (IHl Pl Hl) as [rest Hrest].
    destruct (Px Hx) as [e He].
    rewrite toString_cons.
    assert (Hh : exists e', match x with VUndef | VNull => Normal [] | _ => toString x end
                            = Normal e')
      by (destruct x; eauto).
    destruct Hh as [e' ->]. cbn [bindc].
    destruct l as [|y l]; [eauto|]. rewrite Hrest. cbn [bindc]. eauto.
  - rewrite plain_obj in Hp. apply andb_prop in Hp as [Hp _].
    apply negb_true_iff in Hp. simpl. rewrite Hp. eauto.
Qed.

Lemma plain_lookup (k : jstring) (l : list (jstring * value)) :
  forallb (fun kv => plain (snd kv)) l = true -> plain (lookup k l) = true.
Proof.
  induction l as [|[k' v] l IH]; simpl; [reflexivity|].
  intros H. apply andb_prop in H as [Hv Hl].
  destruct (jstring_eqb k' k); auto.
Qed.

Lemma plain_index_lookup (k : jstring) (l : list value) (i : nat) (v : value) :
  forallb plain l = true -> index_lookup k i l = Some v -> plain v = true.
Proof.
  revert i. induction l as [|x l IH]; intros i; simpl; [discriminate|].
  intros H. apply andb_prop in H as [Hx Hl].
  destruct (jstring_eqb (decimal i) k); [intros [= <-]; exact Hx|]. now apply IH.
Qed.

Lemma plain_get_prop (o : value) (k : jstring) : plain o = true -> plain (get_prop o k) = true.
Proof.
  destruct o as [| |b|r|s|l|l]; try reflexivity; intros Hp.
  - unfold get_prop. destruct (jstring_eqb k (lit "length")); [reflexivity|].
    destruct (index_lookup k 0 s); reflexivity.
  - rewrite plain_arr in Hp. unfold get_prop.
    destruct (jstring_eqb k (lit "length")); [reflexivity|].
    destruct (index_lookup k 0 l) eqn:E; [|reflexivity].
    eapply plain_index_lookup; eassumption.
  - rewrite plain_obj in Hp. apply andb_prop in Hp as [_ Hp].
    now apply plain_lookup.
Qed.

Lemma plain_path_value (payload : value) (p : jstring) :
  plain payload = true -> plain (Crm.path_value payload p) = true.
Proof.
  unfold Crm.path_value. generalize (split_on dot p). intros ks. revert payload.
  induction ks as [|k ks IH]; intros o Ho; simpl; [exact Ho|].
  apply IH. unfold Crm.path_step. destruct (truthy o); [|reflexivity].
  now apply plain_get_prop.
Qed.

(** ** C1: alias resolution *)


Lemma usable_returns (v : value) : printable v -> exists ok, Crm.usable v = Normal ok.
Proof.
  intros [t Ht]. destruct v; simpl in *; try (eexists; reflexivity);
    rewrite ?Ht; simpl; eexists; reflexivity.
Qed.

Lemma usable_printable (v : value) (ok : bool) : Crm.usable v = Normal ok -> printable v.
Proof.
  unfold printable.
  destruct v; try (intros _; eexists; reflexivity); unfold Crm.usable; intros H;
    apply bindc_normal in H as (t & Ht & _); eauto.
Qed.

Lemma usable_undef : Crm.usable VUndef = Normal false.
Proof. reflexivity. Qed.





(** What [pick] returns is [undefined] or passed its test. *)
Lemma pick_usable (payload : value) (paths : list jstring) (v : value) :
  Crm.pick payload paths = Normal v -> v = VUndef \/ Crm.usable v = Normal true.
Proof.
  induction paths as [|a paths IH]; simpl; [intros [= <-]; now left|].
  intros H. apply bindc_normal in H as (ok & Hok & H).
  destruct ok; [injection H as <-; now right|]. now apply IH.
Qed.

Lemma pick_plain (payload : value) (paths : list jstring) :
  plain payload = true ->
  exists v, Crm.pick payload paths = Normal v /\ plain v = true.
Proof.
  intros Hp. induction paths as [|a paths IH]; simpl; [eauto|].
  destruct (usable_returns (plain_printable _ (plain_path_value payload a Hp)))
    as [ok ->]. simpl.
  destruct ok; [|exact IH]. eexists. split; [reflexivity|]. now apply plain_path_value.
Qed.

(** The shape of the object [buildContactPayload] returns. *)
Lemma build_shape payload defaultTags locationId re c :
  Crm.buildContactPayload payload defaultTags locationId re = Normal c ->
  exists email phone firstName lastName tags,
    Crm.pick payload Crm.email_paths = Normal email /\
    Crm.pick payload Crm.phone_paths = Normal phone /\
    Crm.pick payload Crm.firstName_paths = Normal firstName /\
    Crm.pick payload Crm.lastName_paths = Normal lastName /\
    Crm.discovered_tags payload re = Normal tags /\
    c = contact_of email phone firstName lastName (Crm.final_tags defaultTags tags)
          locationId.
Proof.
  unfold Crm.buildContactPayload. intros H.
  apply bindc_normal in H as (email & He & H).
  apply bindc_normal in H as (phone & Hp & H).
  apply bindc_normal in H as (first & Hf & H).
  apply bindc_normal in H as (last & Hl & H).
  apply bindc_normal in H as (tags & Ht & H).
  injection H as <-. exists email, phone, first, last, tags.
  repeat (split; [assumption|]). reflexivity.
Qed.

Lemma build_of_parts payload defaultTags locationId re email phone firstName lastName tags :
  Crm.pick payload Crm.email_paths = Normal email ->
  Crm.pick payload Crm.phone_paths = Normal phone ->
  Crm.pick payload Crm.firstName_paths = Normal firstName ->
  Crm.pick payload Crm.lastName_paths = Normal lastName ->
  Crm.discovered_tags payload re = Normal tags ->
  Crm.buildContactPayload payload defaultTags locationId re
  = Normal (contact_of email phone firstName lastName (Crm.final_tags defaultTags tags)
              locationId).
Proof.
  intros He Hp Hf Hl Ht. unfold Crm.buildContactPayload.
  rewrite He, Hp, Hf, Hl, Ht. reflexivity.
Qed.


Lemma contact_of_tags email phone firstName lastName tags locationId :
  let c := contact_of email phone firstName lastName tags locationId in
  get_prop c (lit "tags") = match tags with [] => VUndef | _ :: _ => VArr tags end /\
  (In (lit "tags") (own_keys c) <-> tags <> []).
Proof.
  unfold contact_of.
  destruct tags as [|t tags];
    destruct (truthy email), (truthy phone), (truthy firstName), (truthy lastName),
      (truthy locationId); (split; [reflexivity|]); cbn;
    (split; [intros H; try discriminate; intuition discriminate
            | intros H; try (now elim H); intuition auto]).
Qed.




(** The order of the aliases at work: each field of the contact is the
    value of the earliest alias present. *)
Example alias_precedence :
  Crm.buildContactPayload
    (obj [("contact", obj [("email_address", str "e3"); ("email", str "e2");
                           ("phone_number", str "p3"); ("phone", str "p2");
                           ("firstname", str "f5"); ("first_name", str "f4");
                           ("lastname", str "l5"); ("last_name", str "l4")]);
          ("last_name", str "l3"); ("lastname", str "l2");
          ("first_name", str "f3"); ("firstname", str "f2")])
    [] VUndef None
  = Normal (obj [("email", str "e2"); ("phone", str "p2");
                 ("firstName", str "f2"); ("lastName", str "l2")]) /\
  Crm.buildContactPayload
    (obj [("contact", obj [("email_address", str "e3");
                           ("phone_number", str "p3");
                           ("firstname", str "f5"); ("first_name", str "f4");
                           ("lastname", str "l5"); ("last_name", str "l4")]);
          ("last_name", str "l3"); ("first_name", str "f3")])
    [] VUndef None
  = Normal (obj [("email", str "e3"); ("phone", str "p3");
                 ("firstName", str "f3"); ("lastName", str "l3")]) /\
  Crm.buildContactPayload
    (obj [("contact", obj [("firstname", str "f5"); ("first_name", str "f4");
                           ("lastname", str "l5"); ("last_name", str "l4")])])
    [] VUndef None
  = Normal (obj [("firstName", str "f4"); ("lastName", str "l4")]).
Proof. repeat split. Qed.

(** ** SameValueZero, [includes] and [Set] *)

Lemma svz_eq (a b : value) : same_value_zero a b = true -> a = b.
Proof.
  destruct a, b; simpl; try discriminate; try reflexivity; intros H.
  - apply Bool.eqb_prop in H. congruence.
  - apply jstring_eqb_eq in H. congruence.
  - apply jstring_eqb_eq in H. congruence.
Qed.

Lemma svz_refl (a : value) : primitive a = true -> same_value_zero a a = true.
Proof.
  destruct a; simpl; try discriminate; try reflexivity; intros _.
  - apply Bool.eqb_reflx.
  - apply jstring_eqb_refl.
  - apply jstring_eqb_refl.
Qed.

Lemma svz_sym (a b : value) : same_value_zero a b = same_value_zero b a.
Proof.
  destruct (same_value_zero a b) eqn:E.
  - pose proof (svz_eq _ _ E) as <-. now rewrite E.
  - destruct (same_value_zero b a) eqn:E'; [|reflexivity].
    pose proof (svz_eq _ _ E') as <-. congruence.
Qed.

Lemma includes_false (l : list value) (x : value) :
  includes l x = false <-> forall y, In y l -> same_value_zero x y = false.
Proof.
  unfold includes. induction l as [|a l IH]; simpl.
  - split; [intros _ y []|reflexivity].
  - rewrite orb_false_iff, IH. split.
    + intros [Ha Hl] y [<-|Hy]; auto.
    + intros H. split; [apply H; now left|]. intros y Hy. apply H. now right.
Qed.

Lemma includes_prim (l : list value) (x : value) :
  primitive x = true -> (includes l x = true <-> In x l).
Proof.
  intros Hx. unfold includes. rewrite existsb_exists. split.
  - intros (y & Hy & E). apply svz_eq in E. congruence.
  - intros H. exists x. split; [exact H|now apply svz_refl].
Qed.

Lemma includes_app (l1 l2 : list value) (x : value) :
  includes (l1 ++ l2) x = includes l1 x || includes l2 x.
Proof. unfold includes. apply existsb_app. Qed.

Lemma set_from_ext (s1 s2 l : list value) :
  (forall y, In y l -> includes s1 y = includes s2 y) ->
  set_from s1 l = set_from s2 l.
Proof.
  revert s1 s2. induction l as [|x l IH]; intros s1 s2 H; simpl; [reflexivity|].
  rewrite <- (H x) by now left.
  destruct (includes s1 x).
  - apply IH. intros y Hy. apply H. now right.
  - f_equal. apply IH. intros y Hy. unfold includes. simpl.
    f_equal. apply H. now right.
Qed.

Lemma set_from_sub (seen l : list value) (x : value) :
  In x (set_from seen l) -> In x l /\ includes seen x = false.
Proof.
  revert seen. induction l as [|y l IH]; intros seen; simpl; [intros []|].
  destruct (includes seen y) eqn:E.
  - intros H. apply IH in H as [H1 H2]. auto.
  - intros [<-|H]; [auto|].
    apply IH in H as [H1 H2]. split; [auto|].
    unfold includes in H2. simpl in H2. now apply orb_false_iff in H2.
Qed.

Lemma set_from_distinct (seen l : list value) : distinct (set_from seen l).
Proof.
  revert seen. induction l as [|y l IH]; intros seen; simpl; [constructor|].
  destruct (includes seen y); [apply IH|].
  constructor; [|apply IH].
  apply Forall_forall. intros x Hx. apply set_from_sub in Hx as [_ Hx].
  unfold includes in Hx. simpl in Hx. apply orb_false_iff in Hx as [Hx _].
  now rewrite svz_sym.
Qed.

Lemma set_from_keeps (seen l : list value) (x : value) :
  primitive x = true -> In x l -> includes seen x = false -> In x (set_from seen l).
Proof.
  intros Hp. revert seen. induction l as [|y l IH]; intros seen; simpl; [intros []|].
  intros [->|Hin] Hs.
  - rewrite Hs. now left.
  - destruct (includes seen y) eqn:E; [now apply IH|].
    destruct (same_value_zero x y) eqn:Exy.
    + apply svz_eq in Exy. left. congruence.
    + right. apply IH; [exact Hin|]. unfold includes. simpl. now rewrite Exy.
Qed.

Lemma set_spread_keeps (l : list value) (x : value) :
  primitive x = true -> In x l -> In x (set_spread l).
Proof. intros Hp Hin. now apply set_from_keeps. Qed.

Lemma set_from_fixed (seen l : list value) :
  distinct l -> (forall y, In y l -> includes seen y = false) -> set_from seen l = l.
Proof.
  revert seen. induction l as [|x l IH]; intros seen Hd Hs; simpl; [reflexivity|].
  rewrite (Hs x) by now left.
  inversion Hd as [|? ? Hx Hl]; subst. f_equal. apply IH; [exact Hl|].
  intros y Hy. pose proof (Hs y (or_intror Hy)) as E.
  unfold includes in *. simpl. rewrite E.
  rewrite Forall_forall in Hx. rewrite svz_sym, (Hx y Hy). reflexivity.
Qed.

Lemma set_spread_fixed (l : list value) : distinct l -> set_spread l = l.
Proof. intros H. apply set_from_fixed; [exact H|reflexivity]. Qed.

Lemma distinct_filter (f : value -> bool) (l : list value) :
  distinct l -> distinct (filter f l).
Proof.
  induction 1 as [|x l Hx Hl IH]; simpl; [constructor|].
  destruct (f x); [|exact IH].
  constructor; [|exact IH].
  rewrite Forall_forall in *. intros y Hy. apply filter_In in Hy as [Hy _]. auto.
Qed.

Lemma distinct_NoDup (l : list value) : distinct l -> NoDup (filter primitive l).
Proof.
  induction 1 as [|x l Hx Hl IH]; simpl; [constructor|].
  destruct (primitive x) eqn:E; [|exact IH].
  constructor; [|exact IH].
  intros Hin. apply filter_In in Hin as [Hin _].
  rewrite Forall_forall in Hx. specialize (Hx x Hin).
  rewrite svz_refl in Hx by exact E. discriminate.
Qed.

(** ** The default tags *)

Lemma last_occurrences_In (l : list jstring) (d : jstring) :
  In d (last_occurrences l) <-> In d l.
Proof.
  induction l as [|a l IH]; simpl; [tauto|].
  destruct (existsb (jstring_eqb a) l) eqn:E; simpl; rewrite IH; [|tauto].
  split; [tauto|]. intros [<-|H]; [|exact H].
  apply existsb_exists in E as (y & Hy & E). apply jstring_eqb_eq in E. congruence.
Qed.

Lemma last_occurrences_NoDup (l : list jstring) : NoDup (last_occurrences l).
Proof.
  induction l as [|a l IH]; simpl; [constructor|].
  destruct (existsb (jstring_eqb a) l) eqn:E; [exact IH|].
  constructor; [|exact IH]. rewrite last_occurrences_In. intros Hin.
  assert (existsb (jstring_eqb a) l = true); [|congruence].
  apply existsb_exists. exists a. split; [exact Hin|apply jstring_eqb_refl].
Qed.

Lemma last_occurrences_fixed (l : list jstring) : NoDup l -> last_occurrences l = l.
Proof.
  induction 1 as [|a l Ha Hl IH]; simpl; [reflexivity|].
  destruct (existsb (jstring_eqb a) l) eqn:E; [|now rewrite IH].
  apply existsb_exists in E as (y & Hy & E). apply jstring_eqb_eq in E.
  subst y. contradiction.
Qed.

Lemma includes_str (l : list value) (d : jstring) :
  includes l (VStr d) = true <-> In (VStr d) l.
Proof. now apply includes_prim. Qed.

Lemma In_missing_defaults (ds : list jstring) (tags : list value) (d : jstring) :
  In (VStr d) (missing_defaults ds tags) <-> In d ds /\ ~ In (VStr d) tags.
Proof.
  unfold missing_defaults. rewrite in_map_iff. split.
  - intros (x & E & Hx). injection E as ->. apply filter_In in Hx as [Hx Hn].
    rewrite last_occurrences_In in Hx. split; [exact Hx|].
    rewrite <- includes_str. now destruct (includes tags (VStr d)).
  - intros [Hd Hn]. exists d. split; [reflexivity|].
    apply filter_In. split; [now apply last_occurrences_In|].
    destruct (includes tags (VStr d)) eqn:E; [|reflexivity].
    apply includes_str in E. contradiction.
Qed.

Lemma missing_defaults_cons (d : jstring) (ds : list jstring) (tags : list value) :
  missing_defaults (d :: ds) tags
  = if existsb (jstring_eqb d) ds || includes tags (VStr d)
    then missing_defaults ds tags
    else VStr d :: missing_defaults ds tags.
Proof.
  unfold missing_defaults. simpl.
  destruct (existsb (jstring_eqb d) ds); simpl; [reflexivity|].
  destruct (includes tags (VStr d)); reflexivity.
Qed.

(** The loop over [defaultTags] leaves the discovered tags in place and
    puts in front of them, in their own order, the defaults that were
    not among them. *)
Lemma prepend_defaults_eq (ds : list jstring) (tags : list value) :
  Crm.prepend_defaults ds tags = missing_defaults ds tags ++ tags.
Proof.
  induction ds as [|d ds IH]; [reflexivity|].
  change (Crm.prepend_defaults (d :: ds) tags)
    with (if includes (Crm.prepend_defaults ds tags) (VStr d)
          then Crm.prepend_defaults ds tags
          else VStr d :: Crm.prepend_defaults ds tags).
  rewrite IH, includes_app, missing_defaults_cons.
  destruct (includes tags (VStr d)) eqn:Et.
  - now rewrite !orb_true_r.
  - rewrite !orb_false_r.
    destruct (existsb (jstring_eqb d) ds) eqn:Ed.
    + assert (H : In (VStr d) (missing_defaults ds tags)).
      { apply In_missing_defaults. split.
        - apply existsb_exists in Ed as (y & Hy & E).
          apply jstring_eqb_eq in E. congruence.
        - rewrite <- includes_str. congruence. }
      apply includes_str in H. rewrite H. reflexivity.
    + assert (H : includes (missing_defaults ds tags) (VStr d) = false).
      { destruct (includes (missing_defaults ds tags) (VStr d)) eqn:E; [|reflexivity].
        apply includes_str, In_missing_defaults in E as [E _].
        assert (existsb (jstring_eqb d) ds = true); [|congruence].
        apply existsb_exists. exists d. split; [exact E|apply jstring_eqb_refl]. }
      rewrite H. reflexivity.
Qed.

Lemma set_from_strs (ms : list jstring) (seen tags : list value) :
  NoDup ms ->
  (forall m, In m ms -> includes seen (VStr m) = false) ->
  set_from seen (map VStr ms ++ tags)
  = map VStr ms ++ set_from (rev (map VStr ms) ++ seen) tags.
Proof.
  intros Hnd. revert seen. induction Hnd as [|m ms Hm Hms IH]; intros seen Hs;
    [reflexivity|].
  simpl. rewrite (Hs m) by now left. f_equal.
  rewrite IH.
  - now rewrite <- app_assoc.
  - intros m' Hm'. unfold includes. simpl.
    pose proof (Hs m' (or_intror Hm')) as E. unfold includes in E. rewrite E.
    rewrite orb_false_r. apply jstring_eqb_neq. congruence.
Qed.

Lemma set_spread_strs (ms : list jstring) (tags : list value) :
  NoDup ms ->
  (forall m, In m ms -> ~ In (VStr m) tags) ->
  set_spread (map VStr ms ++ tags) = map VStr ms ++ set_spread tags.
Proof.
  intros Hnd Hd. unfold set_spread.
  rewrite set_from_strs by (auto || reflexivity). f_equal.
  apply set_from_ext. intros y Hy. rewrite app_nil_r. simpl.
  apply includes_false. intros x Hx. apply in_rev in Hx.
  apply in_map_iff in Hx as (m & <- & Hm).
  destruct (same_value_zero y (VStr m)) eqn:E; [|reflexivity].
  apply svz_eq in E. subst y. now apply Hd in Hm.
Qed.

(** The final tag list: the defaults that were missing, then the
    discovered tags without repetitions, the falsy entries left out. *)
Lemma final_tags_eq (ds : list jstring) (tags : list value) :
  Crm.final_tags ds tags
  = filter truthy (missing_defaults ds tags ++ set_spread tags).
Proof.
  unfold Crm.final_tags. rewrite prepend_defaults_eq. f_equal.
  unfold missing_defaults. apply set_spread_strs.
  - apply NoDup_filter, last_occurrences_NoDup.
  - intros m Hm. apply filter_In in Hm as [_ Hm].
    rewrite <- includes_str. now destruct (includes tags (VStr m)).
Qed.

Lemma final_tags_as_stated (ds : list jstring) (tags : list value) :
  NoDup ds -> (forall d, In d ds -> ~ In (VStr d) tags) ->
  Crm.final_tags ds tags = tags_as_stated ds tags.
Proof.
  intros Hnd Hd. rewrite final_tags_eq. unfold tags_as_stated.
  rewrite set_spread_strs by assumption. do 2 f_equal.
  unfold missing_defaults. rewrite last_occurrences_fixed by exact Hnd.
  f_equal. apply forallb_filter_id. apply forallb_forall. intros d Hin.
  destruct (includes tags (VStr d)) eqn:E; [|reflexivity].
  apply includes_str in E. now apply Hd in Hin.
Qed.

Lemma contact_tags payload defaultTags locationId re c discovered :
  Crm.buildContactPayload payload defaultTags locationId re = Normal c ->
  Crm.discovered_tags payload re = Normal discovered ->
  get_prop c (lit "tags")
  = match Crm.final_tags defaultTags discovered with
    | [] => VUndef
    | _ :: _ => VArr (Crm.final_tags defaultTags discovered)
    end /\
  (In (lit "tags") (own_keys c) <-> Crm.final_tags defaultTags discovered <> []).
Proof.
  intros H Hd.
  apply build_shape in H as (email & phone & first & last & tags & _ & _ & _ & _ & Hd' & ->).
  rewrite Hd in Hd'. injection Hd' as <-. apply contact_of_tags.
Qed.

(** C2 (as amended).  The final tag list holds the default tags that were
    not among the discovered ones, in the order of [defaultTags], ahead of
    the discovered tags; a default tag that was discovered stays where
    it was discovered.  Repetitions are removed keeping first occurrences
    and falsy entries (the empty string among them) are dropped.  When
    [defaultTags] has no repetition and none of its entries was
    discovered, this is the list the claim states; and without default
    tags and pattern the inbound string "a, b ,a" gives exactly
    ["a","b"]. *)
Theorem C2_final_tag_list payload defaultTags locationId re c discovered :
  Crm.buildContactPayload payload defaultTags locationId re = Normal c ->
  Crm.discovered_tags payload re = Normal discovered ->
  get_prop c (lit "tags")
  = match Crm.final_tags defaultTags discovered with
    | [] => VUndef
    | _ :: _ => VArr (Crm.final_tags defaultTags discovered)
    end /\
  Crm.final_tags defaultTags discovered
  = filter truthy (missing_defaults defaultTags discovered ++ set_spread discovered) /\
  (NoDup defaultTags ->
   (forall d, In d defaultTags -> ~ In (VStr d) discovered) ->
   Crm.final_tags defaultTags discovered = tags_as_stated defaultTags discovered) /\
  (defaultTags = [] -> re = None ->
   Crm.path_value payload (lit "tags") = str "a, b ,a" ->
   get_prop c (lit "tags") = VArr [str "a"; str "b"]).
Proof.
  intros Hb Hd.
  destruct (contact_tags _ _ _ _ Hb Hd) as [Ht _].
  split; [exact Ht|]. split; [apply final_tags_eq|].
  split; [apply final_tags_as_stated|].
  intros -> -> Hp. rewrite Ht.
  unfold Crm.discovered_tags, Crm.tags_paths in Hd. cbn [Crm.pick] in Hd.
  rewrite Hp in Hd. injection Hd as <-. reflexivity.
Qed.

Lemma C2_final_tag_list_witness :
  get_prop (obj [("email", str "a@b.c"); ("tags", VArr [str "a"; str "b"])]) (lit "tags")
  = VArr [str "a"; str "b"].
Proof.
  refine (proj2 (proj2 (proj2
    (@C2_final_tag_list
       (obj [("email", str "a@b.c"); ("tags", str "a, b ,a")]) [] VUndef None
       (obj [("email", str "a@b.c"); ("tags", VArr [str "a"; str "b"])])
       [str "a"; str "b"; str "a"] _ _))) _ _ _); reflexivity.
Defined.

(** C2, as stated, fails: a default tag that the payload already carries
    is not moved to the front. *)
Lemma C2_counterexample :
  let payload := obj [("email", str "a@b.c");
                      ("tags", VArr [str "x"; str "From Account A"])] in
  Crm.discovered_tags payload None = Normal [str "x"; str "From Account A"] /\
  Crm.buildContactPayload payload [lit "From Account A"] VUndef None
  = Normal (obj [("email", str "a@b.c");
                 ("tags", VArr [str "x"; str "From Account A"])]) /\
  tags_as_stated [lit "From Account A"] [str "x"; str "From Account A"]
  = [str "From Account A"; str "x"] /\
  Crm.final_tags [lit "From Account A"] [str "x"; str "From Account A"]
  <> tags_as_stated [lit "From Account A"] [str "x"; str "From Account A"].
Proof.
  cbv zeta. split; [reflexivity|]. split; [reflexivity|]. split; [reflexivity|].
  vm_compute. discriminate.
Qed.

Lemma final_tags_truthy (ds : list jstring) (tags : list value) :
  Forall (fun t => truthy t = true) (Crm.final_tags ds tags).
Proof.
  apply Forall_forall. intros t Ht. now apply filter_In in Ht.
Qed.

Lemma final_tags_distinct (ds : list jstring) (tags : list value) :
  distinct (Crm.final_tags ds tags).
Proof. apply distinct_filter, set_from_distinct. Qed.

(** C10.  When the normalised contact has a [tags] field, its value is
    a non-empty array without falsy entries, so without the empty string,
    and without two entries that are the same value; the field is left
    out exactly when the final list is empty. *)
Theorem C10_tags_field_invariant payload defaultTags locationId re c :
  Crm.buildContactPayload payload defaultTags locationId re = Normal c ->
  exists discovered,
    Crm.discovered_tags payload re = Normal discovered /\
    (In (lit "tags") (own_keys c) <-> Crm.final_tags defaultTags discovered <> []) /\
    (In (lit "tags") (own_keys c) ->
     exists tags,
       get_prop c (lit "tags") = VArr tags /\
       tags = Crm.final_tags defaultTags discovered /\
       tags <> [] /\
       Forall (fun t => truthy t = true) tags /\
       ~ In (VStr []) tags /\
       distinct tags /\
       NoDup (filter primitive tags)).
Proof.
  intros Hb.
  destruct (build_shape _ _ _ _ Hb) as (_ & _ & _ & _ & discovered & _ & _ & _ & _ & Hd & _).
  exists discovered. split; [exact Hd|].
  destruct (contact_tags _ _ _ _ Hb Hd) as [Hget Hkey].
  split; [exact Hkey|]. intros Hin. apply Hkey in Hin.
  exists (Crm.final_tags defaultTags discovered).
  split; [destruct (Crm.final_tags defaultTags discovered); [now elim Hin|exact Hget]|].
  split; [reflexivity|]. split; [exact Hin|].
  pose proof (final_tags_truthy defaultTags discovered) as Ht.
  split; [exact Ht|].
  split; [intros H; rewrite Forall_forall in Ht; now apply Ht in H|].
  split; [apply final_tags_distinct|apply distinct_NoDup, final_tags_distinct].
Qed.

Lemma C10_tags_field_invariant_witness :
  exists discovered,
    Crm.discovered_tags
      (obj [("phone", str "555"); ("tags", VArr [str "b"; str ""; str "b"; num 0])])
      (Some (fun _ => false)) = Normal discovered /\
    (In (lit "tags") (own_keys (obj [("phone", str "555");
                                     ("tags", VArr [str "A"; str "b"])]))
     <-> Crm.final_tags [lit "A"] discovered <> []) /\
    (In (lit "tags") (own_keys (obj [("phone", str "555");
                                     ("tags", VArr [str "A"; str "b"])])) ->
     exists tags,
       get_prop (obj [("phone", str "555"); ("tags", VArr [str "A"; str "b"])])
         (lit "tags") = VArr tags /\
       tags = Crm.final_tags [lit "A"] discovered /\
       tags <> [] /\
       Forall (fun t => truthy t = true) tags /\
       ~ In (VStr []) tags /\
       distinct tags /\
       NoDup (filter primitive tags)).
Proof.
  apply (@C10_tags_field_invariant
           (obj [("phone", str "555"); ("tags", VArr [str "b"; str ""; str "b"; num 0])])
           [lit "A"] VUndef (Some (fun _ => false))).
  reflexivity.
Defined.

(** ** C7: tags taken from matching keys *)

Lemma key_tags_cons test aliased tags kv es :
  Crm.key_tags test aliased tags (kv :: es)
  = bindc (Crm.key_tag_step test aliased tags kv) (fun tags' =>
    Crm.key_tags test aliased tags' es).
Proof. reflexivity. Qed.

Lemma key_tag_step_prefix test aliased tags kv out :
  Crm.key_tag_step test aliased tags kv = Normal out -> exists extra, out = tags ++ extra.
Proof.
  unfold Crm.key_tag_step.
  destruct (negb (truthy _)); [intros [= <-]; exists []; now rewrite app_nil_r|].
  destruct (test (fst kv)); [|intros [= <-]; exists []; now rewrite app_nil_r].
  intros H. apply bindc_normal in H as (s & _ & [= <-]). eauto.
Qed.

Lemma key_tags_prefix test aliased (es : list (jstring * value)) (tags out : list value) :
  Crm.key_tags test aliased tags es = Normal out -> exists extra, out = tags ++ extra.
Proof.
  revert tags. induction es as [|e es IH]; intros tags.
  - intros [= <-]. exists []. now rewrite app_nil_r.
  - rewrite key_tags_cons. intros H. apply bindc_normal in H as (tags' & Hs & H).
    apply key_tag_step_prefix in Hs as (x & ->).
    apply IH in H as (y & ->). rewrite <- app_assoc. eauto.
Qed.

Lemma key_tags_contributes test aliased es tags k v s out :
  In (k, v) es -> test k = true -> truthy v = true ->
  aliased = false \/ k <> lit "tags" ->
  toString v = Normal s ->
  Crm.key_tags test aliased tags es = Normal out ->
  In (VStr (trim s)) out.
Proof.
  intros Hin Ht Hv Hal Hs. revert tags.
  induction es as [|e es IH]; intros tags; [destruct Hin|].
  rewrite key_tags_cons. intros H. apply bindc_normal in H as (tags' & Hstep & H).
  destruct Hin as [->|Hin].
  - apply key_tags_prefix in H as (extra & ->). apply in_or_app. left.
    unfold Crm.key_tag_step in Hstep. simpl fst in Hstep. simpl snd in Hstep.
    assert (Ha : aliased && jstring_eqb k (lit "tags") = false).
    { destruct Hal as [->|Hk]; [reflexivity|].
      apply jstring_eqb_neq in Hk. rewrite Hk. apply andb_false_r. }
    rewrite Ha, Hv, Ht, Hs in Hstep. simpl in Hstep. injection Hstep as <-.
    apply in_or_app. right. now left.
  - eapply IH; eassumption.
Qed.

(** The loop returns on entries that [String()] converts. *)
Lemma key_tags_plain test aliased es tags :
  forallb (fun kv => plain (snd kv)) es = true -> forallb plain tags = true ->
  exists out, Crm.key_tags test aliased tags es = Normal out /\ forallb plain out = true.
Proof.
  revert tags. induction es as [|e es IH]; intros tags He Ht; [simpl; eauto|].
  simpl in He. apply andb_prop in He as [He Hes].
  rewrite key_tags_cons.
  assert (Hstep : exists tags', Crm.key_tag_step test aliased tags e = Normal tags'
                                /\ forallb plain tags' = true).
  { unfold Crm.key_tag_step.
    set (v := if aliased && jstring_eqb (fst e) (lit "tags") then VArr tags else snd e).
    assert (Hv : plain v = true).
    { subst v. destruct (aliased && _); [rewrite plain_arr; exact Ht|exact He]. }
    destruct (negb (truthy v)); [eauto|].
    destruct (test (fst e)); [|eauto].
    destruct (@plain_printable v Hv) as [s ->]. simpl. eexists. split; [reflexivity|].
    rewrite forallb_app, Ht. reflexivity. }
  destruct Hstep as (tags' & -> & Ht'). simpl. now apply IH.
Qed.

Lemma ensureArrayTags_plain (v : value) :
  plain v = true -> forallb plain (Crm.ensureArrayTags v) = true.
Proof.
  destruct v; try reflexivity; simpl Crm.ensureArrayTags.
  - intros _. apply forallb_forall. intros x Hx.
    apply in_map_iff in Hx as (t & <- & _). reflexivity.
  - now rewrite plain_arr.
Qed.

Lemma entries_plain (payload : value) es :
  plain payload = true -> entries payload = Normal es ->
  forallb (fun kv => plain (snd kv)) es = true.
Proof.
  assert (G : forall A (f : A -> value) (l : list A) i,
             (forall x, plain (f x) = true) ->
             forallb (fun kv => plain (snd kv)) (indexed f i l) = true).
  { intros A f l. induction l as [|x l IH]; intros i Hf; simpl; [reflexivity|].
    rewrite Hf. simpl. now apply IH. }
  destruct payload as [| |b|r|s|l|l]; intros Hp He; simpl in He; try discriminate;
    injection He as <-; try reflexivity.
  - apply G. reflexivity.
  - rewrite plain_arr in Hp. clear -Hp. generalize 0%nat.
    induction l as [|x l IH]; intros i; simpl; [reflexivity|].
    simpl in Hp. apply andb_prop in Hp as [Hx Hl]. rewrite Hx. simpl. now apply IH.
  - rewrite plain_obj in Hp. now apply andb_prop in Hp as [_ Hp].
Qed.

Lemma discovered_tags_plain (payload : value) re :
  plain payload = true -> (re <> None -> nullish payload = false) ->
  exists tags, Crm.discovered_tags payload re = Normal tags.
Proof.
  intros Hp Hn. unfold Crm.discovered_tags.
  destruct (@pick_plain payload Crm.tags_paths Hp) as (v & -> & Hv). simpl.
  destruct re as [test|]; [|eauto].
  assert (He : exists es, entries payload = Normal es).
  { specialize (Hn ltac:(discriminate)).
    destruct payload; try discriminate; simpl; eauto. }
  destruct He as [es He]. rewrite He. simpl.
  destruct (@key_tags_plain test (Crm.tags_aliased payload) es (Crm.ensureArrayTags v))
    as (out & -> & _); eauto using entries_plain, ensureArrayTags_plain.
Qed.

(** The normaliser returns on every payload in which no object has a
    [toString] property of its own (and which, when a pattern is given,
    is neither [null] nor [undefined]). *)
Lemma build_returns payload defaultTags locationId re :
  plain payload = true -> (re <> None -> nullish payload = false) ->
  exists c, Crm.buildContactPayload payload defaultTags locationId re = Normal c.
Proof.
  intros Hp Hn.
  destruct (@pick_plain payload Crm.email_paths Hp) as (email & He & _).
  destruct (@pick_plain payload Crm.phone_paths Hp) as (phone & Hph & _).
  destruct (@pick_plain payload Crm.firstName_paths Hp) as (first & Hf & _).
  destruct (@pick_plain payload Crm.lastName_paths Hp) as (last & Hl & _).
  destruct (@discovered_tags_plain payload re Hp Hn) as (tags & Ht).
  eexists. eapply build_of_parts; eassumption.
Qed.

Lemma final_tags_keeps (ds : list jstring) (tags : list value) (x : value) :
  primitive x = true -> truthy x = true -> In x tags -> In x (Crm.final_tags ds tags).
Proof.
  intros Hp Ht Hin. unfold Crm.final_tags. apply filter_In. split; [|exact Ht].
  apply set_spread_keeps; [exact Hp|].
  rewrite prepend_defaults_eq. apply in_or_app. now right.
Qed.

(** C7 (as amended).  With a pattern, every key of the payload that the
    pattern matches and whose value is truthy and converted by [String()]
    has [String(value).trim()] among the discovered tags, and that tag is
    in the normalised result whenever it is not the empty string; the
    normaliser returns on every payload in which no object has a
    [toString] property of its own.  The key [tags] itself is left out of
    the statement when its array is the list being extended. *)
Theorem C7_pattern_keys_become_tags payload defaultTags locationId test es k v s :
  entries payload = Normal es ->
  In (k, v) es -> test k = true -> truthy v = true ->
  Crm.tags_aliased payload = false \/ k <> lit "tags" ->
  toString v = Normal s ->
  (forall discovered,
      Crm.discovered_tags payload (Some test) = Normal discovered ->
      In (VStr (trim s)) discovered) /\
  (forall c,
      Crm.buildContactPayload payload defaultTags locationId (Some test) = Normal c ->
      trim s <> [] ->
      exists tags, get_prop c (lit "tags") = VArr tags /\ In (VStr (trim s)) tags) /\
  (plain payload = true ->
   exists discovered c,
     Crm.discovered_tags payload (Some test) = Normal discovered /\
     Crm.buildContactPayload payload defaultTags locationId (Some test) = Normal c).
Proof.
  intros He Hin Ht Hv Hal Hs.
  assert (Hdisc : forall discovered,
             Crm.discovered_tags payload (Some test) = Normal discovered ->
             In (VStr (trim s)) discovered).
  { intros discovered Hd. unfold Crm.discovered_tags in Hd.
    apply bindc_normal in Hd as (picked & _ & Hd). rewrite He in Hd. simpl in Hd.
    eapply key_tags_contributes; eassumption. }
  split; [exact Hdisc|]. split.
  - intros c Hb Hne.
    destruct (build_shape _ _ _ _ Hb) as (_ & _ & _ & _ & discovered & _ & _ & _ & _ & Hd & _).
    assert (Hf : In (VStr (trim s)) (Crm.final_tags defaultTags discovered)).
    { apply final_tags_keeps; [reflexivity| |now apply Hdisc].
      simpl. destruct (trim s); [now elim Hne|reflexivity]. }
    destruct (contact_tags _ _ _ _ Hb Hd) as [Hget _].
    exists (Crm.final_tags defaultTags discovered). split; [|exact Hf].
    destruct (Crm.final_tags defaultTags discovered); [destruct Hf|exact Hget].
  - intros Hp.
    assert (Hn : Some test <> None -> nullish payload = false).
    { intros _. destruct payload; try reflexivity; discriminate. }
    destruct (@discovered_tags_plain payload (Some test) Hp Hn) as (discovered & Hd).
    destruct (@build_returns payload defaultTags locationId (Some test) Hp Hn) as (c & Hb).
    eauto.
Qed.

Lemma C7_pattern_keys_become_tags_witness :
  (forall discovered,
      Crm.discovered_tags
        (obj [("email", str "a@b.c"); ("Competency_Coach_level", str " Gold ")])
        (Some competency_coach) = Normal discovered ->
      In (VStr (trim (lit " Gold "))) discovered) /\
  (forall c,
      Crm.buildContactPayload
        (obj [("email", str "a@b.c"); ("Competency_Coach_level", str " Gold ")])
        [lit "From Account A"] VUndef (Some competency_coach) = Normal c ->
      trim (lit " Gold ") <> [] ->
      exists tags, get_prop c (lit "tags") = VArr tags /\ In (VStr (trim (lit " Gold "))) tags) /\
  (plain (obj [("email", str "a@b.c"); ("Competency_Coach_level", str " Gold ")]) = true ->
   exists discovered c,
     Crm.discovered_tags
       (obj [("email", str "a@b.c"); ("Competency_Coach_level", str " Gold ")])
       (Some competency_coach) = Normal discovered /\
     Crm.buildContactPayload
       (obj [("email", str "a@b.c"); ("Competency_Coach_level", str " Gold ")])
       [lit "From Account A"] VUndef (Some competency_coach) = Normal c).
Proof.
  apply (@C7_pattern_keys_become_tags
           (obj [("email", str "a@b.c"); ("Competency_Coach_level", str " Gold ")])
           [lit "From Account A"] VUndef competency_coach
           [(lit "email", str "a@b.c"); (lit "Competency_Coach_level", str " Gold ")]
           (lit "Competency_Coach_level") (str " Gold ") (lit " Gold ")).
  - reflexivity.
  - right. left. reflexivity.
  - reflexivity.
  - reflexivity.
  - left. reflexivity.
  - reflexivity.
Defined.

(** C7, as stated, fails: a matching key whose value is truthy but white
    space only contributes the empty string, which is dropped, so the
    trimmed value is no tag of the result. *)
Lemma C7_counterexample :
  let payload := obj [("email", str "a@b.c"); ("competency_coach_notes", str "  ")] in
  competency_coach (lit "competency_coach_notes") = true /\
  truthy (str "  ") = true /\
  toString (str "  ") = Normal (lit "  ") /\
  trim (lit "  ") = [] /\
  Crm.buildContactPayload payload [] VUndef (Some competency_coach)
  = Normal (obj [("email", str "a@b.c")]) /\
  ~ (exists c tags,
        Crm.buildContactPayload payload [] VUndef (Some competency_coach) = Normal c /\
        get_prop c (lit "tags") = VArr tags /\
        In (VStr (trim (lit "  "))) tags).
Proof.
  cbv zeta. repeat (split; [reflexivity|]).
  intros (c & tags & Hb & Hg & _).
  vm_compute in Hb. injection Hb as <-. vm_compute in Hg. discriminate.
Qed.

(** A matching key whose value [String()] does not convert makes the
    normaliser throw: no contact is built. *)
Example matching_key_throws :
  Crm.buildContactPayload
    (obj [("email", str "a@b.c"); ("competency_coach_level", obj [("toString", num 1)])])
    [lit "From Account A"] VUndef (Some competency_coach)
  = Throw (lit "Cannot convert object to primitive value").
Proof. reflexivity. Qed.

(** A number is pushed in the form [String()] gives it. *)
Example matching_key_number :
  Crm.buildContactPayload
    (obj [("email", str "a@b.c"); ("competency_coach_score", VNum (lit "1e+21"))])
    [] VUndef (Some competency_coach)
  = Normal (obj [("email", str "a@b.c"); ("tags", VArr [str "1e+21"])]).
Proof. reflexivity. Qed.

(** The array of [payload.tags] is the list being extended: when the
    pattern also matches the key [tags], the value read for that key
    already holds the tags pushed before it. *)
Example key_tags_reads_extended_array :
  Crm.buildContactPayload
    (obj [("source", str "web"); ("phone", str "555"); ("tags", VArr [str "t"; str "u"])])
    [] VUndef (Some (contains (lit "s")))
  = Normal (obj [("phone", str "555");
                 ("tags", VArr [str "t"; str "u"; str "web"; str "t,u,web"])]).
Proof. reflexivity. Qed.

(** ** C6: normalising a normalised contact *)

Lemma defaults_in_final (ds : list jstring) (tags : list value) (d : jstring) :
  In d ds -> d <> [] -> In (VStr d) (Crm.final_tags ds tags).
Proof.
  intros Hd Hne. unfold Crm.final_tags. apply filter_In. split.
  - apply set_spread_keeps; [reflexivity|].
    rewrite prepend_defaults_eq. apply in_or_app.
    destruct (includes tags (VStr d)) eqn:E.
    + right. now apply includes_str.
    + left. apply In_missing_defaults. split; [exact Hd|].
      rewrite <- includes_str. congruence.
  - simpl. destruct d; [now elim Hne|reflexivity].
Qed.

Lemma prepend_on_final (ds : list jstring) (T : list value) :
  distinct T -> Forall (fun t => truthy t = true) T ->
  (forall d, In d ds -> d <> [] -> In (VStr d) T) ->
  distinct (Crm.prepend_defaults ds T) /\
  filter truthy (Crm.prepend_defaults ds T) = T.
Proof.
  intros Hdist Htr. induction ds as [|a ds IH]; intros Hin.
  - split; [exact Hdist|]. simpl. apply forallb_filter_id.
    apply forallb_forall. now apply Forall_forall.
  - destruct IH as [IHd IHf]; [intros d Hd; apply Hin; now right|].
    change (Crm.prepend_defaults (a :: ds) T)
      with (if includes (Crm.prepend_defaults ds T) (VStr a)
            then Crm.prepend_defaults ds T
            else VStr a :: Crm.prepend_defaults ds T).
    destruct (includes (Crm.prepend_defaults ds T) (VStr a)) eqn:E; [now split|].
    split.
    + constructor; [|exact IHd]. apply Forall_forall.
      now apply includes_false.
    + destruct a as [|x a]; [exact IHf|].
      assert (H : In (VStr (x :: a)) T) by (apply Hin; [now left|discriminate]).
      rewrite <- IHf in H. apply filter_In in H as [H _].
      apply includes_str in H. congruence.
Qed.

(** Applied to its own result, the tag pipeline changes nothing. *)
Lemma final_tags_idem (ds : list jstring) (tags : list value) :
  Crm.final_tags ds (Crm.final_tags ds tags) = Crm.final_tags ds tags.
Proof.
  destruct (@prepend_on_final ds (Crm.final_tags ds tags)) as [Hd Hf].
  - apply final_tags_distinct.
  - apply final_tags_truthy.
  - intros d. apply defaults_in_final.
  - unfold Crm.final_tags at 1. rewrite set_spread_fixed by exact Hd. exact Hf.
Qed.

Lemma key_tags_no_match test aliased (es : list (jstring * value)) (tags : list value) :
  (forall kv, In kv es -> test (fst kv) = false) ->
  Crm.key_tags test aliased tags es = Normal tags.
Proof.
  revert tags. induction es as [|e es IH]; intros tags H; [reflexivity|].
  rewrite key_tags_cons.
  assert (E : Crm.key_tag_step test aliased tags e = Normal tags).
  { unfold Crm.key_tag_step. rewrite (H e) by now left.
    now destruct (negb (truthy _)). }
  rewrite E. simpl. apply IH. intros kv Hkv. apply H. now right.
Qed.

Lemma field_emitted (k : String.string) (v : value) :
  Crm.field k (emitted v) (truthy (emitted v)) = Crm.field k v (truthy v).
Proof. unfold emitted. destruct (truthy v) eqn:E; [now rewrite E|reflexivity]. Qed.

Lemma contact_keys_sub email phone first last tags loc kv :
  match contact_of email phone first last tags loc with
  | VObj fs => In kv fs
  | _ => False
  end -> In (fst kv) contact_keys.
Proof.
  unfold contact_of, Crm.field.
  destruct (truthy email), (truthy phone), (truthy first), (truthy last),
    (negb (Nat.eqb (List.length tags) 0)), (truthy loc); simpl;
    intros H; repeat (destruct H as [<-|H]; [simpl; tauto|]); destruct H.
Qed.

(** What [pick] finds in an object holding some of the six contact
    fields and nothing else. *)
Lemma pick_fields (be bp bf bl bt bloc : bool) (e p f l loc : value) (T : list value) :
  let c := VObj (Crm.field "email" e be ++ Crm.field "phone" p bp
                 ++ Crm.field "firstName" f bf ++ Crm.field "lastName" l bl
                 ++ Crm.field "tags" (VArr T) bt
                 ++ Crm.field "locationId" loc bloc) in
  (be = true -> Crm.usable e = Normal true) ->
  (bp = true -> Crm.usable p = Normal true) ->
  (bf = true -> Crm.usable f = Normal true) ->
  (bl = true -> Crm.usable l = Normal true) ->
  (bt = true -> Crm.usable (VArr T) = Normal true) ->
  Crm.pick c Crm.email_paths = Normal (if be then e else VUndef) /\
  Crm.pick c Crm.phone_paths = Normal (if bp then p else VUndef) /\
  Crm.pick c Crm.firstName_paths = Normal (if bf then f else VUndef) /\
  Crm.pick c Crm.lastName_paths = Normal (if bl then l else VUndef) /\
  Crm.pick c Crm.tags_paths = Normal (if bt then VArr T else VUndef) /\
  Crm.tags_aliased c = bt.
Proof.
  intros c He Hp Hf Hl Ht. subst c.
  destruct be, bp, bf, bl, bt, bloc;
    try specialize (He eq_refl); try specialize (Hp eq_refl);
    try specialize (Hf eq_refl); try specialize (Hl eq_refl);
    try specialize (Ht eq_refl);
    cbv -[Crm.usable]; repeat split;
    repeat (first [rewrite usable_undef | rewrite He | rewrite Hp | rewrite Hf
                  | rewrite Hl | rewrite Ht]; cbv iota beta);
    reflexivity.
Qed.

Lemma truthy_usable (v : value) :
  v = VUndef \/ Crm.usable v = Normal true -> truthy v = true -> Crm.usable v = Normal true.
Proof. intros [->|H]; [discriminate|auto]. Qed.

Lemma renormalise_contact e p f l D loc defaultTags re :
  let T := Crm.final_tags defaultTags D in
  (e = VUndef \/ Crm.usable e = Normal true) -> (p = VUndef \/ Crm.usable p = Normal true) ->
  (f = VUndef \/ Crm.usable f = Normal true) -> (l = VUndef \/ Crm.usable l = Normal true) ->
  (forall test, re = Some test -> forall k, In k contact_keys -> test k = false) ->
  (T = [] \/ Crm.usable (VArr T) = Normal true) ->
  Crm.buildContactPayload (contact_of e p f l T loc) defaultTags loc re
  = Normal (contact_of e p f l T loc).
Proof.
  intros T He Hp Hf Hl Hre HT.
  assert (Hbt : negb (Nat.eqb (List.length T) 0) = true -> Crm.usable (VArr T) = Normal true).
  { destruct HT as [->|HT]; [discriminate|auto]. }
  pose proof (@pick_fields (truthy e) (truthy p) (truthy f) (truthy l)
                (negb (Nat.eqb (List.length T) 0)) (truthy loc) e p f l loc T
                (truthy_usable He) (truthy_usable Hp) (truthy_usable Hf)
                (truthy_usable Hl) Hbt) as H.
  fold (contact_of e p f l T loc) in H.
  destruct H as (E1 & E2 & E3 & E4 & E5 & E6).
  assert (Ht : Crm.ensureArrayTags (if negb (Nat.eqb (List.length T) 0)
                                    then VArr T else VUndef) = T)
    by now destruct T.
  assert (Hd : Crm.discovered_tags (contact_of e p f l T loc) re = Normal T).
  { unfold Crm.discovered_tags. rewrite E5. cbn [bindc]. rewrite Ht.
    destruct re as [test|]; [|reflexivity].
    unfold contact_of at 1. cbn [entries bindc].
    apply key_tags_no_match. intros kv Hkv.
    apply (Hre test eq_refl).
    apply (@contact_keys_sub e p f l T loc). exact Hkv. }
  rewrite (@build_of_parts _ defaultTags loc re _ _ _ _ _ E1 E2 E3 E4 Hd).
  unfold T at 1. rewrite final_tags_idem. fold T.
  fold (emitted e) (emitted p) (emitted f) (emitted l).
  unfold contact_of. rewrite !field_emitted. reflexivity.
Qed.

(** C6 (as amended).  Normalising a normalised contact again, with the
    same default tags, location and pattern, gives the same contact,
    provided the pattern (if there is one) matches none of the contact's
    field names and the contact's tag list, if it has one, passes
    [pick]'s test, that is, is not a single entry whose string form is
    white space only. *)
Theorem C6_renormalise_fixed payload defaultTags locationId re c :
  Crm.buildContactPayload payload defaultTags locationId re = Normal c ->
  (forall test, re = Some test -> forall k, In k contact_keys -> test k = false) ->
  get_prop c (lit "tags") = VUndef \/ Crm.usable (get_prop c (lit "tags")) = Normal true ->
  Crm.buildContactPayload c defaultTags locationId re = Normal c.
Proof.
  intros H Hre HT.
  apply build_shape in H as (email & phone & first & last & D & He & Hp & Hf & Hl & _ & ->).
  apply renormalise_contact; try (eapply pick_usable; eassumption); [exact Hre|].
  rewrite (proj1 (contact_of_tags email phone first last
                    (Crm.final_tags defaultTags D) locationId)) in HT.
  destruct (Crm.final_tags defaultTags D) eqn:E; [now left|right].
  destruct HT as [HT|HT]; [discriminate|exact HT].
Qed.

Lemma C6_renormalise_fixed_witness :
  Crm.buildContactPayload
    (obj [("email", str "a@b.c"); ("firstName", str "Ann");
          ("tags", VArr [str "From Account A"; str "vip"; str "gold"]);
          ("locationId", str "loc-1")])
    [lit "From Account A"] (str "loc-1") (Some competency_coach)
  = Normal
      (obj [("email", str "a@b.c"); ("firstName", str "Ann");
            ("tags", VArr [str "From Account A"; str "vip"; str "gold"]);
            ("locationId", str "loc-1")]).
Proof.
  apply (@C6_renormalise_fixed
           (obj [("contact", obj [("email", str "a@b.c"); ("first_name", str "Ann")]);
                 ("tags", str "vip, gold,vip"); ("Competency_Coach", num 0)])
           [lit "From Account A"] (str "loc-1") (Some competency_coach)).
  - reflexivity.
  - intros test E k Hk. injection E as <-.
    repeat (destruct Hk as [<-|Hk]; [reflexivity|]). destruct Hk.
  - right. reflexivity.
Defined.

(** C6, as stated, fails: the tag list [" "] of a first pass does not
    pass [pick]'s test in the second. *)
Lemma C6_counterexample :
  let payload := obj [("email", str "a@b.c"); ("tags", VArr [str " "; str ""])] in
  Crm.buildContactPayload payload [] VUndef None
  = Normal (obj [("email", str "a@b.c"); ("tags", VArr [str " "])]) /\
  Crm.buildContactPayload
    (obj [("email", str "a@b.c"); ("tags", VArr [str " "])]) [] VUndef None
  = Normal (obj [("email", str "a@b.c")]) /\
  ~ (forall c,
        Crm.buildContactPayload payload [] VUndef None = Normal c ->
        Crm.buildContactPayload c [] VUndef None = Normal c).
Proof.
  cbv zeta. split; [reflexivity|]. split; [reflexivity|].
  intros H. specialize (H _ eq_refl). vm_compute in H. discriminate.
Qed.

(** ** C9: the shared secret *)

Lemma handle_gated (World : Type) (remote : call -> World -> reply * World)
    (r : Server.route) (e : env) (req : request) (s : state World) :
  Server.handle remote r e req s
  = match Server.assertSharedSecret e req with
    | Throw m => (Escaped m, s)
    | Normal false => (Server.unauthorized, s)
    | Normal true => Server.accepted remote r e req s
    end.
Proof.
  destruct r; simpl;
    unfold Server.webhook, Server.webhook2, Server.webhook3, Server.new_ghl_account,
      Server.crm_route, Server.ghl_to_hubspot, Server.gated;
    destruct (Server.assertSharedSecret e req) as [[|]|m]; reflexivity.
Qed.

Lemma assertSharedSecret_configured (e : env) (req : request) (secret : jstring) :
  e "SHARED_SECRET" = Some secret -> secret <> [] ->
  Server.assertSharedSecret e req
  = if truthy (Server.incoming_secret req)
    then bindc (toString (Server.incoming_secret req)) (fun given =>
         Normal (jstring_eqb given secret))
    else Normal false.
Proof.
  intros He Hne. unfold Server.assertSharedSecret, getenv. rewrite He.
  destruct secret; [now elim Hne|]. reflexivity.
Qed.

(** C9 (as amended).  On the five [POST] routes of the gated revision:
    without a configured secret every request goes on, whatever secret it
    carries.  With one, the secret of the request is the first non-empty
    of header, query parameter and body field; the request goes on when
    that value, converted to a string, equals the configured secret; it
    is answered 401 with the state untouched (no outbound call, nothing
    depending on the payload) when the value is empty or converts to
    another string; and when [String()] throws on it, the exception
    leaves the handler, again with the state untouched. *)
Theorem C9_shared_secret_gate (World : Type) (remote : call -> World -> reply * World)
    (r : Server.route) (e : env) (req : request) (s : state World) :
  (e "SHARED_SECRET" = None \/ e "SHARED_SECRET" = Some [] ->
   Server.handle remote r e req s = Server.accepted remote r e req s) /\
  (forall secret,
      e "SHARED_SECRET" = Some secret -> secret <> [] ->
      (truthy (Server.incoming_secret req) = true ->
       toString (Server.incoming_secret req) = Normal secret ->
       Server.handle remote r e req s = Server.accepted remote r e req s) /\
      (truthy (Server.incoming_secret req) = false \/
       (exists given, toString (Server.incoming_secret req) = Normal given /\
                      given <> secret) ->
       Server.handle remote r e req s = (Server.unauthorized, s) /\
       status_of Server.unauthorized = Some 401%Z) /\
      (forall m,
          truthy (Server.incoming_secret req) = true ->
          toString (Server.incoming_secret req) = Throw m ->
          Server.handle remote r e req s = (Escaped m, s))) /\
  Server.incoming_secret req
  = (if truthy (header_shared_secret req) then header_shared_secret req
     else if truthy (query_secret req) then query_secret req
     else if truthy (req_body req) then get_prop (req_body req) (lit "secret")
     else req_body req).
Proof.
  split; [|split].
  - intros Hc. rewrite handle_gated. unfold Server.assertSharedSecret, getenv.
    destruct Hc as [-> | ->]; reflexivity.
  - intros secret He Hne. rewrite handle_gated.
    rewrite (@assertSharedSecret_configured e req secret He Hne).
    split; [|split].
    + intros Hi Hs. rewrite Hi, Hs. simpl. now rewrite jstring_eqb_refl.
    + intros Hno. split; [|reflexivity].
      destruct Hno as [Hi|(given & Hs & Hd)]; [now rewrite Hi|].
      destruct (truthy (Server.incoming_secret req)); [|reflexivity].
      rewrite Hs. simpl. apply jstring_eqb_neq in Hd. now rewrite Hd.
    + intros m Hi Hs. rewrite Hi, Hs. reflexivity.
  - unfold Server.incoming_secret, or_else, and_then.
    destruct (truthy (header_shared_secret req)) eqn:Hh; [now rewrite Hh|].
    cbv iota. destruct (truthy (query_secret req)); reflexivity.
Qed.

Lemma C9_shared_secret_gate_witness :
  Server.handle accepting Server.Webhook
    (env_with [("SHARED_SECRET", "s3cret"); ("ACCOUNT_A_API", "key-a")])
    (Request VUndef VUndef (obj [("secret", str "s3cret"); ("email", str "a@b.c")]))
    start
  = Server.accepted accepting Server.Webhook
      (env_with [("SHARED_SECRET", "s3cret"); ("ACCOUNT_A_API", "key-a")])
      (Request VUndef VUndef (obj [("secret", str "s3cret"); ("email", str "a@b.c")]))
      start /\
  (Server.handle accepting Server.Webhook
     (env_with [("SHARED_SECRET", "s3cret"); ("ACCOUNT_A_API", "key-a")])
     (Request VUndef VUndef (obj [("secret", VNum (lit "1e+21")); ("email", str "a@b.c")]))
     start
   = (Server.unauthorized, start) /\
   status_of Server.unauthorized = Some 401%Z) /\
  Server.handle accepting Server.Webhook
    (env_with [("SHARED_SECRET", "s3cret"); ("ACCOUNT_A_API", "key-a")])
    (Request VUndef VUndef
       (obj [("secret", obj [("toString", num 1)]); ("email", str "a@b.c")]))
    start
  = (Escaped (lit "Cannot convert object to primitive value"), start).
Proof.
  split; [|split].
  - apply (proj1 (proj1 (proj2 (@C9_shared_secret_gate nat accepting Server.Webhook
             (env_with [("SHARED_SECRET", "s3cret"); ("ACCOUNT_A_API", "key-a")])
             (Request VUndef VUndef
                (obj [("secret", str "s3cret"); ("email", str "a@b.c")]))
             start)) (lit "s3cret") eq_refl ltac:(discriminate))); reflexivity.
  - apply (proj1 (proj2 (proj1 (proj2 (@C9_shared_secret_gate nat accepting Server.Webhook
             (env_with [("SHARED_SECRET", "s3cret"); ("ACCOUNT_A_API", "key-a")])
             (Request VUndef VUndef
                (obj [("secret", VNum (lit "1e+21")); ("email", str "a@b.c")]))
             start)) (lit "s3cret") eq_refl ltac:(discriminate)))).
    right. exists (lit "1e+21"). split; [reflexivity|discriminate].
  - apply (proj2 (proj2 (proj1 (proj2 (@C9_shared_secret_gate nat accepting Server.Webhook
             (env_with [("SHARED_SECRET", "s3cret"); ("ACCOUNT_A_API", "key-a")])
             (Request VUndef VUndef
                (obj [("secret", obj [("toString", num 1)]); ("email", str "a@b.c")]))
             start)) (lit "s3cret") eq_refl ltac:(discriminate)))); reflexivity.
Defined.

(** The three outcomes of the gate on [/webhook] with a secret
    configured: accepted, turned away, and thrown out of. *)
Example gate_outcomes :
  let e := env_with [("SHARED_SECRET", "s3cret"); ("ACCOUNT_A_API", "key-a")] in
  status_of (fst (Server.webhook accepting e
                    (Request VUndef VUndef
                       (obj [("secret", str "s3cret"); ("email", str "a@b.c")]))
                    start)) = Some 200%Z /\
  Server.webhook accepting e
    (Request VUndef VUndef (obj [("secret", num 7); ("email", str "a@b.c")])) start
  = (Server.unauthorized, start) /\
  Server.webhook accepting e
    (Request VUndef VUndef
       (obj [("secret", obj [("toString", num 1)]); ("email", str "a@b.c")])) start
  = (Escaped (lit "Cannot convert object to primitive value"), start).
Proof. cbv zeta. repeat split. Qed.

(** C9, as stated, fails: a request whose query parameter equals the
    configured secret is answered 401 when its header carries another
    non-empty value. *)
Lemma C9_counterexample :
  let e := env_with [("SHARED_SECRET", "s3cret"); ("ACCOUNT_A_API", "key-a")] in
  let req := Request (str "other") (str "s3cret") (obj [("email", str "a@b.c")]) in
  query_secret req = getenv e "SHARED_SECRET" /\
  Server.handle accepting Server.Webhook e req start = (Server.unauthorized, start) /\
  Server.handle accepting Server.Webhook e req start
  <> Server.accepted accepting Server.Webhook e req start.
Proof.
  cbv zeta. split; [reflexivity|]. split; [reflexivity|].
  vm_compute. discriminate.
Qed.

(** ** C3: requests without identity *)






















(** The same request on the routes that build a contact is answered 400
    without a call. *)
Example missing_identity_everywhere :
  forall h,
    run accepting h (env_with [("ACCOUNT_A_API", "key-a")])
      (Request VUndef VUndef (obj [("firstName", str "Ann")])) start
    = (missing_identity h, start).
Proof. intros []; reflexivity. Qed.

(** ** C8: the marketing-platform normalisers *)

Ltac split_nullish :=
  repeat (cbv iota;
          match goal with
          | H : nullish ?x = _ |- context [nullish ?x] => rewrite H
          | |- context [nullish ?x] => is_var x; destruct (nullish x) eqn:?
          end);
  vm_compute; reflexivity.

Ltac name_props r :=
  repeat match goal with
         | |- context [get_prop r ?k] =>
             let v := fresh "v" in
             generalize (get_prop r k); intros v
         end.

Lemma defaulted_raw (r : value) :
  nullish r = false -> match r with VUndef => VObj [] | _ => r end = r.
Proof. destruct r; try reflexivity; discriminate. Qed.

Lemma member_defined (o : value) (k : jstring) :
  nullish o = false -> member o k = Normal (get_prop o k).
Proof. destruct o; try reflexivity; discriminate. Qed.

Lemma member_normal (o : value) (k : jstring) (v : value) :
  member o k = Normal v -> nullish o = false /\ v = get_prop o k.
Proof. destruct o; simpl; try discriminate; intros [= <-]; split; reflexivity. Qed.

Lemma normalizeHubSpotContact_fields (raw : value) :
  raw <> VNull ->
  exists props,
    Part000.normalizeHubSpotContact raw = Normal props /\
    own_keys props = lit "email" :: map (fun f => lit (fst (fst f))) hubspot_fields /\
    get_prop props (lit "email") = get_prop raw (lit "email") /\
    Forall (hubspot_field_ok raw props) hubspot_fields.
Proof.
  intros Hn.
  assert (H : forall r, nullish r = false ->
              (forall k, get_prop r k = get_prop raw k) ->
              exists props,
                Part000.normalizeHubSpotContact r = Normal props /\
                own_keys props
                = lit "email" :: map (fun f => lit (fst (fst f))) hubspot_fields /\
                get_prop props (lit "email") = get_prop raw (lit "email") /\
                Forall (hubspot_field_ok raw props) hubspot_fields).
  { intros r Hr Hk. unfold Part000.normalizeHubSpotContact.
    rewrite (defaulted_raw _ Hr), (member_defined _ _ Hr). cbn [bindc].
    eexists. split; [reflexivity|]. split; [reflexivity|].
    split; [apply Hk|].
    unfold hubspot_fields. repeat apply Forall_cons; try apply Forall_nil;
      unfold hubspot_field_ok; cbn [map first_non_nullish];
      rewrite <- !Hk; name_props r;
      cbv -[coalesce nullish]; unfold coalesce; split_nullish. }
  destruct raw; try (apply H; [reflexivity|reflexivity]).
  - destruct (H (VObj [])) as (props & Hp & Hrest); [reflexivity|reflexivity|].
    exists props. split; [exact Hp|exact Hrest].
  - now elim Hn.
Qed.

Lemma normalizeOperatingFrame_fields (raw : value) :
  raw <> VNull ->
  exists props,
    Part000.normalizeHubSpotContactOperatingFrame raw = Normal props /\
    own_keys props = lit "email" :: map (fun f => lit (fst (fst f))) operatingframe_fields /\
    get_prop props (lit "email")
    = coalesce (get_prop raw (lit "email"))
        (get_prop (coalesce (get_prop raw (lit "contact")) raw) (lit "email")) /\
    Forall (operatingframe_field_ok raw props) operatingframe_fields.
Proof.
  intros Hn.
  assert (H : forall r, nullish r = false ->
              (forall k, get_prop r k = get_prop raw k) ->
              (forall k, get_prop (coalesce (get_prop r (lit "contact")) r) k
                         = get_prop (coalesce (get_prop raw (lit "contact")) raw) k) ->
              exists props,
                Part000.normalizeHubSpotContactOperatingFrame r = Normal props /\
                own_keys props
                = lit "email" :: map (fun f => lit (fst (fst f))) operatingframe_fields /\
                get_prop props (lit "email")
                = coalesce (get_prop raw (lit "email"))
                    (get_prop (coalesce (get_prop raw (lit "contact")) raw) (lit "email")) /\
                Forall (operatingframe_field_ok raw props) operatingframe_fields).
  { intros r Hr Hk Hc. unfold Part000.normalizeHubSpotContactOperatingFrame.
    rewrite (defaulted_raw _ Hr), (member_defined _ _ Hr). cbn [bindc].
    eexists. split; [reflexivity|]. split; [reflexivity|].
    split.
    - rewrite <- Hc, <- Hk. reflexivity.
    - unfold operatingframe_fields. repeat apply Forall_cons; try apply Forall_nil;
        unfold operatingframe_field_ok;
        cbn [map first_non_nullish fst snd];
        rewrite <- !Hc, <- ?Hk;
        generalize (coalesce (get_prop r (lit "contact")) r); intros c;
        name_props r; name_props c;
        cbv -[coalesce nullish]; unfold coalesce; split_nullish. }
  destruct raw; try (apply H; [reflexivity|reflexivity|reflexivity]).
  - destruct (H (VObj [])) as (props & Hp & Hrest);
      [reflexivity|reflexivity|reflexivity|].
    exists props. split; [exact Hp|exact Hrest].
  - now elim Hn.
Qed.

Lemma first_non_nullish_default (vs : list value) (d : value) :
  (forall v, In v vs -> nullish v = true) -> first_non_nullish vs d = d.
Proof.
  induction vs as [|v vs IH]; intros H; simpl; [reflexivity|].
  rewrite (H v) by now left. apply IH. intros x Hx. apply H. now right.
Qed.

(** C8 (as amended).  Both marketing-platform normalisers return an
    object with a fixed list of property names, whatever the input.
    Every property other than [email] holds the first of its aliases that
    is neither [null] nor [undefined], and a default when there is none:
    the empty string, except for [Source] of the OperatingFrame profile,
    whose default is "GHL Survey". *)
Theorem C8_marketing_property_set (raw : value) :
  raw <> VNull ->
  (exists props,
      Part000.normalizeHubSpotContact raw = Normal props /\
      own_keys props = lit "email" :: map (fun f => lit (fst (fst f))) hubspot_fields /\
      Forall (hubspot_field_ok raw props) hubspot_fields /\
      (forall name aliases d,
          In (name, aliases, d) hubspot_fields ->
          (forall a, In a aliases -> nullish (get_prop raw (lit a)) = true) ->
          get_prop props (lit name) = str "")) /\
  (exists props,
      Part000.normalizeHubSpotContactOperatingFrame raw = Normal props /\
      own_keys props
      = lit "email" :: map (fun f => lit (fst (fst f))) operatingframe_fields /\
      Forall (operatingframe_field_ok raw props) operatingframe_fields /\
      (forall name aliases d,
          In (name, aliases, d) operatingframe_fields ->
          (forall a, In a aliases ->
                     nullish (get_prop (if fst a
                                        then coalesce (get_prop raw (lit "contact")) raw
                                        else raw) (lit (snd a))) = true) ->
          get_prop props (lit name)
          = str (if String.eqb name "Source" then "GHL Survey" else ""))).
Proof.
  intros Hn. split.
  - destruct (@normalizeHubSpotContact_fields raw Hn) as (props & Hp & Hk & _ & Hf).
    exists props. repeat (split; [assumption|]).
    intros name aliases d Hin Hnull.
    rewrite Forall_forall in Hf. specialize (Hf _ Hin). simpl in Hf. rewrite Hf.
    rewrite first_non_nullish_default.
    + simpl in Hin.
      repeat (destruct Hin as [E|Hin]; [injection E as <- <- <-; reflexivity|]).
      destruct Hin.
    + intros v Hv. apply in_map_iff in Hv as (a & <- & Ha). now apply Hnull.
  - destruct (@normalizeOperatingFrame_fields raw Hn) as (props & Hp & Hk & _ & Hf).
    exists props. repeat (split; [assumption|]).
    intros name aliases d Hin Hnull.
    rewrite Forall_forall in Hf. specialize (Hf _ Hin). simpl in Hf. rewrite Hf.
    rewrite first_non_nullish_default.
    + simpl in Hin.
      repeat (destruct Hin as [E|Hin]; [injection E as <- <- <-; reflexivity|]).
      destruct Hin.
    + intros v Hv. apply in_map_iff in Hv as (a & <- & Ha). now apply Hnull.
Qed.

Lemma C8_marketing_property_set_witness :
  exists props,
    Part000.normalizeHubSpotContact
      (obj [("email", str "a@b.c"); ("firstName", str "Ann"); ("phone", VNull)])
    = Normal props /\
    get_prop props (lit "firstname") = str "Ann" /\
    get_prop props (lit "phone") = str "" /\
    get_prop props (lit "source") = str "".
Proof.
  destruct (@C8_marketing_property_set
              (obj [("email", str "a@b.c"); ("firstName", str "Ann"); ("phone", VNull)]))
    as [(props & Hp & _ & Hf & Hd) _]; [discriminate|].
  exists props. split; [exact Hp|]. split; [|split].
  - rewrite Forall_forall in Hf.
    apply (Hf ("firstname", ["firstname"; "firstName"], "")). simpl. tauto.
  - apply (Hd "phone" ["phone"] ""); [simpl; tauto|].
    intros a [<-|[]]. reflexivity.
  - apply (Hd "source" ["source"] ""); [simpl; tauto|].
    intros a [<-|[]]. reflexivity.
Defined.

(** C8, as stated, fails: the OperatingFrame normaliser fills an absent
    source with "GHL Survey", not with the empty string. *)
Lemma C8_counterexample :
  let raw := obj [("email", str "a@b.c")] in
  nullish (get_prop raw (lit "source")) = true /\
  nullish (get_prop raw (lit "contact")) = true /\
  Part000.normalizeHubSpotContactOperatingFrame raw
  = Normal (obj [("email", str "a@b.c"); ("firstname", str ""); ("lastname", str "");
                 ("phone", str ""); ("Source", str "GHL Survey");
                 ("FreeOperatingFrameFrequency", str "");
                 ("FreeOperatingFrameTest", str "")]) /\
  ~ (forall props,
        Part000.normalizeHubSpotContactOperatingFrame raw = Normal props ->
        get_prop props (lit "Source") = str "").
Proof.
  cbv zeta. repeat (split; [reflexivity|]).
  intros H. specialize (H _ eq_refl). vm_compute in H. discriminate.
Qed.

(** ** C4: the single-contact upsert *)

Section SingleUpsert.

Variable World : Type.
Variable remote : call -> World -> reply * World.

Lemma upsert_one_found token properties (s : state World) data w1 :
  let search := Part000.hubspot POST token (lit "/crm/v3/objects/contacts/search")
                  (Part000.search_body properties) in
  let existing := or_else (opt_member (opt_member data (lit "results")) (lit "0")) VNull in
  let id := get_prop existing (lit "id") in
  remote search (world s) = (Resolved data, w1) ->
  truthy existing = true ->
  (forall path_id,
      toString id = Normal path_id ->
      let update := Part000.hubspot PATCH token (lit "/crm/v3/objects/contacts/" ++ path_id)
                      (obj [("properties", properties)]) in
      issued (snd (Part000.upsert_one remote token properties s))
      = issued s ++ [search; update] /\
      world (snd (Part000.upsert_one remote token properties s)) = snd (remote update w1) /\
      forall d w2,
        remote update w1 = (Resolved d, w2) ->
        Part000.upsert_one remote token properties s
        = (json 200 [("status", str "updated"); ("id", id); ("data", d)],
           State w2 (issued s ++ [search; update]))) /\
  (forall m,
      toString id = Throw m ->
      Part000.upsert_one remote token properties s
      = (Part000.server_error (VStr m), State w1 (issued s ++ [search]))).
Proof.
  intros search existing id Hs He.
  unfold Part000.upsert_one, bind, axios. fold search. rewrite Hs.
  fold existing. rewrite He. fold id. split.
  - intros path_id Hid. cbv zeta. rewrite Hid. cbv iota beta.
    set (update := Part000.hubspot PATCH token (lit "/crm/v3/objects/contacts/" ++ path_id)
                     (obj [("properties", properties)])).
    simpl world. simpl issued.
    destruct (remote update w1) as [u w2] eqn:Hu.
    rewrite <- app_assoc. simpl app.
    split; [destruct u; reflexivity|]. split; [destruct u; reflexivity|].
    intros d w2' E. injection E as -> ->. reflexivity.
  - intros m Hid. rewrite Hid. reflexivity.
Qed.

Lemma upsert_one_not_found token properties (s : state World) data w1 :
  let search := Part000.hubspot POST token (lit "/crm/v3/objects/contacts/search")
                  (Part000.search_body properties) in
  let existing := or_else (opt_member (opt_member data (lit "results")) (lit "0")) VNull in
  let create := Part000.hubspot POST token (lit "/crm/v3/objects/contacts")
                  (obj [("properties", properties)]) in
  remote search (world s) = (Resolved data, w1) ->
  truthy existing = false ->
  issued (snd (Part000.upsert_one remote token properties s))
  = issued s ++ [search; create] /\
  world (snd (Part000.upsert_one remote token properties s)) = snd (remote create w1) /\
  forall d w2,
    remote create w1 = (Resolved d, w2) -> nullish d = false ->
    Part000.upsert_one remote token properties s
    = (json 200 [("status", str "created"); ("id", get_prop d (lit "id")); ("data", d)],
       State w2 (issued s ++ [search; create])).
Proof.
  intros search existing create Hs He.
  unfold Part000.upsert_one, bind, axios. fold search. rewrite Hs.
  fold existing. rewrite He. fold create. simpl world. simpl issued.
  destruct (remote create w1) as [u w2] eqn:Hu.
  rewrite <- app_assoc. simpl app.
  split; [|split].
  - destruct u as [d|]; [|reflexivity]. now destruct (member d (lit "id")).
  - destruct u as [d|]; [|reflexivity]. now destruct (member d (lit "id")).
  - intros d w2' E Hd. injection E as -> ->. rewrite (member_defined _ _ Hd). reflexivity.
Qed.

Lemma upsert_one_searches_first token properties (s : state World) :
  exists rest,
    issued (snd (Part000.upsert_one remote token properties s))
    = issued s
      ++ Part000.hubspot POST token (lit "/crm/v3/objects/contacts/search")
           (Part000.search_body properties) :: rest.
Proof.
  unfold Part000.upsert_one, bind, axios.
  destruct (remote _ (world s)) as [[data|r m] w1]; [|now exists []].
  destruct (truthy _).
  - destruct (toString _) as [path_id|m]; [|now exists []].
    cbv beta iota. simpl world; simpl issued.
    destruct (remote _ w1) as [[d|r m] w2]; rewrite <- app_assoc;
      eexists; reflexivity.
  - simpl world; simpl issued.
    destruct (remote _ w1) as [[d|r m] w2]; rewrite <- app_assoc;
      [destruct (member d (lit "id"))|]; eexists; reflexivity.
Qed.

End SingleUpsert.

Lemma search_body_keys (raw : value) (properties : value) :
  Part000.normalizeHubSpotContact raw = Normal properties ->
  Part000.search_body properties
  = obj [("filterGroups",
          VArr [obj [("filters",
                      VArr [obj [("propertyName", str "email");
                                 ("operator", str "EQ");
                                 ("value", get_prop properties (lit "email"))]])]]);
         ("properties", VArr (map VStr (own_keys properties)));
         ("limit", num 1)].
Proof.
  unfold Part000.normalizeHubSpotContact. intros H.
  apply bindc_normal in H as (email & _ & [= <-]). reflexivity.
Qed.

(** C4.  For a contact whose e-mail address resolves, the single-contact
    route first issues a search, a [POST] to
    [/crm/v3/objects/contacts/search] of the marketing platform, whose only
    filter is [email EQ] that address and which asks for exactly the
    property names of the contact and for one result.  When the search
    finds a record, the second and last call is a [PATCH] to
    [/crm/v3/objects/contacts/] followed by that record's identifier,
    with the contact's properties, and once it succeeds the response is
    200 with status "updated" and that identifier; when the identifier
    cannot be converted to a string, no second call is made and the
    answer is 500.  Otherwise the second and last call is the create, a
    [POST] to [/crm/v3/objects/contacts] with the same properties, and
    once it succeeds the response is 200 with status "created" and the
    identifier the platform returned. *)
Theorem C4_single_upsert (World : Type) (remote : call -> World -> reply * World)
    (e : env) (req : request) (s : state World) (properties : value) :
  Part000.normalizeHubSpotContact (or_else (req_body req) (VObj [])) = Normal properties ->
  truthy (get_prop properties (lit "email")) = true ->
  let auth := lit "Bearer " ++ match e "HUBSPOT_ACCESS_TOKEN" with
                               | Some token => token
                               | None => lit "undefined"
                               end in
  let search :=
    Call POST (lit "https://api.hubapi.com/crm/v3/objects/contacts/search") auth
      (obj [("filterGroups",
             VArr [obj [("filters",
                         VArr [obj [("propertyName", str "email");
                                    ("operator", str "EQ");
                                    ("value", get_prop properties (lit "email"))]])]]);
            ("properties", VArr (map VStr (own_keys properties)));
            ("limit", num 1)]) in
  let run := Part000.ghl_to_hubspot remote e req s in
  (exists rest, issued (snd run) = issued s ++ search :: rest) /\
  (forall data w1,
      remote search (world s) = (Resolved data, w1) ->
      let existing :=
        or_else (opt_member (opt_member data (lit "results")) (lit "0")) VNull in
      let id := get_prop existing (lit "id") in
      let create :=
        Call POST (lit "https://api.hubapi.com/crm/v3/objects/contacts") auth
          (obj [("properties", properties)]) in
      (truthy existing = true ->
       (forall path_id,
           toString id = Normal path_id ->
           let update :=
             Call PATCH (lit "https://api.hubapi.com/crm/v3/objects/contacts/" ++ path_id)
               auth (obj [("properties", properties)]) in
           issued (snd run) = issued s ++ [search; update] /\
           forall d w2,
             remote update w1 = (Resolved d, w2) ->
             run = (json 200 [("status", str "updated"); ("id", id); ("data", d)],
                    State w2 (issued s ++ [search; update]))) /\
       (forall m,
           toString id = Throw m ->
           run = (json 500 [("status", str "error"); ("error", VStr m)],
                  State w1 (issued s ++ [search])))) /\
      (truthy existing = false ->
       issued (snd run) = issued s ++ [search; create] /\
       forall d w2,
         remote create w1 = (Resolved d, w2) -> nullish d = false ->
         run = (json 200 [("status", str "created"); ("id", get_prop d (lit "id"));
                          ("data", d)],
                State w2 (issued s ++ [search; create])))).
Proof.
  intros Hn He auth search run.
  assert (Hrun : run = Part000.upsert_one remote (e "HUBSPOT_ACCESS_TOKEN") properties s).
  { unfold run, Part000.ghl_to_hubspot. rewrite Hn, He. reflexivity. }
  assert (Hsearch : search
                    = Part000.hubspot POST (e "HUBSPOT_ACCESS_TOKEN")
                        (lit "/crm/v3/objects/contacts/search")
                        (Part000.search_body properties)).
  { rewrite (search_body_keys _ Hn). reflexivity. }
  split; [rewrite Hrun, Hsearch; apply upsert_one_searches_first|].
  intros data w1 Hs existing id create. rewrite Hrun. rewrite Hsearch in Hs |- *.
  split; intros Hex.
  - destruct (@upsert_one_found World remote (e "HUBSPOT_ACCESS_TOKEN") properties s
                data w1 Hs Hex) as (Hok & Hthrow).
    split.
    + intros path_id Hid update. destruct (Hok path_id Hid) as (Hi & _ & Hr).
      split; [exact Hi|exact Hr].
    + intros m Hid. exact (Hthrow m Hid).
  - destruct (@upsert_one_not_found World remote (e "HUBSPOT_ACCESS_TOKEN") properties s
                data w1 Hs Hex) as (Hi & _ & Hr).
    split; [exact Hi|exact Hr].
Qed.

(** A platform that holds the contact: the search is followed by the
    partial update of record 42, and the answer is "updated". *)
Lemma C4_single_upsert_witness :
  Part000.ghl_to_hubspot one_record (env_with [("HUBSPOT_ACCESS_TOKEN", "pat-1")])
    (Request VUndef VUndef (obj [("email", str "a@b.c"); ("firstName", str "Ann")])) start
  = (json 200 [("status", str "updated"); ("id", str "42");
               ("data", obj [("id", str "42")])],
     State 2%nat
       (issued start
        ++ [Call POST (lit "https://api.hubapi.com/crm/v3/objects/contacts/search")
              (lit "Bearer pat-1")
              (obj [("filterGroups",
                     VArr [obj [("filters",
                                 VArr [obj [("propertyName", str "email");
                                            ("operator", str "EQ");
                                            ("value", str "a@b.c")]])]]);
                    ("properties",
                     VArr [str "email"; str "firstname"; str "lastname"; str "phone";
                           str "source"; str "investor_archetype_ppt_frequency";
                           str "investor_archetype_ppt_profile";
                           str "investor_archetype_free_ppt_frequency"]);
                    ("limit", num 1)]);
            Call PATCH (lit "https://api.hubapi.com/crm/v3/objects/contacts/42")
              (lit "Bearer pat-1")
              (obj [("properties",
                     obj [("email", str "a@b.c"); ("firstname", str "Ann");
                          ("lastname", str ""); ("phone", str ""); ("source", str "");
                          ("investor_archetype_ppt_frequency", str "");
                          ("investor_archetype_ppt_profile", str "");
                          ("investor_archetype_free_ppt_frequency", str "")])])])).
Proof.
  refine (proj2 (proj1 (proj1 (proj2
    (@C4_single_upsert nat one_record
       (env_with [("HUBSPOT_ACCESS_TOKEN", "pat-1")])
       (Request VUndef VUndef (obj [("email", str "a@b.c"); ("firstName", str "Ann")]))
       start
       (obj [("email", str "a@b.c"); ("firstname", str "Ann"); ("lastname", str "");
             ("phone", str ""); ("source", str "");
             ("investor_archetype_ppt_frequency", str "");
             ("investor_archetype_ppt_profile", str "");
             ("investor_archetype_free_ppt_frequency", str "")])
       eq_refl eq_refl)
    (obj [("total", num 1); ("results", VArr [obj [("id", str "42")]])]) 1%nat eq_refl)
    eq_refl) (lit "42") eq_refl) (obj [("id", str "42")]) 2%nat eq_refl).
Defined.

Example upsert_updates_existing :
  Part000.ghl_to_hubspot one_record (env_with [("HUBSPOT_ACCESS_TOKEN", "pat-1")])
    (Request VUndef VUndef (obj [("email", str "a@b.c")])) start
  = (json 200 [("status", str "updated"); ("id", str "42");
               ("data", obj [("id", str "42")])],
     State 2%nat
       [Part000.hubspot POST (Some (lit "pat-1")) (lit "/crm/v3/objects/contacts/search")
          (Part000.search_body
             (obj [("email", str "a@b.c"); ("firstname", str ""); ("lastname", str "");
                   ("phone", str ""); ("source", str "");
                   ("investor_archetype_ppt_frequency", str "");
                   ("investor_archetype_ppt_profile", str "");
                   ("investor_archetype_free_ppt_frequency", str "")]));
        Part000.hubspot PATCH (Some (lit "pat-1")) (lit "/crm/v3/objects/contacts/42")
          (obj [("properties",
                 obj [("email", str "a@b.c"); ("firstname", str ""); ("lastname", str "");
                      ("phone", str ""); ("source", str "");
                      ("investor_archetype_ppt_frequency", str "");
                      ("investor_archetype_ppt_profile", str "");
                      ("investor_archetype_free_ppt_frequency", str "")])])]).
Proof. reflexivity. Qed.

(** A platform without the contact: the search is followed by the
    create, with the same properties. *)
Example upsert_creates_missing :
  Part000.ghl_to_hubspot accepting (env_with [("HUBSPOT_ACCESS_TOKEN", "pat-1")])
    (Request VUndef VUndef (obj [("email", str "a@b.c")])) start
  = (json 200 [("status", str "created"); ("id", num 1); ("data", obj [("id", num 1)])],
     State 2%nat
       [Call POST (lit "https://api.hubapi.com/crm/v3/objects/contacts/search")
          (lit "Bearer pat-1")
          (Part000.search_body
             (obj [("email", str "a@b.c"); ("firstname", str ""); ("lastname", str "");
                   ("phone", str ""); ("source", str "");
                   ("investor_archetype_ppt_frequency", str "");
                   ("investor_archetype_ppt_profile", str "");
                   ("investor_archetype_free_ppt_frequency", str "")]));
        Call POST (lit "https://api.hubapi.com/crm/v3/objects/contacts")
          (lit "Bearer pat-1")
          (obj [("properties",
                 obj [("email", str "a@b.c"); ("firstname", str ""); ("lastname", str "");
                      ("phone", str ""); ("source", str "");
                      ("investor_archetype_ppt_frequency", str "");
                      ("investor_archetype_ppt_profile", str "");
                      ("investor_archetype_free_ppt_frequency", str "")])])]).
Proof. reflexivity. Qed.

(** A record whose identifier [String()] does not convert: the template
    literal of the update path throws inside the [try], after the search
    and before any second call. *)
Example upsert_unprintable_id :
  Part000.ghl_to_hubspot
    (fun _ n => (Resolved (obj [("results", VArr [obj [("id", obj [("toString", num 1)])]])]),
                 S n))
    (env_with [("HUBSPOT_ACCESS_TOKEN", "pat-1")])
    (Request VUndef VUndef (obj [("email", str "a@b.c")])) start
  = (json 500 [("status", str "error");
               ("error", str "Cannot convert object to primitive value")],
     State 1%nat
       [Part000.hubspot POST (Some (lit "pat-1")) (lit "/crm/v3/objects/contacts/search")
          (Part000.search_body
             (obj [("email", str "a@b.c"); ("firstname", str ""); ("lastname", str "");
                   ("phone", str ""); ("source", str "");
                   ("investor_archetype_ppt_frequency", str "");
                   ("investor_archetype_ppt_profile", str "");
                   ("investor_archetype_free_ppt_frequency", str "")]))]).
Proof. reflexivity. Qed.

(** ** C5: the batch upsert *)

Lemma ceil_div_step_multiple (s n : nat) :
  (0 < s)%nat -> n mod s = 0%nat ->
  (S n + s - 1) / s = S ((n + s - 1) / s) /\ ((n + s - 1) / s) * s = n.
Proof.
  intros Hs Hm.
  pose proof (Nat.div_mod_eq n s) as E. rewrite Hm in E.
  assert (E1 : (n + s - 1) / s = n / s).
  { symmetry. apply (Nat.div_unique _ _ _ (s - 1)); nia. }
  assert (E2 : (S n + s - 1) / s = S (n / s)).
  { symmetry. apply (Nat.div_unique _ _ _ 0); nia. }
  rewrite E1, E2. split; [reflexivity|nia].
Qed.

Lemma ceil_div_step_other (s n : nat) :
  (0 < s)%nat -> n mod s <> 0%nat -> (S n + s - 1) / s = (n + s - 1) / s.
Proof.
  intros Hs Hm.
  pose proof (Nat.div_mod_eq n s) as E.
  pose proof (Nat.mod_upper_bound n s ltac:(lia)) as B.
  assert (E1 : (n + s - 1) / s = S (n / s)).
  { symmetry. apply (Nat.div_unique _ _ _ (n mod s - 1)); nia. }
  assert (E2 : (S n + s - 1) / s = S (n / s)).
  { symmetry. apply (Nat.div_unique _ _ _ (n mod s)); nia. }
  congruence.
Qed.

(** The indices at which [chunk] starts a group. *)
Lemma multiples_below (s n : nat) :
  (0 < s)%nat ->
  filter (fun i => Nat.eqb (i mod s) 0) (seq 0 n)
  = map (fun j => j * s)%nat (seq 0 ((n + s - 1) / s)).
Proof.
  intros Hs. induction n as [|n IH].
  - replace ((0 + s - 1) / s)%nat with 0%nat; [reflexivity|].
    symmetry. apply Nat.div_small. lia.
  - rewrite seq_S, filter_app, IH. simpl filter.
    destruct (Nat.eqb (n mod s) 0) eqn:E.
    + apply Nat.eqb_eq in E.
      destruct (@ceil_div_step_multiple s n Hs E) as [E1 E2].
      rewrite E1, seq_S, map_app. simpl. now rewrite E2.
    + apply Nat.eqb_neq in E.
      rewrite (@ceil_div_step_other s n Hs E), app_nil_r. reflexivity.
Qed.

Lemma fold_left_collect {A B} (P : A -> bool) (f : A -> B) (l : list A) (acc : list B) :
  fold_left (fun a i => if P i then a ++ [f i] else a) l acc
  = acc ++ map f (filter P l).
Proof.
  revert acc. induction l as [|x l IH]; intros acc; simpl.
  - now rewrite app_nil_r.
  - rewrite IH. destruct (P x); [|reflexivity].
    simpl. now rewrite <- app_assoc.
Qed.

(** Group [j] of [chunk arr size] is [arr.slice(j * size, j * size + size)]. *)
Lemma chunk_groups {A} (arr : list A) (size : nat) :
  (0 < size)%nat ->
  Part000.chunk arr size
  = map (fun j => firstn size (skipn (j * size) arr))
      (seq 0 ((List.length arr + size - 1) / size)).
Proof.
  intros Hs. unfold Part000.chunk.
  rewrite (fold_left_collect (fun i => Nat.eqb (i mod size) 0)
             (fun i => Part000.slice i (i + size) arr)).
  simpl. rewrite multiples_below by exact Hs. rewrite map_map.
  apply map_ext. intros j. unfold Part000.slice. f_equal. lia.
Qed.

Lemma firstn_then_more {A} (a b : nat) (l : list A) :
  firstn a l ++ firstn b (skipn a l) = firstn (a + b) l.
Proof.
  revert l. induction a as [|a IH]; intros l; [reflexivity|].
  destruct l as [|x l]; simpl; [now rewrite firstn_nil|].
  now rewrite IH.
Qed.

Lemma concat_groups {A} (arr : list A) (size k : nat) :
  concat (map (fun j => firstn size (skipn (j * size) arr)) (seq 0 k))
  = firstn (k * size) arr.
Proof.
  induction k as [|k IH]; [reflexivity|].
  rewrite seq_S, map_app, concat_app, IH. simpl.
  rewrite app_nil_r, firstn_then_more. f_equal. lia.
Qed.

Lemma ceil_div_bounds (s n : nat) :
  (0 < s)%nat ->
  (n <= ((n + s - 1) / s) * s)%nat /\ (((n + s - 1) / s) * s < n + s)%nat.
Proof.
  intros Hs.
  pose proof (Nat.div_mod_eq (n + s - 1) s) as E.
  pose proof (Nat.mod_upper_bound (n + s - 1) s ltac:(lia)) as B.
  nia.
Qed.

Lemma chunk_concat {A} (arr : list A) (size : nat) :
  (0 < size)%nat -> concat (Part000.chunk arr size) = arr.
Proof.
  intros Hs. rewrite chunk_groups, concat_groups by exact Hs.
  apply firstn_all2. now apply ceil_div_bounds.
Qed.

Lemma chunk_nth {A} (arr : list A) (size j : nat) (g : list A) :
  (0 < size)%nat ->
  nth_error (Part000.chunk arr size) j = Some g ->
  g = firstn size (skipn (j * size) arr) /\
  (j * size < List.length arr)%nat /\
  List.length g = Nat.min size (List.length arr - j * size).
Proof.
  intros Hs. rewrite chunk_groups by exact Hs. intros H.
  assert (Hj : (j < (List.length arr + size - 1) / size)%nat).
  { assert (Hb : nth_error
                   (map (fun j => firstn size (skipn (j * size) arr))
                      (seq 0 ((List.length arr + size - 1) / size))) j <> None)
      by (rewrite H; discriminate).
    apply nth_error_Some in Hb. now rewrite length_map, length_seq in Hb. }
  rewrite nth_error_map, nth_error_seq in H.
  destruct (Nat.ltb_spec j ((List.length arr + size - 1) / size)) in H; [|lia].
  simpl in H. injection H as <-.
  split; [reflexivity|].
  destruct (ceil_div_bounds (List.length arr) Hs) as [_ Hb].
  split; [nia|]. now rewrite length_firstn, length_skipn.
Qed.

Lemma batch_inputs_total (group : list value) :
  Forall (fun c => c <> VNull) group ->
  Part000.batch_inputs Part000.normalizeHubSpotContact group
  = Normal (map (fun c => obj [("idProperty", str "email");
                               ("properties",
                                properties_of Part000.normalizeHubSpotContact c)])
              group).
Proof.
  induction 1 as [|c group Hc Hg IH]; [reflexivity|].
  simpl Part000.batch_inputs. rewrite IH.
  destruct (normalizeHubSpotContact_fields Hc) as (props & Hp & _).
  unfold properties_of. simpl map. rewrite Hp. reflexivity.
Qed.

Section BatchUpsert.

Variable World : Type.
Variable remote : call -> World -> reply * World.

Lemma upsert_groups_run token (chunks : list (list value)) :
  Forall (Forall (fun c => c <> VNull)) chunks ->
  forall results (s : state World),
    Part000.upsert_groups remote Part000.normalizeHubSpotContact token chunks results s
    = (collected results
         (fst (issue_in_order remote
                 (map (batch_call Part000.normalizeHubSpotContact token) chunks)
                 (world s))),
       State
         (snd (issue_in_order remote
                 (map (batch_call Part000.normalizeHubSpotContact token) chunks)
                 (world s)))
         (issued s
          ++ firstn
               (List.length
                  (fst (issue_in_order remote
                          (map (batch_call Part000.normalizeHubSpotContact token) chunks)
                          (world s))))
               (map (batch_call Part000.normalizeHubSpotContact token) chunks))).
Proof.
  induction 1 as [|group chunks Hg Hc IH]; intros results s.
  - destruct s. simpl. now rewrite app_nil_r.
  - simpl Part000.upsert_groups. rewrite (batch_inputs_total Hg).
    unfold bind, axios. simpl map.
    fold (batch_call Part000.normalizeHubSpotContact token group).
    simpl issue_in_order.
    destruct (remote (batch_call Part000.normalizeHubSpotContact token group) (world s))
      as [[d|r m] w1]; [|reflexivity].
    rewrite IH. simpl world. simpl issued.
    destruct (issue_in_order remote _ w1) as [rs w2]. simpl.
    now rewrite <- app_assoc.
Qed.

Lemma reply_at_head c calls w :
  reply_at remote (c :: calls) w 0 = Some (fst (remote c w)).
Proof. reflexivity. Qed.

Lemma reply_at_tail c calls w k :
  reply_at remote (c :: calls) w (S k) = reply_at remote calls (snd (remote c w)) k.
Proof. reflexivity. Qed.

Lemma issue_until_rejected (k : nat) :
  forall calls w results r m,
    (forall j, (j < k)%nat -> exists d, reply_at remote calls w j = Some (Resolved d)) ->
    reply_at remote calls w k = Some (Rejected r m) ->
    snd (issue_in_order remote calls w) = world_after remote (firstn (S k) calls) w /\
    List.length (fst (issue_in_order remote calls w)) = S k /\
    collected results (fst (issue_in_order remote calls w)) = inr (error_details r m).
Proof.
  induction k as [|k IH]; intros calls w results r m Hbefore Hk.
  - destruct calls as [|c calls]; [discriminate|].
    rewrite reply_at_head in Hk. injection Hk as Hk. simpl.
    destruct (remote c w) as [rp w1]. simpl in Hk. subst rp. now simpl.
  - destruct calls as [|c calls]; [discriminate|].
    destruct (Hbefore 0%nat ltac:(lia)) as [d Hd].
    rewrite reply_at_head in Hd. injection Hd as Hd.
    rewrite reply_at_tail in Hk.
    assert (Hb : forall j, (j < k)%nat ->
                 exists d, reply_at remote calls (snd (remote c w)) j = Some (Resolved d)).
    { intros j Hj. destruct (Hbefore (S j) ltac:(lia)) as [x Hx].
      rewrite reply_at_tail in Hx. now exists x. }
    specialize (IH calls (snd (remote c w)) (results ++ [d]) r m Hb Hk).
    change (firstn (S (S k)) (c :: calls)) with (c :: firstn (S k) calls).
    simpl world_after. simpl issue_in_order.
    destruct (remote c w) as [rp w1]. simpl in Hd, IH |- *. subst rp.
    destruct (issue_in_order remote calls w1) as [rs w2]. simpl in *.
    destruct IH as (H1 & H2 & H3). now rewrite H2.
Qed.

Lemma issue_all_resolved :
  forall calls w results,
    (forall j, (j < List.length calls)%nat ->
               exists d, reply_at remote calls w j = Some (Resolved d)) ->
    snd (issue_in_order remote calls w) = world_after remote calls w /\
    List.length (fst (issue_in_order remote calls w)) = List.length calls /\
    exists ds,
      collected results (fst (issue_in_order remote calls w)) = inl (results ++ ds) /\
      List.length ds = List.length calls.
Proof.
  induction calls as [|c calls IH]; intros w results H.
  - simpl. repeat split. exists []. now rewrite app_nil_r.
  - destruct (H 0%nat ltac:(simpl; lia)) as [d Hd].
    rewrite reply_at_head in Hd. injection Hd as Hd.
    assert (Hb : forall j, (j < List.length calls)%nat ->
                 exists d, reply_at remote calls (snd (remote c w)) j = Some (Resolved d)).
    { intros j Hj. destruct (H (S j) ltac:(simpl; lia)) as [x Hx].
      rewrite reply_at_tail in Hx. now exists x. }
    specialize (IH (snd (remote c w)) (results ++ [d]) Hb).
    simpl world_after. simpl issue_in_order.
    destruct (remote c w) as [rp w1]. simpl in Hd, IH |- *. subst rp.
    destruct (issue_in_order remote calls w1) as [rs w2]. simpl in *.
    destruct IH as (H1 & H2 & ds & H3 & H4).
    split; [exact H1|]. split; [now rewrite H2|].
    exists (d :: ds). rewrite H3, <- app_assoc. simpl. now rewrite H4.
Qed.

End BatchUpsert.

Lemma Forall_firstn_skipn {A} (P : A -> Prop) (a b : nat) (l : list A) :
  Forall P l -> Forall P (firstn a (skipn b l)).
Proof.
  intros H. apply Forall_forall. intros x Hx.
  rewrite Forall_forall in H. apply H.
  assert (Hs : In x (skipn b l)).
  { rewrite <- (firstn_skipn a (skipn b l)). apply in_or_app. now left. }
  rewrite <- (firstn_skipn b l). apply in_or_app. now right.
Qed.

Lemma chunk_length {A} (arr : list A) (size : nat) :
  (0 < size)%nat ->
  List.length (Part000.chunk arr size) = ((List.length arr + size - 1) / size)%nat.
Proof.
  intros Hs. now rewrite chunk_groups, length_map, length_seq.
Qed.

Lemma chunk_Forall {A} (P : A -> Prop) (arr : list A) (size : nat) :
  (0 < size)%nat -> Forall P arr -> Forall (Forall P) (Part000.chunk arr size).
Proof.
  intros Hs H. rewrite chunk_groups by exact Hs.
  apply Forall_forall. intros g Hg. apply in_map_iff in Hg as (j & <- & _).
  now apply Forall_firstn_skipn.
Qed.

Lemma chunk_100 {A} (items : list A) :
  concat (Part000.chunk items 100) = items /\
  (forall j g,
      nth_error (Part000.chunk items 100) j = Some g ->
      g = firstn 100 (skipn (j * 100) items) /\
      (1 <= List.length g <= 100)%nat /\
      ((S j < List.length (Part000.chunk items 100))%nat -> List.length g = 100%nat)) /\
  (List.length items = 250%nat ->
   map (@List.length A) (Part000.chunk items 100) = [100; 100; 50]%nat).
Proof.
  assert (Hs : (0 < 100)%nat) by lia.
  split; [now apply chunk_concat|]. split.
  - intros j g Hg. destruct (chunk_nth _ _ Hs Hg) as (E & Hlt & Hlen).
    split; [exact E|]. split; [lia|].
    rewrite chunk_length by exact Hs. intros Hj.
    destruct (ceil_div_bounds (List.length items) Hs) as [_ Hb]. lia.
  - intros H. rewrite chunk_groups by exact Hs. rewrite H.
    change ((250 + 100 - 1) / 100)%nat with 3%nat. rewrite map_map.
    cbn [seq map]. rewrite !length_firstn, !length_skipn, H. reflexivity.
Qed.

(** C5.  The batch route cuts the contacts, in their order, into
    consecutive groups of 100, the last one holding the remainder (250
    contacts give 100, 100, 50), and issues one batch upsert per group,
    each input keyed by [email], one after the other.  When the call for
    group [k] is the first to be rejected, the calls made are exactly
    those of the groups up to [k], in order; the world is the one they
    leave, nothing being undone or retried; the response is 500 with the
    details of the rejection.  When none is rejected, every group's call
    is made and the response is 200 with one result per group. *)
Theorem C5_batch_upsert (World : Type) (remote : call -> World -> reply * World)
    (e : env) (req : request) (s : state World) (items : list value) :
  member (req_body req) (lit "contacts") = Normal (VArr items) ->
  items <> [] ->
  Forall (fun c => c <> VNull) items ->
  let token := e "HUBSPOT_ACCESS_TOKEN" in
  let groups := Part000.chunk items 100 in
  let calls := map (batch_call Part000.normalizeHubSpotContact token) groups in
  let run := Part000.ghl_to_hubspot_batch remote e req s in
  concat groups = items /\
  (forall j g,
      nth_error groups j = Some g ->
      g = firstn 100 (skipn (j * 100) items) /\
      (1 <= List.length g <= 100)%nat /\
      ((S j < List.length groups)%nat -> List.length g = 100%nat)) /\
  (List.length items = 250%nat -> map (@List.length value) groups = [100; 100; 50]%nat) /\
  Forall (fun c =>
            exists inputs,
              get_prop (call_body c) (lit "inputs") = VArr inputs /\
              Forall (fun i => get_prop i (lit "idProperty") = str "email") inputs)
    calls /\
  (forall k r m,
      (forall j, (j < k)%nat ->
                 exists d, reply_at remote calls (world s) j = Some (Resolved d)) ->
      reply_at remote calls (world s) k = Some (Rejected r m) ->
      run = (Part000.server_error (error_details r m),
             State (world_after remote (firstn (S k) calls) (world s))
               (issued s ++ firstn (S k) calls))) /\
  ((forall j, (j < List.length calls)%nat ->
              exists d, reply_at remote calls (world s) j = Some (Resolved d)) ->
   exists results,
     List.length results = List.length groups /\
     run = (json 200 [("status", str "success");
                      ("chunks", num (List.length results));
                      ("results", VArr results)],
            State (world_after remote calls (world s)) (issued s ++ calls))).
Proof.
  intros Hm Hne Hnn token groups calls run.
  destruct (chunk_100 items) as (Hc & Hg & H250).
  split; [exact Hc|]. split; [exact Hg|]. split; [exact H250|].
  assert (Hrun : run
                 = let r := Part000.upsert_groups remote Part000.normalizeHubSpotContact
                              token groups [] s in
                   match fst r with
                   | inl results =>
                       (json 200 [("status", str "success");
                                  ("chunks", num (List.length results));
                                  ("results", VArr results)], snd r)
                   | inr details => (Part000.server_error details, snd r)
                   end).
  { unfold run, Part000.ghl_to_hubspot_batch. rewrite Hm.
    unfold Part000.upsert_batch.
    assert (Hz : Nat.eqb (List.length items) 0 = false)
      by (destruct items; [now elim Hne|reflexivity]).
    rewrite Hz. unfold bind. cbv zeta. unfold groups, token.
    destruct (Part000.upsert_groups _ _ _ _ _ _) as [[results|details] s'];
      reflexivity. }
  assert (Hall : Forall (Forall (fun c => c <> VNull)) groups)
    by (apply chunk_Forall; [lia|exact Hnn]).
  rewrite (upsert_groups_run remote token Hall) in Hrun. fold calls in Hrun.
  cbv zeta in Hrun. simpl fst in Hrun. simpl snd in Hrun.
  split; [|split].
  - apply Forall_forall. intros c Hin. apply in_map_iff in Hin as (g & <- & _).
    eexists. split; [reflexivity|].
    apply Forall_forall. intros i Hi. apply in_map_iff in Hi as (x & <- & _).
    reflexivity.
  - intros k r m Hbefore Hk.
    destruct (@issue_until_rejected World remote k calls (world s) [] r m Hbefore Hk)
      as (H1 & H2 & H3).
    rewrite Hrun, H3, H1, H2. reflexivity.
  - intros Hok.
    destruct (@issue_all_resolved World remote calls (world s) [] Hok)
      as (H1 & H2 & ds & H3 & H4).
    exists ds. split; [unfold calls in H4; now rewrite length_map in H4|].
    rewrite Hrun, H3, H1, H2. simpl app. now rewrite firstn_all.
Qed.

Lemma sample_contacts_not_null (n : nat) :
  Forall (fun c => c <> VNull) (sample_contacts n).
Proof.
  apply Forall_forall. intros c Hc. apply in_map_iff in Hc as (i & <- & _).
  discriminate.
Qed.

Lemma C5_batch_upsert_witness :
  let e := env_with [("HUBSPOT_ACCESS_TOKEN", "pat-1")] in
  let req := Request VUndef VUndef (VObj [(lit "contacts", VArr (sample_contacts 250))]) in
  let calls := map (batch_call Part000.normalizeHubSpotContact (e "HUBSPOT_ACCESS_TOKEN"))
                 (Part000.chunk (sample_contacts 250) 100) in
  Part000.ghl_to_hubspot_batch (rejecting_at 1) e req start
  = (Part000.server_error
       (error_details (Some (429%nat, obj [("message", str "rate limited")]))
          (lit "Request failed with status code 429")),
     State (world_after (rejecting_at 1) (firstn 2 calls) (world start))
       (issued start ++ firstn 2 calls)).
Proof.
  cbv zeta.
  apply (proj1 (proj2 (proj2 (proj2 (proj2
           (@C5_batch_upsert nat (rejecting_at 1)
              (env_with [("HUBSPOT_ACCESS_TOKEN", "pat-1")])
              (Request VUndef VUndef
                 (VObj [(lit "contacts", VArr (sample_contacts 250))]))
              start (sample_contacts 250) eq_refl
              ltac:(discriminate) (sample_contacts_not_null 250))))))
         1%nat (Some (429%nat, obj [("message", str "rate limited")]))
         (lit "Request failed with status code 429")).
  - intros j Hj. assert (j = 0)%nat as -> by lia.
    eexists. vm_compute. reflexivity.
  - vm_compute. reflexivity.
Defined.

Example batch_250_second_group_fails :
  let run := Part000.ghl_to_hubspot_batch (rejecting_at 1)
               (env_with [("HUBSPOT_ACCESS_TOKEN", "pat-1")])
               (Request VUndef VUndef
                  (VObj [(lit "contacts", VArr (sample_contacts 250))])) start in
  status_of (fst run) = Some 500%Z /\
  world (snd run) = 2%nat /\
  map (fun c => match get_prop (call_body c) (lit "inputs") with
                | VArr inputs => List.length inputs
                | _ => 0%nat
                end) (issued (snd run)) = [100; 100]%nat.
Proof. cbv zeta. repeat split; vm_compute; reflexivity. Qed.

(** * Further properties of the code *)

(** ** [trim] and [split] *)

Lemma drop_ws_starts_clean (s : jstring) : starts_clean (drop_ws s).
Proof.
  induction s as [|c s IH]; simpl; [exact I|].
  destruct (is_ws c) eqn:E; [exact IH|exact E].
Qed.

Lemma drop_ws_fixed (s : jstring) : starts_clean s -> drop_ws s = s.
Proof. destruct s as [|c s]; simpl; [reflexivity|]. now intros ->. Qed.

Lemma drop_ws_suffix (s : jstring) : exists p, s = p ++ drop_ws s.
Proof.
  induction s as [|c s [p IH]]; [now exists []|]. simpl.
  destruct (is_ws c); [|now exists []].
  exists (c :: p). simpl. now f_equal.
Qed.

Lemma starts_clean_app (a b : jstring) :
  a <> [] -> starts_clean (a ++ b) -> starts_clean a.
Proof. destruct a; [now intros H|]. intros _ H. exact H. Qed.

Lemma trim_starts_clean (s : jstring) : starts_clean (trim s).
Proof.
  unfold trim. set (u := drop_ws s).
  assert (Hu : starts_clean u) by apply drop_ws_starts_clean.
  destruct (drop_ws_suffix (rev u)) as [p Hp].
  destruct (drop_ws (rev u)) as [|c v] eqn:E; [exact I|].
  apply (f_equal (@rev N)) in Hp. rewrite rev_involutive, rev_app_distr in Hp.
  rewrite Hp in Hu. apply starts_clean_app in Hu; [exact Hu|].
  simpl. intros H. apply app_eq_nil in H as [_ H]. discriminate.
Qed.

Lemma trim_ends_clean (s : jstring) : starts_clean (rev (trim s)).
Proof. unfold trim. rewrite rev_involutive. apply drop_ws_starts_clean. Qed.

Lemma trim_fixed (t : jstring) : starts_clean t -> starts_clean (rev t) -> trim t = t.
Proof.
  intros H1 H2. unfold trim.
  rewrite (drop_ws_fixed _ H1), (drop_ws_fixed _ H2). apply rev_involutive.
Qed.

Lemma trim_idem (s : jstring) : trim (trim s) = trim s.
Proof. apply trim_fixed; [apply trim_starts_clean|apply trim_ends_clean]. Qed.

Lemma drop_ws_In (s : jstring) (c : N) : In c (drop_ws s) -> In c s.
Proof.
  destruct (drop_ws_suffix s) as [p Hp]. intros H. rewrite Hp.
  apply in_or_app. now right.
Qed.

Lemma trim_In (s : jstring) (c : N) : In c (trim s) -> In c s.
Proof.
  unfold trim. intros H. apply in_rev in H. apply drop_ws_In in H.
  apply in_rev in H. now apply drop_ws_In.
Qed.

Lemma split_on_no_sep (sep : N) (s part : jstring) :
  In part (split_on sep s) -> ~ In sep part.
Proof.
  revert part. induction s as [|c s IH]; intros part; simpl.
  - intros [<-|[]] [].
  - destruct (N.eqb c sep) eqn:E.
    + intros [<-|H]; [intros []|now apply IH].
    + destruct (split_on sep s) as [|h t] eqn:Es.
      * intros [<-|[]] [H|[]]. apply N.eqb_neq in E. congruence.
      * intros [<-|H].
        -- intros [H|H]; [apply N.eqb_neq in E; congruence|].
           revert H. apply IH. now left.
        -- apply IH. now right.
Qed.

Lemma split_on_whole (sep : N) (a : jstring) :
  ~ In sep a -> split_on sep a = [a].
Proof.
  induction a as [|c a IH]; intros H; simpl; [reflexivity|].
  destruct (N.eqb c sep) eqn:E.
  - apply N.eqb_eq in E. elim H. now left.
  - rewrite IH; [reflexivity|]. intros Hin. apply H. now right.
Qed.

Lemma split_on_app (sep : N) (a b : jstring) :
  ~ In sep a -> split_on sep (a ++ sep :: b) = a :: split_on sep b.
Proof.
  induction a as [|c a IH]; intros H; simpl.
  - now rewrite N.eqb_refl.
  - destruct (N.eqb c sep) eqn:E.
    + apply N.eqb_eq in E. elim H. now left.
    + rewrite IH; [reflexivity|]. intros Hin. apply H. now right.
Qed.

(** ** [ensureArrayTags] *)

Lemma cut_tags_clean (s : jstring) :
  Forall clean_tag (filter (fun t => truthy (VStr t)) (map trim (split_on comma s))).
Proof.
  apply Forall_forall. intros t Ht. apply filter_In in Ht as [Ht Hne].
  apply in_map_iff in Ht as (p & <- & Hp).
  split; [|split].
  - intros E. rewrite E in Hne. discriminate.
  - apply trim_idem.
  - intros Hc. apply trim_In in Hc. exact (@split_on_no_sep comma s p Hp Hc).
Qed.

(** X1.  Whatever string it is given, [ensureArrayTags] returns strings
    only, each of them non-empty, trimmed and free of commas; a value
    that is neither an array nor a string gives no tag at all. *)
Theorem ensureArrayTags_clean (v : value) :
  (forall s, v = VStr s ->
     exists ts, Crm.ensureArrayTags v = map VStr ts /\ Forall clean_tag ts) /\
  (is_array v = false -> (forall s, v <> VStr s) -> Crm.ensureArrayTags v = []).
Proof.
  split.
  - intros s ->. unfold Crm.ensureArrayTags. eexists. split; [reflexivity|].
    apply cut_tags_clean.
  - intros Ha Hs. destruct v; try reflexivity; [now elim (Hs s)|discriminate].
Qed.

Lemma ensureArrayTags_clean_witness :
  exists ts, Crm.ensureArrayTags (str " vip ,, gold,") = map VStr ts /\ Forall clean_tag ts.
Proof.
  apply (proj1 (ensureArrayTags_clean (str " vip ,, gold,")) (lit " vip ,, gold,")).
  reflexivity.
Defined.

(** The string a list of strings is joined into. *)
Lemma joined_strs (ts : list jstring) :
  exists joined,
    toString (VArr (map VStr ts)) = Normal joined /\
    (Forall (fun t => ~ In comma t) ts -> ts <> [] -> split_on comma joined = ts).
Proof.
  induction ts as [|t ts (rest & Hrest & Hsplit)].
  - exists []. split; [reflexivity|]. intros _ H. now elim H.
  - cbn [map]. rewrite toString_cons. cbn [bindc].
    destruct ts as [|t' ts'].
    + exists t. split; [reflexivity|]. intros H _. inversion H; subst.
      now apply split_on_whole.
    + rewrite Hrest. cbn [map bindc]. exists (t ++ comma :: rest).
      split; [reflexivity|]. intros H _. inversion H as [|? ? Ht Hts]; subst.
      rewrite split_on_app by exact Ht. f_equal. apply Hsplit; [exact Hts|discriminate].
Qed.

(** X2.  Joining clean tags with commas, as [String(tags)] and
    [tags.join(',')] do, and cutting the string again with
    [ensureArrayTags] gives the tags back. *)
Theorem ensureArrayTags_of_joined (ts : list jstring) :
  Forall clean_tag ts ->
  exists joined,
    toString (VArr (map VStr ts)) = Normal joined /\
    Crm.ensureArrayTags (VStr joined) = map VStr ts.
Proof.
  intros H. destruct (joined_strs ts) as (joined & Hj & Hsplit).
  exists joined. split; [exact Hj|].
  destruct ts as [|t ts]; [injection Hj as <-; reflexivity|].
  unfold Crm.ensureArrayTags. f_equal.
  rewrite Hsplit; [| |discriminate].
  - assert (E : map trim (t :: ts) = t :: ts).
    { rewrite <- (map_id (t :: ts)) at 2. apply map_ext_in.
      intros x Hx. rewrite Forall_forall in H. now apply H. }
    rewrite E. apply forallb_filter_id. apply forallb_forall.
    intros x Hx. rewrite Forall_forall in H. destruct (H x Hx) as [Hne _].
    destruct x; [now elim Hne|reflexivity].
  - apply Forall_forall. intros x Hx. rewrite Forall_forall in H. now apply H.
Qed.

Lemma ensureArrayTags_of_joined_witness :
  exists joined,
    toString (VArr (map VStr [lit "vip"; lit "gold member"])) = Normal joined /\
    Crm.ensureArrayTags (VStr joined) = map VStr [lit "vip"; lit "gold member"].
Proof.
  apply ensureArrayTags_of_joined.
  repeat constructor; try discriminate; try reflexivity;
    simpl; intuition discriminate.
Defined.

(** ** The tag list of [buildContactPayload] *)

Lemma set_from_keeps_all (seen l : list value) (x : value) :
  In x l -> includes seen x = false -> In x (set_from seen l).
Proof.
  revert seen. induction l as [|y l IH]; intros seen; simpl; [intros []|].
  intros [->|Hin] Hs.
  - rewrite Hs. now left.
  - destruct (includes seen y) eqn:E; [now apply IH|].
    destruct (same_value_zero x y) eqn:Exy.
    + apply svz_eq in Exy. left. congruence.
    + right. apply IH; [exact Hin|]. unfold includes. simpl. now rewrite Exy.
Qed.

(** X3.  The final tag list invents nothing and loses nothing but falsy
    entries: a value is in it exactly when it is truthy and is a default
    tag or a discovered tag. *)
Theorem final_tags_membership (defaultTags : list jstring) (discovered : list value)
    (t : value) :
  In t (Crm.final_tags defaultTags discovered) <->
  truthy t = true /\ (In t (map VStr defaultTags) \/ In t discovered).
Proof.
  unfold Crm.final_tags. rewrite filter_In, prepend_defaults_eq. split.
  - intros [Hin Ht]. split; [exact Ht|].
    apply set_from_sub in Hin as [Hin _]. apply in_app_or in Hin as [Hin|Hin];
      [left|now right].
    unfold missing_defaults in Hin. apply in_map_iff in Hin as (d & <- & Hd).
    apply filter_In in Hd as [Hd _]. rewrite last_occurrences_In in Hd.
    now apply in_map.
  - intros [Ht [Hin|Hin]]; (split; [|exact Ht]); apply set_from_keeps_all;
      try reflexivity; apply in_or_app.
    + apply in_map_iff in Hin as (d & <- & Hd).
      destruct (includes discovered (VStr d)) eqn:E.
      * right. now apply includes_str.
      * left. apply In_missing_defaults. split; [exact Hd|].
        rewrite <- includes_str. congruence.
    + now right.
Qed.

(** X4.  A normalised contact holds truthy values only, under field
    names taken from [email], [phone], [firstName], [lastName], [tags],
    [locationId], each at most once and in that order. *)
Theorem contact_fields_truthy payload defaultTags locationId re c :
  Crm.buildContactPayload payload defaultTags locationId re = Normal c ->
  exists fields,
    c = VObj fields /\
    Forall (fun kv => truthy (snd kv) = true) fields /\
    map fst fields
    = filter (fun k => existsb (jstring_eqb k) (map fst fields)) contact_keys.
Proof.
  intros H.
  apply build_shape in H as (email & phone & first & last & tags & _ & _ & _ & _ & _ & ->).
  unfold contact_of.
  eexists. split; [reflexivity|].
  destruct (truthy email) eqn:E1, (truthy phone) eqn:E2, (truthy first) eqn:E3,
    (truthy last) eqn:E4,
    (negb (Nat.eqb (List.length (Crm.final_tags defaultTags tags)) 0)) eqn:E5,
    (truthy locationId) eqn:E6;
    (split; [repeat constructor; assumption|vm_compute; reflexivity]).
Qed.

Lemma contact_fields_truthy_witness :
  exists fields,
    obj [("phone", VNum (lit "5551234")); ("lastName", str "Lee"); ("tags", VArr [str "A"])]
    = VObj fields /\
    Forall (fun kv => truthy (snd kv) = true) fields /\
    map fst fields
    = filter (fun k => existsb (jstring_eqb k) (map fst fields)) contact_keys.
Proof.
  apply (@contact_fields_truthy
           (obj [("email", num 0); ("contact", obj [("phone_number", VNum (lit "5551234"))]);
                 ("last_name", str "Lee"); ("firstName", str "  ")])
           [lit "A"] (str "") None).
  reflexivity.
Defined.


(** ** The pattern loop *)

Lemma key_tags_app test aliased (es1 es2 : list (jstring * value)) (tags : list value) :
  Crm.key_tags test aliased tags (es1 ++ es2)
  = bindc (Crm.key_tags test aliased tags es1) (fun tags' =>
    Crm.key_tags test aliased tags' es2).
Proof.
  revert tags. induction es1 as [|e es1 IH]; intros tags; [reflexivity|].
  cbn [app]. rewrite !key_tags_cons.
  destruct (Crm.key_tag_step test aliased tags e) as [tags'|m]; [|reflexivity].
  cbn [bindc]. apply IH.
Qed.

Lemma pushed_for_exists test es :
  Forall (fun kv => printable (snd kv))
    (filter (fun kv => truthy (snd kv) && test (fst kv)) es) ->
  exists pushed, pushed_for test es pushed.
Proof.
  unfold pushed_for. induction 1 as [|kv l [s Hs] _ [pushed IH]].
  - exists []. constructor.
  - exists (trim s :: pushed). constructor; eauto.
Qed.

(** The loop on entries none of which is read from the list being
    extended. *)
Lemma key_tags_pushes test aliased (es : list (jstring * value)) :
  (forall kv, In kv es ->
     aliased = false \/ fst kv <> lit "tags" \/ test (lit "tags") = false) ->
  forall tags,
    (forall out,
        Crm.key_tags test aliased tags es = Normal out ->
        exists pushed, out = tags ++ map VStr pushed /\ pushed_for test es pushed) /\
    (forall pushed,
        pushed_for test es pushed ->
        Crm.key_tags test aliased tags es = Normal (tags ++ map VStr pushed)).
Proof.
  unfold pushed_for.
  induction es as [|[k v] es IH]; intros Hal tags.
  - split.
    + intros out [= <-]. exists []. split; [now rewrite app_nil_r|constructor].
    + intros pushed H. inversion H; subst. simpl. now rewrite app_nil_r.
  - assert (Hes : forall kv, In kv es ->
              aliased = false \/ fst kv <> lit "tags" \/ test (lit "tags") = false)
      by (intros kv Hkv; apply Hal; now right).
    assert (Hstep : Crm.key_tag_step test aliased tags (k, v)
                    = if truthy v && test k
                      then bindc (toString v) (fun s => Normal (tags ++ [VStr (trim s)]))
                      else Normal tags).
    { unfold Crm.key_tag_step. cbn [fst snd].
      destruct (aliased && jstring_eqb k (lit "tags")) eqn:Ea.
      - apply andb_prop in Ea as [-> Ek]. apply jstring_eqb_eq in Ek. subst k.
        destruct (Hal (lit "tags", v) (or_introl eq_refl)) as [H|[H|H]];
          [discriminate|now elim H|].
        cbn [fst] in H. rewrite H, andb_false_r. reflexivity.
      - destruct (truthy v); [|reflexivity]. now destruct (test k). }
    rewrite key_tags_cons, Hstep. cbn [filter fst snd].
    destruct (truthy v && test k).
    + destruct (toString v) as [s|m] eqn:Hs; cbn [bindc].
      * destruct (IH Hes (tags ++ [VStr (trim s)])) as [IH1 IH2]. split.
        -- intros out Ho. destruct (IH1 out Ho) as (pushed & -> & Hp).
           exists (trim s :: pushed). split; [now rewrite <- app_assoc|].
           constructor; eauto.
        -- intros pushed H. inversion H as [|? t ? pushed' (s' & Hs' & ->) Hrest]; subst.
           cbn [snd] in Hs'. assert (s' = s) as -> by congruence.
           rewrite (IH2 pushed' Hrest). now rewrite <- app_assoc.
      * split; [discriminate|].
        intros pushed H. inversion H as [|? t ? pushed' (s' & Hs' & _) Hrest]; subst.
        cbn [snd] in Hs'. congruence.
    + exact (IH Hes tags).
Qed.

(** X5.  With a pattern, the discovered tags are the inbound tags followed
    by [String(value).trim()] of every entry whose value is truthy and
    whose key matches, in the order of the payload's keys (provided the
    pattern does not match the key [tags] of the array being extended).
    They are discovered whenever [String()] converts the values of those
    entries; when it does not convert one of them, the normaliser
    throws. *)
Theorem discovered_tags_order payload test es picked :
  entries payload = Normal es ->
  Crm.tags_aliased payload = false \/ test (lit "tags") = false ->
  Crm.pick payload Crm.tags_paths = Normal picked ->
  (forall discovered,
      Crm.discovered_tags payload (Some test) = Normal discovered ->
      exists pushed,
        discovered = Crm.ensureArrayTags picked ++ map VStr pushed /\
        Forall2 (fun kv t => exists s, toString (snd kv) = Normal s /\ t = trim s)
          (filter (fun kv => truthy (snd kv) && test (fst kv)) es) pushed) /\
  (Forall (fun kv => printable (snd kv))
     (filter (fun kv => truthy (snd kv) && test (fst kv)) es) ->
   exists discovered, Crm.discovered_tags payload (Some test) = Normal discovered) /\
  (forall kv m,
      In kv (filter (fun kv => truthy (snd kv) && test (fst kv)) es) ->
      toString (snd kv) = Throw m ->
      exists m', Crm.discovered_tags payload (Some test) = Throw m').
Proof.
  intros He Hal Hp.
  assert (Hd : Crm.discovered_tags payload (Some test)
               = Crm.key_tags test (Crm.tags_aliased payload)
                   (Crm.ensureArrayTags picked) es).
  { unfold Crm.discovered_tags. rewrite Hp, He. reflexivity. }
  assert (Hes : forall kv, In kv es ->
              Crm.tags_aliased payload = false \/ fst kv <> lit "tags"
              \/ test (lit "tags") = false) by (intros kv _; tauto).
  destruct (@key_tags_pushes test (Crm.tags_aliased payload) es Hes
              (Crm.ensureArrayTags picked)) as [H1 H2].
  rewrite Hd. split; [exact H1|]. split.
  - intros Hpr. destruct (pushed_for_exists test es Hpr) as [pushed Hpu].
    eexists. apply H2. exact Hpu.
  - intros kv m Hin Hthrow.
    destruct (Crm.key_tags _ _ _ es) as [out|m'] eqn:E; [|now exists m'].
    destruct (H1 out eq_refl) as (pushed & _ & Hpu). exfalso.
    unfold pushed_for in Hpu. clear -Hin Hthrow Hpu.
    induction Hpu as [|x t l l' (s & Hs & _) _ IH]; [destruct Hin|].
    destruct Hin as [->|Hin]; [congruence|auto].
Qed.

Lemma discovered_tags_order_witness :
  (forall discovered,
      Crm.discovered_tags
        (obj [("competency_coach_b", str " two "); ("tags", VArr [str "t"]);
              ("note", str "x"); ("Competency_Coach_a", VNum (lit "1.5"))])
        (Some competency_coach) = Normal discovered ->
      exists pushed,
        discovered = Crm.ensureArrayTags (VArr [str "t"]) ++ map VStr pushed /\
        Forall2 (fun kv t => exists s, toString (snd kv) = Normal s /\ t = trim s)
          (filter (fun kv => truthy (snd kv) && competency_coach (fst kv))
             [(lit "competency_coach_b", str " two "); (lit "tags", VArr [str "t"]);
              (lit "note", str "x"); (lit "Competency_Coach_a", VNum (lit "1.5"))])
          pushed) /\
  (Forall (fun kv => printable (snd kv))
     (filter (fun kv => truthy (snd kv) && competency_coach (fst kv))
        [(lit "competency_coach_b", str " two "); (lit "tags", VArr [str "t"]);
         (lit "note", str "x"); (lit "Competency_Coach_a", VNum (lit "1.5"))]) ->
   exists discovered,
     Crm.discovered_tags
       (obj [("competency_coach_b", str " two "); ("tags", VArr [str "t"]);
             ("note", str "x"); ("Competency_Coach_a", VNum (lit "1.5"))])
       (Some competency_coach) = Normal discovered) /\
  (forall kv m,
      In kv (filter (fun kv => truthy (snd kv) && competency_coach (fst kv))
               [(lit "competency_coach_b", str " two "); (lit "tags", VArr [str "t"]);
                (lit "note", str "x"); (lit "Competency_Coach_a", VNum (lit "1.5"))]) ->
      toString (snd kv) = Throw m ->
      exists m',
        Crm.discovered_tags
          (obj [("competency_coach_b", str " two "); ("tags", VArr [str "t"]);
                ("note", str "x"); ("Competency_Coach_a", VNum (lit "1.5"))])
          (Some competency_coach) = Throw m').
Proof.
  apply (@discovered_tags_order
           (obj [("competency_coach_b", str " two "); ("tags", VArr [str "t"]);
                 ("note", str "x"); ("Competency_Coach_a", VNum (lit "1.5"))])
           competency_coach
           [(lit "competency_coach_b", str " two "); (lit "tags", VArr [str "t"]);
            (lit "note", str "x"); (lit "Competency_Coach_a", VNum (lit "1.5"))]
           (VArr [str "t"])).
  - reflexivity.
  - right. reflexivity.
  - reflexivity.
Defined.

Example discovered_tags_in_order :
  Crm.discovered_tags
    (obj [("competency_coach_b", str " two "); ("tags", VArr [str "t"]);
          ("note", str "x"); ("Competency_Coach_a", VNum (lit "1.5"))])
    (Some competency_coach)
  = Normal [str "t"; str "two"; str "1.5"].
Proof. reflexivity. Qed.

(** ** The CRM routes of the gated revision *)

(** X6.  A request that is past the shared-secret gate and resolves an
    e-mail address or a telephone number makes exactly one outbound call:
    a [POST] of the normalised contact to the GHL contacts endpoint,
    with [Bearer] and the account's key ("Bearer undefined" when the key
    is not configured: its presence is not checked).  The contact sent
    carries the tag "From Account A".  The answer is 200 with the remote
    data, or 500 with the details of the rejection. *)
Theorem crm_route_delivers (World : Type) (remote : call -> World -> reply * World)
    (api_var location_var : String.string) (e : env) (req : request) (s : state World)
    (contact : value) :
  Server.assertSharedSecret e req = Normal true ->
  Crm.buildContactPayload (req_body req) [lit "From Account A"] (getenv e location_var)
    (Some competency_coach) = Normal contact ->
  truthy (get_prop contact (lit "email")) || truthy (get_prop contact (lit "phone")) = true ->
  let c := Call POST (lit "https://rest.gohighlevel.com/v1/contacts/")
             (lit "Bearer " ++ match e api_var with
                               | Some key => key
                               | None => lit "undefined"
                               end) contact in
  Server.crm_route remote api_var location_var e req s
  = (match fst (remote c (world s)) with
     | Resolved data => json 200 [("status", str "success"); ("data", data)]
     | Rejected r m => json 500 [("status", str "error"); ("error", error_details r m)]
     end,
     State (snd (remote c (world s))) (issued s ++ [c])) /\
  exists tags,
    get_prop contact (lit "tags") = VArr tags /\ In (str "From Account A") tags.
Proof.
  intros Hg Hb Hid c. split.
  - unfold Server.crm_route, Server.gated, Server.crm_accepted. rewrite Hg, Hb.
    apply orb_true_iff in Hid.
    assert (Hv : negb (truthy (get_prop contact (lit "email")))
                 && negb (truthy (get_prop contact (lit "phone"))) = false)
      by (destruct Hid as [-> | ->]; [reflexivity|apply andb_false_r]).
    rewrite Hv. unfold bind, axios, Server.upsertToGHL, bearer. fold c.
    destruct (remote c (world s)) as [[data|r m] w]; reflexivity.
  - destruct (build_shape _ _ _ _ Hb)
      as (_ & _ & _ & _ & discovered & _ & _ & _ & _ & Hd & _).
    destruct (contact_tags _ _ _ _ Hb Hd) as [Hget _].
    assert (Hin : In (str "From Account A")
                    (Crm.final_tags [lit "From Account A"] discovered))
      by (apply defaults_in_final; [now left|discriminate]).
    exists (Crm.final_tags [lit "From Account A"] discovered).
    split; [|exact Hin].
    destruct (Crm.final_tags [lit "From Account A"] discovered); [destruct Hin|exact Hget].
Qed.

Lemma crm_route_delivers_witness :
  let e := env_with [("ACCOUNT_B_LOCATION_ID", "loc-b")] in
  let req := Request VUndef VUndef (obj [("contact", obj [("phone", str "555")])]) in
  let contact := obj [("phone", str "555"); ("tags", VArr [str "From Account A"]);
                      ("locationId", str "loc-b")] in
  let c := Call POST (lit "https://rest.gohighlevel.com/v1/contacts/")
             (lit "Bearer undefined") contact in
  Server.crm_route (rejecting_at 0) "ACCOUNT_B_API" "ACCOUNT_B_LOCATION_ID" e req start
  = (match fst (rejecting_at 0 c (world start)) with
     | Resolved data => json 200 [("status", str "success"); ("data", data)]
     | Rejected r m => json 500 [("status", str "error"); ("error", error_details r m)]
     end,
     State (snd (rejecting_at 0 c (world start))) (issued start ++ [c])).
Proof.
  cbv zeta.
  apply (proj1 (@crm_route_delivers nat (rejecting_at 0) "ACCOUNT_B_API"
           "ACCOUNT_B_LOCATION_ID" (env_with [("ACCOUNT_B_LOCATION_ID", "loc-b")])
           (Request VUndef VUndef (obj [("contact", obj [("phone", str "555")])])) start
           (obj [("phone", str "555"); ("tags", VArr [str "From Account A"]);
                 ("locationId", str "loc-b")])
           eq_refl eq_refl eq_refl)).
Defined.

(** X7.  On a gated CRM route, a request past the gate for which
    building the contact throws is not answered by the handler and causes
    no call: [buildContactPayload] is called outside the [try] block, so
    the exception leaves the handler.  A body that is [undefined] or
    [null] (a request without a JSON body, under Express 5) is such a
    request, since [Object.entries(payload)] throws on it. *)
Theorem crm_route_throws (World : Type) (remote : call -> World -> reply * World)
    (api_var location_var : String.string) (e : env) (req : request) (s : state World) :
  Server.assertSharedSecret e req = Normal true ->
  (forall m,
      Crm.buildContactPayload (req_body req) [lit "From Account A"] (getenv e location_var)
        (Some competency_coach) = Throw m ->
      Server.crm_route remote api_var location_var e req s = (Escaped m, s)) /\
  (nullish (req_body req) = true ->
   Server.crm_route remote api_var location_var e req s
   = (Escaped (lit "Cannot convert undefined or null to object"), s)).
Proof.
  intros Hg. unfold Server.crm_route, Server.gated, Server.crm_accepted. rewrite Hg.
  split.
  - intros m ->. reflexivity.
  - intros Hn. destruct (req_body req); try discriminate; reflexivity.
Qed.

Lemma crm_route_throws_witness :
  (forall m,
      Crm.buildContactPayload
        (req_body (Request (str "s3cret") VUndef
                     (obj [("email", obj [("toString", VNull)])])))
        [lit "From Account A"]
        (getenv (env_with [("SHARED_SECRET", "s3cret")]) "ACCOUNT_A_LOCATION_ID")
        (Some competency_coach) = Throw m ->
      Server.crm_route accepting "ACCOUNT_A_API" "ACCOUNT_A_LOCATION_ID"
        (env_with [("SHARED_SECRET", "s3cret")])
        (Request (str "s3cret") VUndef (obj [("email", obj [("toString", VNull)])])) start
      = (Escaped m, start)) /\
  (nullish (req_body (Request (str "s3cret") VUndef
                        (obj [("email", obj [("toString", VNull)])]))) = true ->
   Server.crm_route accepting "ACCOUNT_A_API" "ACCOUNT_A_LOCATION_ID"
     (env_with [("SHARED_SECRET", "s3cret")])
     (Request (str "s3cret") VUndef (obj [("email", obj [("toString", VNull)])])) start
   = (Escaped (lit "Cannot convert undefined or null to object"), start)).
Proof.
  apply crm_route_throws. reflexivity.
Defined.

Example gated_route_escapes :
  Server.crm_route accepting "ACCOUNT_A_API" "ACCOUNT_A_LOCATION_ID"
    (env_with [("SHARED_SECRET", "s3cret")])
    (Request (str "s3cret") VUndef (obj [("email", obj [("toString", VNull)])])) start
  = (Escaped (lit "Cannot convert object to primitive value"), start) /\
  Server.crm_route accepting "ACCOUNT_A_API" "ACCOUNT_A_LOCATION_ID"
    (env_with [("SHARED_SECRET", "s3cret")]) (Request (str "s3cret") VUndef VUndef) start
  = (Escaped (lit "Cannot convert undefined or null to object"), start).
Proof. split; reflexivity. Qed.

(** ** The CRM routes of the latest revision *)

Lemma set_prop_same (fields : list (jstring * value)) (k : jstring) (v : value) :
  lookup k (Part000.set_prop fields k v) = v.
Proof.
  induction fields as [|[k' v'] fields IH]; simpl.
  - now rewrite jstring_eqb_refl.
  - destruct (jstring_eqb k' k) eqn:E; simpl; rewrite E; [reflexivity|exact IH].
Qed.

Lemma set_prop_other (fields : list (jstring * value)) (k k' : jstring) (v : value) :
  k' <> k -> lookup k' (Part000.set_prop fields k v) = lookup k' fields.
Proof.
  intros Hne. induction fields as [|[k0 v0] fields IH]; simpl.
  - apply jstring_eqb_neq in Hne.
    destruct (jstring_eqb k k') eqn:E; [|reflexivity].
    apply jstring_eqb_eq in E. subst k'. now rewrite jstring_eqb_refl in Hne.
  - destruct (jstring_eqb k0 k) eqn:E; simpl.
    + apply jstring_eqb_eq in E. subst k0.
      destruct (jstring_eqb k k') eqn:E'; [|reflexivity].
      apply jstring_eqb_eq in E'. congruence.
    + destruct (jstring_eqb k0 k'); [reflexivity|exact IH].
Qed.

(** X8.  [upsertToGhl] posts to the LeadConnector contacts endpoint.  With
    a location id the body is the contact with [locationId] set to it and
    every other field as it was; without one the body is the contact
    itself. *)
Theorem upsertToGhl_body (apiKey : option jstring) (locationId : value)
    (fields : list (jstring * value)) :
  let c := Part000.upsertToGhl apiKey (VObj fields) locationId in
  call_verb c = POST /\
  call_url c = lit "https://services.leadconnectorhq.com/contacts/" /\
  (truthy locationId = true ->
   get_prop (call_body c) (lit "locationId") = locationId /\
   forall k, k <> lit "locationId" ->
             get_prop (call_body c) k = get_prop (VObj fields) k) /\
  (truthy locationId = false -> call_body c = VObj fields).
Proof.
  cbv zeta. unfold Part000.upsertToGhl, Part000.leadconnector, Part000.spread_with.
  simpl call_verb. simpl call_url. simpl call_body.
  split; [reflexivity|]. split; [reflexivity|]. split; intros ->.
  - simpl. split; [apply set_prop_same|]. intros k Hk. now apply set_prop_other.
  - reflexivity.
Qed.

Lemma upsertToGhl_body_witness :
  get_prop
    (call_body (Part000.upsertToGhl (Some (lit "key")) (VObj [(lit "email", str "a@b.c")])
                  (str "loc-1")))
    (lit "locationId") = str "loc-1" /\
  forall k, k <> lit "locationId" ->
            get_prop
              (call_body (Part000.upsertToGhl (Some (lit "key"))
                            (VObj [(lit "email", str "a@b.c")]) (str "loc-1"))) k
            = get_prop (VObj [(lit "email", str "a@b.c")]) k.
Proof.
  apply (proj1 (proj2 (proj2
           (upsertToGhl_body (Some (lit "key")) (str "loc-1") [(lit "email", str "a@b.c")])))).
  reflexivity.
Defined.




Example buildGhlContact_throws :
  Part000.buildGhlContact (obj [("phone", str "555"); ("tags", obj [("toString", num 1)])])
  = Throw (lit "Cannot convert object to primitive value") /\
  Part000.buildGhlContact (obj [("phone", str "555"); ("tags", obj [("a", num 1)])])
  = Normal (obj [("email", VUndef); ("phone", str "555"); ("firstName", VUndef);
                 ("lastName", VUndef); ("tags", VArr [str "[object Object]"])]).
Proof. split; reflexivity. Qed.

(** X10.  A request to [/webhook], [/webhook2] or [/webhook3] of the latest
    revision that resolves an identity makes exactly one call, the
    [upsertToGhl] one.  It is answered 200 exactly when the remote
    resolves with a body; a rejection, and also a success whose data is
    [null] or [undefined] (reading [resp.data.id] throws inside the
    [try]), is answered 500. *)
Theorem ghl_route_delivers (World : Type) (remote : call -> World -> reply * World)
    (api_var account : String.string) (locationId : value) (e : env) (req : request)
    (s : state World) (contact : value) :
  Part000.buildGhlContact (req_body req) = Normal contact ->
  truthy (get_prop contact (lit "email")) || truthy (get_prop contact (lit "phone")) = true ->
  let c := Part000.upsertToGhl (e api_var) contact locationId in
  let run := Part000.ghl_route remote api_var locationId account e req s in
  snd run = State (snd (remote c (world s))) (issued s ++ [c]) /\
  (status_of (fst run) = Some 200%Z \/ status_of (fst run) = Some 500%Z) /\
  (status_of (fst run) = Some 200%Z <->
   exists d, fst (remote c (world s)) = Resolved d /\ nullish d = false).
Proof.
  intros Hb Hid c run. unfold run, Part000.ghl_route. rewrite Hb.
  apply orb_true_iff in Hid.
  assert (Hv : negb (truthy (get_prop contact (lit "email")))
               && negb (truthy (get_prop contact (lit "phone"))) = false)
    by (destruct Hid as [-> | ->]; [reflexivity|apply andb_false_r]).
  rewrite Hv. unfold bind, axios. fold c.
  destruct (remote c (world s)) as [[d|r m] w]; simpl.
  - destruct (nullish d) eqn:Ed; simpl.
    + split; [reflexivity|]. split; [now right|].
      split; [discriminate|]. intros (d' & E & Hd). injection E as <-. congruence.
    + split; [reflexivity|]. split; [now left|].
      split; [|reflexivity]. intros _. now exists d.
  - split; [reflexivity|]. split; [now right|].
    split; [discriminate|]. intros (d' & E & _). discriminate.
Qed.

Lemma ghl_route_delivers_witness :
  let e := env_with [("ACCOUNT_A_API", "key-a"); ("ACCOUNT_A_LOCATION_ID", "loc-a")] in
  let req := Request VUndef VUndef (obj [("email", str "a@b.c")]) in
  let contact := obj [("email", str "a@b.c"); ("phone", VUndef); ("firstName", VUndef);
                      ("lastName", VUndef); ("tags", VArr [])] in
  let c := Part000.upsertToGhl (e "ACCOUNT_A_API") contact (getenv e "ACCOUNT_A_LOCATION_ID") in
  let run := Part000.webhook accepting e req start in
  snd run = State (snd (accepting c (world start))) (issued start ++ [c]) /\
  (status_of (fst run) = Some 200%Z \/ status_of (fst run) = Some 500%Z) /\
  (status_of (fst run) = Some 200%Z <->
   exists d, fst (accepting c (world start)) = Resolved d /\ nullish d = false).
Proof.
  cbv zeta.
  apply (@ghl_route_delivers nat accepting "ACCOUNT_A_API" "A"
           (str "loc-a")
           (env_with [("ACCOUNT_A_API", "key-a"); ("ACCOUNT_A_LOCATION_ID", "loc-a")])
           (Request VUndef VUndef (obj [("email", str "a@b.c")])) start
           (obj [("email", str "a@b.c"); ("phone", VUndef); ("firstName", VUndef);
                 ("lastName", VUndef); ("tags", VArr [])])
           eq_refl eq_refl).
Defined.

Lemma or_var_value (a b : option jstring) :
  var_value (or_var a b) = or_else (var_value a) (var_value b).
Proof. unfold or_var, or_else. now destruct (truthy (var_value a)). Qed.

(** X11.  [/webhook/new-ghl-account] of the latest revision checks its
    configuration after the identity and before the call: with neither
    [ACCOUNT_B_API] nor [NEW_GHL_API], or without [NEW_GHL_LOCATION_ID], a
    request that resolves an identity is answered 500 and no call is
    made. *)
Theorem new_ghl_account_unconfigured (World : Type)
    (remote : call -> World -> reply * World) (e : env) (req : request) (s : state World) :
  let payload := req_body req in
  let c k := opt_member (get_prop payload (lit "contact")) (lit k) in
  nullish payload = false ->
  truthy (coalesce (get_prop payload (lit "email")) (c "email"))
  || truthy (coalesce (get_prop payload (lit "phone")) (c "phone")) = true ->
  truthy (or_else (getenv e "ACCOUNT_B_API") (getenv e "NEW_GHL_API")) = false \/
  truthy (getenv e "NEW_GHL_LOCATION_ID") = false ->
  Part000.new_ghl_account remote e req s
  = (send 500 (lit "Server not configured: missing API key or locationId"), s).
Proof.
  intros payload c Hn Hid Hcfg. unfold Part000.new_ghl_account.
  fold payload. rewrite (member_defined _ _ Hn).
  change (get_prop (obj ?l) (lit "email"))
    with (coalesce (get_prop payload (lit "email")) (c "email")).
  change (get_prop (obj ?l) (lit "phone"))
    with (coalesce (get_prop payload (lit "phone")) (c "phone")).
  apply orb_true_iff in Hid.
  assert (Hv : negb (truthy (coalesce (get_prop payload (lit "email")) (c "email")))
               && negb (truthy (coalesce (get_prop payload (lit "phone")) (c "phone")))
               = false)
    by (destruct Hid as [-> | ->]; [reflexivity|apply andb_false_r]).
  rewrite Hv. rewrite or_var_value. fold (getenv e "ACCOUNT_B_API") (getenv e "NEW_GHL_API").
  assert (Hk : negb (truthy (or_else (getenv e "ACCOUNT_B_API") (getenv e "NEW_GHL_API")))
               || negb (truthy (getenv e "NEW_GHL_LOCATION_ID")) = true)
    by (destruct Hcfg as [-> | ->]; [reflexivity|apply orb_true_r]).
  rewrite Hk. reflexivity.
Qed.

Lemma new_ghl_account_unconfigured_witness :
  Part000.new_ghl_account accepting (env_with [("NEW_GHL_API", "key-n")])
    (Request VUndef VUndef (obj [("contact", obj [("email", str "a@b.c")])])) start
  = (send 500 (lit "Server not configured: missing API key or locationId"), start).
Proof.
  apply (@new_ghl_account_unconfigured nat accepting
           (env_with [("NEW_GHL_API", "key-n")])
           (Request VUndef VUndef (obj [("contact", obj [("email", str "a@b.c")])])) start).
  - reflexivity.
  - reflexivity.
  - right. reflexivity.
Defined.


(** ** The marketing-platform routes of the latest revision *)

(** X12.  Whatever the remote answers, the search-then-update-or-create
    sequence makes one or two calls, all of them with the bearer token,
    the first being the search.  It stops after the search exactly when
    the search is rejected or finds a record whose identifier [String()]
    does not convert.  It answers 200 or 500, and 200 only after its
    second call. *)
Theorem upsert_one_outcomes (World : Type) (remote : call -> World -> reply * World)
    (token : option jstring) (properties : value) (s : state World) :
  let run := Part000.upsert_one remote token properties s in
  let auth := lit "Bearer " ++ match token with Some t => t | None => lit "undefined" end in
  let search := Call POST (lit "https://api.hubapi.com/crm/v3/objects/contacts/search") auth
                  (Part000.search_body properties) in
  exists calls,
    issued (snd run) = issued s ++ search :: calls /\
    (List.length calls <= 1)%nat /\
    Forall (fun c => call_auth c = auth) (search :: calls) /\
    (calls = [] <->
     (exists r m, fst (remote search (world s)) = Rejected r m) \/
     (exists data m,
         fst (remote search (world s)) = Resolved data /\
         truthy (or_else (opt_member (opt_member data (lit "results")) (lit "0")) VNull)
         = true /\
         toString (get_prop (or_else (opt_member (opt_member data (lit "results")) (lit "0"))
                               VNull) (lit "id")) = Throw m)) /\
    (status_of (fst run) = Some 200%Z \/ status_of (fst run) = Some 500%Z) /\
    (status_of (fst run) = Some 200%Z -> List.length calls = 1%nat).
Proof.
  cbv zeta. unfold Part000.upsert_one, bind, axios.
  change (Part000.hubspot POST token (lit "/crm/v3/objects/contacts/search")
            (Part000.search_body properties))
    with (Call POST (lit "https://api.hubapi.com/crm/v3/objects/contacts/search")
            (lit "Bearer " ++ match token with Some t => t | None => lit "undefined" end)
            (Part000.search_body properties)).
  destruct (remote _ (world s)) as [[data|r m] w1].
  - set (existing := or_else (opt_member (opt_member data (lit "results")) (lit "0")) VNull).
    destruct (truthy existing) eqn:Hex.
    + destruct (toString (get_prop existing (lit "id"))) as [path_id|m] eqn:Hid.
      * assert (Hno : forall (c : call),
                   [c] = [] <->
                   (exists r m, fst (Resolved data, w1) = Rejected r m) \/
                   (exists data' m,
                       fst (Resolved data, w1) = Resolved data' /\
                       truthy (or_else (opt_member (opt_member data' (lit "results"))
                                          (lit "0")) VNull) = true /\
                       toString (get_prop (or_else (opt_member (opt_member data'
                                                                  (lit "results"))
                                                      (lit "0")) VNull) (lit "id"))
                       = Throw m)).
        { intros c. split; [discriminate|].
          intros [(r' & m' & E)|(data' & m' & E & _ & Ht)]; [discriminate E|].
          simpl in E. injection E as <-. fold existing in Ht. congruence. }
        simpl world; simpl issued.
        destruct (remote _ w1) as [[d|r m] w2]; rewrite <- app_assoc;
          (eexists; split; [reflexivity|]);
          (split; [simpl; lia|]); (split; [repeat constructor|]);
          (split; [apply Hno|]); simpl; auto.
      * exists []. simpl. split; [reflexivity|]. split; [lia|].
        split; [repeat constructor|].
        split; [split; [intros _; right; exists data, m; auto|reflexivity]|].
        split; [now right|discriminate].
    + assert (Hno : forall (c : call),
                 [c] = [] <->
                 (exists r m, fst (Resolved data, w1) = Rejected r m) \/
                 (exists data' m,
                     fst (Resolved data, w1) = Resolved data' /\
                     truthy (or_else (opt_member (opt_member data' (lit "results"))
                                        (lit "0")) VNull) = true /\
                     toString (get_prop (or_else (opt_member (opt_member data'
                                                                (lit "results"))
                                                    (lit "0")) VNull) (lit "id"))
                     = Throw m)).
      { intros c. split; [discriminate|].
        intros [(r' & m' & E)|(data' & m' & E & Ht & _)]; [discriminate E|].
        simpl in E. injection E as <-. fold existing in Ht. congruence. }
      simpl world; simpl issued.
      destruct (remote _ w1) as [[d|r m] w2]; rewrite <- app_assoc;
        [destruct (member d (lit "id"))|];
        (eexists; split; [reflexivity|]);
        (split; [simpl; lia|]); (split; [repeat constructor|]);
        (split; [apply Hno|]); simpl; auto.
  - exists []. simpl. split; [reflexivity|]. split; [lia|].
    split; [repeat constructor|].
    split; [split; [intros _; left; now exists r, m|reflexivity]|].
    split; [now right|discriminate].
Qed.

(** X13.  [/webhook/ghl-to-hubspot] answers 400 without any call when the
    body, or [{}] in its place when the body is missing, has no truthy
    [email]; a body that is missing never makes it throw. *)
Theorem ghl_to_hubspot_requires_email (World : Type)
    (remote : call -> World -> reply * World) (e : env) (req : request) (s : state World) :
  truthy (get_prop (or_else (req_body req) (VObj [])) (lit "email")) = false ->
  Part000.ghl_to_hubspot remote e req s = (Part000.missing_email, s) /\
  status_of Part000.missing_email = Some 400%Z.
Proof.
  intros He. split; [|reflexivity]. unfold Part000.ghl_to_hubspot.
  destruct (@normalizeHubSpotContact_fields (or_else (req_body req) (VObj [])))
    as (props & Hp & _ & Hemail & _).
  { unfold or_else. destruct (truthy (req_body req)) eqn:E;
      [intros H; rewrite H in E; discriminate|discriminate]. }
  rewrite Hp, Hemail, He. reflexivity.
Qed.

Lemma ghl_to_hubspot_requires_email_witness :
  Part000.ghl_to_hubspot accepting (env_with []) (Request VUndef VUndef VUndef) start
  = (Part000.missing_email, start) /\
  status_of Part000.missing_email = Some 400%Z.
Proof.
  apply (@ghl_to_hubspot_requires_email nat accepting (env_with [])
           (Request VUndef VUndef VUndef) start).
  reflexivity.
Defined.

(** X14.  The OperatingFrame routes answer 500 without any call, whatever
    the request, when [HUBSPOT_ACCESS_TOKEN_OPERATINGFRAME] is not
    configured; with the token, the single-contact route answers 400
    without any call when no e-mail address resolves from the payload or
    its [contact]. *)
Theorem operatingframe_guards (World : Type) (remote : call -> World -> reply * World)
    (e : env) (req : request) (s : state World) :
  (truthy (getenv e "HUBSPOT_ACCESS_TOKEN_OPERATINGFRAME") = false ->
   Part000.ghl_to_hubspot_operatingframe remote e req s = (Part000.not_configured, s) /\
   Part000.ghl_to_hubspot_operatingframe_batch remote e req s
   = (Part000.not_configured, s) /\
   status_of Part000.not_configured = Some 500%Z) /\
  (truthy (getenv e "HUBSPOT_ACCESS_TOKEN_OPERATINGFRAME") = true ->
   let raw := or_else (req_body req) (VObj []) in
   truthy (coalesce (get_prop raw (lit "email"))
             (get_prop (coalesce (get_prop raw (lit "contact")) raw) (lit "email")))
   = false ->
   Part000.ghl_to_hubspot_operatingframe remote e req s = (Part000.missing_email, s)).
Proof.
  split.
  - intros Ht. unfold Part000.ghl_to_hubspot_operatingframe,
      Part000.ghl_to_hubspot_operatingframe_batch.
    fold (getenv e "HUBSPOT_ACCESS_TOKEN_OPERATINGFRAME"). rewrite Ht. now repeat split.
  - intros Ht raw He. unfold Part000.ghl_to_hubspot_operatingframe.
    fold (getenv e "HUBSPOT_ACCESS_TOKEN_OPERATINGFRAME"). rewrite Ht.
    simpl negb. cbv iota. fold raw.
    destruct (@normalizeOperatingFrame_fields raw) as (props & Hp & _ & Hemail & _).
    { unfold raw, or_else. destruct (truthy (req_body req)) eqn:E;
        [intros H; rewrite H in E; discriminate|discriminate]. }
    rewrite Hp, Hemail, He. reflexivity.
Qed.

Lemma operatingframe_guards_witness :
  Part000.ghl_to_hubspot_operatingframe accepting
    (env_with [("HUBSPOT_ACCESS_TOKEN_OPERATINGFRAME", "pat-of")])
    (Request VUndef VUndef (obj [("contact", obj [("phone", str "555")])])) start
  = (Part000.missing_email, start).
Proof.
  apply (proj2 (@operatingframe_guards nat accepting
           (env_with [("HUBSPOT_ACCESS_TOKEN_OPERATINGFRAME", "pat-of")])
           (Request VUndef VUndef (obj [("contact", obj [("phone", str "555")])])) start));
    reflexivity.
Defined.

Lemma chunk_head {A} (arr : list A) (size : nat) :
  (0 < size)%nat -> arr <> [] ->
  exists rest, Part000.chunk arr size = firstn size arr :: rest.
Proof.
  intros Hs Hne. rewrite chunk_groups by exact Hs.
  destruct ((List.length arr + size - 1) / size)%nat as [|k] eqn:E.
  - destruct (ceil_div_bounds (List.length arr) Hs) as [Hb _]. rewrite E in Hb.
    destruct arr; [now elim Hne|simpl in Hb; lia].
  - simpl. eexists. reflexivity.
Qed.

Lemma batch_inputs_null (group : list value) :
  In VNull group ->
  exists m, Part000.batch_inputs Part000.normalizeHubSpotContact group = Throw m.
Proof.
  induction group as [|c group IH]; intros Hin; [destruct Hin|].
  simpl Part000.batch_inputs.
  destruct (Part000.normalizeHubSpotContact c) as [p|m] eqn:E.
  - destruct Hin as [->|Hin]; [discriminate|].
    destruct (IH Hin) as [m Hm]. simpl. rewrite Hm. now exists m.
  - now exists m.
Qed.
Lemma upsert_groups_throw (World : Type) (remote : call -> World -> reply * World)
    normalize token (group : list value) rest results (s : state World) m :
  Part000.batch_inputs normalize group = Throw m ->
  Part000.upsert_groups remote normalize token (group :: rest) results s
  = (inr (VStr m), s).
Proof. intros H. cbn [Part000.upsert_groups]. rewrite H. reflexivity. Qed.

(** X15.  The batch route makes no call at all and answers: 500 when the
    request has no parsed body (reading [req.body.contacts] throws inside
    the [try]); 400 when [contacts] is not a non-empty array; 500 when
    one of the first hundred contacts is [null], since normalising it
    throws before the first group is sent. *)
Theorem batch_rejected_without_call (World : Type)
    (remote : call -> World -> reply * World) (e : env) (req : request) (s : state World) :
  let run := Part000.ghl_to_hubspot_batch remote e req s in
  (nullish (req_body req) = true ->
   exists m, run = (Part000.server_error (VStr m), s)) /\
  (nullish (req_body req) = false ->
   (forall c l, get_prop (req_body req) (lit "contacts") <> VArr (c :: l)) ->
   run = (json 400 [("status", str "error");
                    ("message", str "Body must include contacts[]")], s)) /\
  (forall items,
      nullish (req_body req) = false ->
      get_prop (req_body req) (lit "contacts") = VArr items ->
      In VNull (firstn 100 items) ->
      exists m, run = (Part000.server_error (VStr m), s)).
Proof.
  cbv zeta. unfold Part000.ghl_to_hubspot_batch. split; [|split].
  - intros Hn. destruct (req_body req); try discriminate; eexists; reflexivity.
  - intros Hn Hc. rewrite (member_defined _ _ Hn). unfold Part000.upsert_batch.
    destruct (get_prop (req_body req) (lit "contacts")) as [| | | | |[|c l]|];
      try reflexivity.
    now elim (Hc c l).
  - intros items Hn Hitems Hin. rewrite (member_defined _ _ Hn), Hitems.
    unfold Part000.upsert_batch.
    assert (Hne : items <> []) by (intros ->; destruct Hin).
    assert (Hz : Nat.eqb (List.length items) 0 = false)
      by (destruct items; [now elim Hne|reflexivity]).
    rewrite Hz. destruct (chunk_head (size := 100) ltac:(lia) Hne) as [rest ->].
    destruct (batch_inputs_null _ Hin) as [m Hm].
    unfold bind.
    rewrite (@upsert_groups_throw World remote Part000.normalizeHubSpotContact
               (e "HUBSPOT_ACCESS_TOKEN") (firstn 100 items) rest [] s m Hm).
    now exists m.
Qed.

Lemma batch_rejected_without_call_witness :
  exists m,
    Part000.ghl_to_hubspot_batch accepting (env_with [("HUBSPOT_ACCESS_TOKEN", "pat-1")])
      (Request VUndef VUndef
         (obj [("contacts", VArr [obj [("email", str "a@b.c")]; VNull])])) start
    = (Part000.server_error (VStr m), start).
Proof.
  apply (proj2 (proj2 (@batch_rejected_without_call nat accepting
           (env_with [("HUBSPOT_ACCESS_TOKEN", "pat-1")])
           (Request VUndef VUndef
              (obj [("contacts", VArr [obj [("email", str "a@b.c")]; VNull])])) start))
         [obj [("email", str "a@b.c")]; VNull]).
  - reflexivity.
  - reflexivity.
  - simpl. tauto.
Defined.

Lemma upsert_groups_issue (World : Type) (remote : call -> World -> reply * World)
    normalize token (group : list value) rest results (s : state World) inputs :
  Part000.batch_inputs normalize group = Normal inputs ->
  let c := Part000.hubspot POST token (lit "/crm/v3/objects/contacts/batch/upsert")
             (obj [("inputs", VArr inputs)]) in
  Part000.upsert_groups remote normalize token (group :: rest) results s
  = match fst (remote c (world s)) with
    | Resolved d =>
        Part000.upsert_groups remote normalize token rest (results ++ [d])
          (State (snd (remote c (world s))) (issued s ++ [c]))
    | Rejected r m =>
        (inr (error_details r m), State (snd (remote c (world s))) (issued s ++ [c]))
    end.
Proof.
  intros H c. cbn [Part000.upsert_groups]. rewrite H. unfold bind, axios. fold c.
  destruct (remote c (world s)) as [[d|r m] w]; reflexivity.
Qed.

(** X16.  The OperatingFrame batch route also takes a single contact:
    when the body has no [contacts] array but an e-mail address of its
    own or under [contact], it makes exactly one batch call whose only
    input is that body normalised, keyed by [email]; the answer is 200
    with one result, or 500 with the details of the rejection. *)
Theorem operatingframe_batch_single (World : Type)
    (remote : call -> World -> reply * World) (e : env) (req : request) (s : state World)
    (fields : list (jstring * value)) :
  let token := e "HUBSPOT_ACCESS_TOKEN_OPERATINGFRAME" in
  let b := VObj fields in
  req_body req = b ->
  truthy (getenv e "HUBSPOT_ACCESS_TOKEN_OPERATINGFRAME") = true ->
  is_array (get_prop b (lit "contacts")) = false ->
  truthy (or_else (get_prop b (lit "email"))
            (opt_member (get_prop b (lit "contact")) (lit "email"))) = true ->
  let c := batch_call Part000.normalizeHubSpotContactOperatingFrame token [b] in
  Part000.ghl_to_hubspot_operatingframe_batch remote e req s
  = (match fst (remote c (world s)) with
     | Resolved d => json 200 [("status", str "success"); ("chunks", num 1);
                               ("results", VArr [d])]
     | Rejected r m => Part000.server_error (error_details r m)
     end,
     State (snd (remote c (world s))) (issued s ++ [c])).
Proof.
  intros token b Hb Ht Ha He c.
  unfold Part000.ghl_to_hubspot_operatingframe_batch. fold token.
  unfold getenv in Ht. fold token in Ht. rewrite Ht, Hb.
  change (member b (lit "contacts")) with (Normal (get_prop b (lit "contacts"))).
  change (negb true) with false.
  cbv beta iota.
  assert (Hitems : match get_prop b (lit "contacts") with
                   | VArr l => l
                   | _ => if truthy (and_then b
                                       (or_else (get_prop b (lit "email"))
                                          (opt_member (get_prop b (lit "contact"))
                                             (lit "email"))))
                          then [b] else []
                   end = [b]).
  { assert (Hand : truthy (and_then b
                             (or_else (get_prop b (lit "email"))
                                (opt_member (get_prop b (lit "contact")) (lit "email"))))
                   = true) by exact He.
    rewrite Hand. now destruct (get_prop b (lit "contacts")). }
  rewrite Hitems. unfold Part000.upsert_batch.
  change (Nat.eqb (List.length [b]) 0) with false.
  change (Part000.chunk [b] 100) with [[b]]. cbv beta iota.
  destruct (@normalizeOperatingFrame_fields b) as (props & Hp & _); [discriminate|].
  assert (Hin : Part000.batch_inputs Part000.normalizeHubSpotContactOperatingFrame [b]
                = Normal [obj [("idProperty", str "email"); ("properties", props)]])
    by (cbn [Part000.batch_inputs]; rewrite Hp; reflexivity).
  unfold bind. cbv beta.
  rewrite (@upsert_groups_issue World remote Part000.normalizeHubSpotContactOperatingFrame
             token [b] [] [] s _ Hin).
  assert (Hc : Part000.hubspot POST token (lit "/crm/v3/objects/contacts/batch/upsert")
                 (obj [("inputs",
                        VArr [obj [("idProperty", str "email"); ("properties", props)]])])
               = c).
  { unfold c, batch_call, properties_of. cbn [map]. now rewrite Hp. }
  rewrite Hc. destruct (remote c (world s)) as [[d|r m] w]; reflexivity.
Qed.

Lemma operatingframe_batch_single_witness :
  let e := env_with [("HUBSPOT_ACCESS_TOKEN_OPERATINGFRAME", "pat-of")] in
  let b := VObj [(lit "contact", obj [("email", str "a@b.c")])] in
  let c := batch_call Part000.normalizeHubSpotContactOperatingFrame
             (e "HUBSPOT_ACCESS_TOKEN_OPERATINGFRAME") [b] in
  Part000.ghl_to_hubspot_operatingframe_batch accepting e (Request VUndef VUndef b) start
  = (match fst (accepting c (world start)) with
     | Resolved d => json 200 [("status", str "success"); ("chunks", num 1);
                               ("results", VArr [d])]
     | Rejected r m => Part000.server_error (error_details r m)
     end,
     State (snd (accepting c (world start))) (issued start ++ [c])).
Proof.
  cbv zeta.
  apply (@operatingframe_batch_single nat accepting
           (env_with [("HUBSPOT_ACCESS_TOKEN_OPERATINGFRAME", "pat-of")])
           (Request VUndef VUndef (VObj [(lit "contact", obj [("email", str "a@b.c")])]))
           start [(lit "contact", obj [("email", str "a@b.c")])]); reflexivity.
Defined.

(** ** [/webhook/ghl-to-hubspot] of the gated revision *)




Example hubspot_create_sent :
  Server.ghl_to_hubspot accepting (env_with [("HUBSPOT_ACCESS_TOKEN", "pat-1")])
    (Request VUndef VUndef
       (obj [("email", str "a@b.c"); ("phone", num 0);
             ("tags", VArr [str "vip"; num 7; VNull; str "gold"])])) start
  = (json 200 [("status", str "success"); ("data", obj [("id", num 0)])],
     State 1%nat
       [Call POST (lit "https://api.hubapi.com/crm/v3/objects/contacts")
          (lit "Bearer pat-1")
          (obj [("properties",
                 obj [("email", str "a@b.c"); ("firstname", str ""); ("lastname", str "");
                      ("phone", str ""); ("source", str ""); ("tags", str "vip,7,,gold");
                      ("investor_archetype_ppt_frequency", str "");
                      ("investor_archetype_ppt_profile", str "");
                      ("investor_archetype_free_ppt_frequency", str "")])])]) /\
  Server.ghl_to_hubspot accepting (env_with [("HUBSPOT_ACCESS_TOKEN", "pat-1")])
    (Request VUndef VUndef
       (obj [("email", str "a@b.c"); ("tags", VArr [obj [("toString", num 1)]])])) start
  = (json 500 [("status", str "error");
               ("error", str "Cannot convert object to primitive value")], start).
Proof. split; reflexivity. Qed.

(** ** The inbound [tags] array is written to *)

Lemma lookup_first (k : jstring) (v : value) (before after : list (jstring * value)) :
  (forall kv, In kv before -> fst kv <> k) ->
  lookup k (before ++ (k, v) :: after) = v.
Proof.
  induction before as [|[k0 v0] before IH]; intros H; simpl.
  - now rewrite jstring_eqb_refl.
  - assert (Hk : jstring_eqb k0 k = false)
      by (apply jstring_eqb_neq; apply (H (k0, v0)); now left).
    rewrite Hk. apply IH. intros kv Hkv. apply H. now right.
Qed.

(** X18.  [ensureArrayTags] returns the inbound array itself, so the
    pushes of the pattern loop land in [payload.tags]: when [pick] took
    the array under the key [tags] and the pattern matches that key, the
    tag pushed for it is the string form of the inbound tags followed
    by the tags already pushed for the keys before it, not the string
    form of the inbound tags alone.  (The tags pushed before are those of
    the matching keys ahead of [tags], whose values [String()] must
    convert for the loop to come that far.) *)
Theorem discovered_tags_reads_own_pushes test (before after : list (jstring * value))
    (inbound : list value) (pushed : list jstring) (joined : jstring) :
  test (lit "tags") = true ->
  (forall kv, In kv before -> fst kv <> lit "tags") ->
  Crm.usable (VArr inbound) = Normal true ->
  Forall2 (fun kv t => exists s, toString (snd kv) = Normal s /\ t = trim s)
    (filter (fun kv => truthy (snd kv) && test (fst kv)) before) pushed ->
  toString (VArr (inbound ++ map VStr pushed)) = Normal joined ->
  Crm.discovered_tags (VObj (before ++ (lit "tags", VArr inbound) :: after)) (Some test)
  = Crm.key_tags test true
      ((inbound ++ map VStr pushed) ++ [VStr (trim joined)]) after.
Proof.
  intros Ht Hb Hu Hpushed Hjoined.
  assert (Hp : Crm.path_value (VObj (before ++ (lit "tags", VArr inbound) :: after))
                 (lit "tags") = VArr inbound)
    by (apply (@lookup_first (lit "tags") (VArr inbound) before after Hb)).
  assert (Hk : Crm.pick (VObj (before ++ (lit "tags", VArr inbound) :: after))
                 Crm.tags_paths = Normal (VArr inbound)).
  { change Crm.tags_paths with [lit "tags"; lit "contact.tags"].
    cbn [Crm.pick]. cbv zeta. rewrite Hp, Hu. reflexivity. }
  unfold Crm.discovered_tags, Crm.tags_aliased. rewrite Hk, Hp, Hu.
  cbn [bindc entries Crm.ensureArrayTags is_array].
  rewrite key_tags_app.
  assert (Hbefore : forall kv, In kv before ->
              true = false \/ fst kv <> lit "tags" \/ test (lit "tags") = false)
    by (intros kv Hkv; right; left; now apply Hb).
  rewrite (proj2 (@key_tags_pushes test true before Hbefore inbound) pushed Hpushed).
  cbn [bindc]. rewrite key_tags_cons. f_equal.
  unfold Crm.key_tag_step. cbn [fst snd].
  rewrite jstring_eqb_refl, Ht. cbn [andb truthy negb]. rewrite Hjoined. reflexivity.
Qed.

Lemma discovered_tags_reads_own_pushes_witness :
  Crm.discovered_tags
    (VObj ([(lit "source", str "web"); (lit "phone", str "555")]
           ++ (lit "tags", VArr [str "t"; str "u"]) :: []))
    (Some (contains (lit "s")))
  = Crm.key_tags (contains (lit "s")) true
      (([str "t"; str "u"] ++ map VStr [lit "web"]) ++ [VStr (trim (lit "t,u,web"))]) [].
Proof.
  apply (@discovered_tags_reads_own_pushes (contains (lit "s"))
           [(lit "source", str "web"); (lit "phone", str "555")] []
           [str "t"; str "u"] [lit "web"] (lit "t,u,web")).
  - reflexivity.
  - intros kv [<-|[<-|[]]]; discriminate.
  - reflexivity.
  - repeat constructor. exists (lit "web"). split; reflexivity.
  - reflexivity.
Defined.

